(** * Funnel analytics ledger (src/analytics.js)

    A shallow embedding of the [FunnelAnalytics] class: the ledger
    document, [trackEvent] with its sub-steps, [calculateConversionRates],
    [loadData], [saveData], [getAnalytics] and [resetAnalytics]; the
    constructor with [getOrCreateSession], [generateSessionId],
    [detectCurrentPage] and [init], and the listeners [init] registers;
    together with the part of the JavaScript runtime these methods rest
    on (property lookup on plain objects, binary64 arithmetic,
    [Number.prototype.toFixed], [Date.prototype.toISOString], strings,
    the query parameters). *)

From Stdlib Require Import ZArith NArith Lia Bool List Ascii String.
From Stdlib Require Import QArith Qabs Qpower Lqa.
From Stdlib Require Import Floats.SpecFloat.
From stdpp Require Import gmap strings list fin_maps.
Import ListNotations.

#[local] Set Warnings "-register-all".

Local Open Scope string_scope.
Local Open Scope list_scope.

(** ** Decimal digits *)

(** The character of the decimal digit [d mod 10]. *)
Definition digit_char (d : N) : ascii :=
  ascii_of_N (48 + d mod 10).

Definition is_digit (c : ascii) : bool :=
  (48 <=? N_of_ascii c)%N && (N_of_ascii c <=? 57)%N.

(** Decimal numeral of [n], most significant digit first, no leading
    zero ("0" for zero).  The recursion is on the binary size of [n],
    which bounds the number of decimal digits. *)
Fixpoint decimal_aux (fuel : nat) (n : N) (acc : string) : string :=
  match fuel with
  | O => String (digit_char n) acc
  | S fuel' =>
      if (n <? 10)%N then String (digit_char n) acc
      else decimal_aux fuel' (n / 10) (String (digit_char n) acc)
  end.

Definition decimal (n : N) : string :=
  decimal_aux (N.to_nat (N.size n)) n "".

(** [n] on exactly [w] digits (the low [w] digits, zero padded). *)
Fixpoint padded (w : nat) (n : N) (acc : string) : string :=
  match w with
  | O => acc
  | S w' => padded w' (n / 10) (String (digit_char n) acc)
  end.

(** ** JavaScript numbers

    A Number is an IEEE 754 binary64 value; [spec_float] with precision
    53 and maximal exponent 1024 is its specification-level form, and
    [SFdiv], [SFmul] are the correctly rounded operations. *)

Definition prec : Z := 53.
Definition emax : Z := 1024.

Definition Number := spec_float.

(** The Number of a non-negative integer (exact below 2^53). *)
Definition Number_of_N (n : N) : Number :=
  binary_normalize prec emax (Z.of_N n) 0 false.

Definition js_div (x y : Number) : Number := SFdiv prec emax x y.
Definition js_mul (x y : Number) : Number := SFmul prec emax x y.
Definition js_add (x y : Number) : Number := SFadd prec emax x y.

(** The exact value of a finite Number as a fraction [num / den] of its
    magnitude, [den] a power of two. *)
Definition magnitude (m : positive) (e : Z) : Z * Z :=
  if (0 <=? e)%Z then (Z.pos m * 2 ^ e, 1)%Z else (Z.pos m, 2 ^ (- e))%Z.

(** The integer nearest to [num / den]; of two equally near, the larger. *)
Definition nearest_integer (num den : Z) : Z :=
  ((2 * num + den) / (2 * den))%Z.

(** Whether [toFixed] prints [x] in fixed notation: [x] is finite and its
    magnitude is below 10^21. *)
Definition fixed_notation (x : Number) : bool :=
  match x with
  | S754_zero _ => true
  | S754_finite _ m e =>
      let '(num, den) := magnitude m e in (num <? 10 ^ 21 * den)%Z
  | _ => false
  end.

(** [n / 100] printed with two fraction digits, for [n >= 0]: the digits
    of [n], left-padded with zeros to three, with a point before the
    last two. *)
Definition hundredths (n : N) : string :=
  decimal (n / 100) +:+ "." +:+ padded 2 (n mod 100) "".

(** Whether [s] reads as an optional minus sign, one or more digits, a
    point and exactly two digits. *)
Fixpoint digits_then_point_two (seen : bool) (s : string) : bool :=
  match s with
  | String c r =>
      if Ascii.eqb c "." then
        seen && match r with
                | String d1 (String d2 "") => is_digit d1 && is_digit d2
                | _ => false
                end
      else is_digit c && digits_then_point_two true r
  | "" => false
  end.

Definition two_decimals (s : string) : bool :=
  match s with
  | String c r =>
      if Ascii.eqb c "-" then digits_then_point_two false r
      else digits_then_point_two false s
  | "" => false
  end.

(** ** Plain objects used as maps

    A plain object is its own properties (a [gmap]) on top of
    [Object.prototype].  Reading [o[k]] finds an own property first and
    an inherited one otherwise; every property of [Object.prototype] is
    a function, except [__proto__], an accessor that yields the
    prototype object itself. *)

Definition Object_prototype_keys : list string :=
  [ "constructor"; "__defineGetter__"; "__defineSetter__"; "hasOwnProperty";
    "__lookupGetter__"; "__lookupSetter__"; "isPrototypeOf";
    "propertyIsEnumerable"; "toString"; "valueOf"; "__proto__";
    "toLocaleString" ].

Definition on_Object_prototype (k : string) : bool :=
  existsb (String.eqb k) Object_prototype_keys.

Inductive Property (V : Type) : Type :=
  | Own (v : V)      (* an own property holding [v] *)
  | Inherited        (* found on Object.prototype: a function or an object *)
  | Undefined.       (* not found: [undefined] *)
Arguments Own {V} v.
Arguments Inherited {V}.
Arguments Undefined {V}.

(** [o[k]] *)
Definition Get {V} (o : gmap string V) (k : string) : Property V :=
  match o !! k with
  | Some v => Own v
  | None => if on_Object_prototype k then Inherited else Undefined
  end.

(** [o[k] = v] for a primitive [v]: an own property is overwritten or
    created, except that without an own [__proto__] the inherited setter
    runs, which ignores a value that is not an object. *)
Definition Put {V} (o : gmap string V) (k : string) (v : V) : gmap string V :=
  match o !! k with
  | Some _ => <[k := v]> o
  | None => if String.eqb k "__proto__" then o else <[k := v]> o
  end.

(** The value of a per-name counter: a non-negative integer, or NaN.
    On integers below 2^53 the Number arithmetic of [++] is exact
    (lemma [js_add_1_exact]), so a count is kept as an [N]. *)
Inductive Counter : Type :=
  | Count (n : N)
  | NaN.

(** [!p] for a property that holds a counter: 0, NaN and [undefined] are
    falsy, functions and objects are truthy. *)
Definition falsy (p : Property Counter) : bool :=
  match p with
  | Own (Count n) => (n =? 0)%N
  | Own NaN => true
  | Inherited => false
  | Undefined => true
  end.

(** [ToNumber(p) + 1], the value [p++] stores: a function, an object and
    [undefined] convert to NaN. *)
Definition incremented (p : Property Counter) : Counter :=
  match p with
  | Own (Count n) => Count (n + 1)
  | _ => NaN
  end.

(** ** Dates *)

(** The UTC fields of a time value, as [new Date()] holds it. *)
Record Instant : Type := {
  year : Z;
  month : N;        (* 1..12 *)
  day : N;          (* 1..31 *)
  hours : N;
  minutes : N;
  seconds : N;
  milliseconds : N
}.

(** Years 0..9999 print on four digits, the others signed on six. *)
Definition year_string (y : Z) : string :=
  if ((0 <=? y) && (y <=? 9999))%Z then padded 4 (Z.to_N y) ""
  else String (if (y <? 0)%Z then "-" else "+")%char (padded 6 (Z.abs_N y) "").

(** [Date.prototype.toISOString]: YYYY-MM-DDTHH:mm:ss.sssZ *)
Definition toISOString (t : Instant) : string :=
  year_string (year t) +:+ "-" +:+ padded 2 (month t) "" +:+ "-" +:+
  padded 2 (day t) "" +:+ "T" +:+ padded 2 (hours t) "" +:+ ":" +:+
  padded 2 (minutes t) "" +:+ ":" +:+ padded 2 (seconds t) "" +:+ "." +:+
  padded 3 (milliseconds t) "" +:+ "Z".

(** [s.split('T')[0]]: the part of [s] before its first 'T'. *)
Fixpoint split_T_head (s : string) : string :=
  match s with
  | "" => ""
  | String c r => if Ascii.eqb c "T" then "" else String c (split_T_head r)
  end.

(** ** The ledger document *)

(** A structured payload; the aggregator stores it verbatim. *)
Inductive json : Type :=
  | JNull
  | JBool (b : bool)
  | JNum (x : Number)
  | JStr (s : string)
  | JArr (items : list json)
  | JObj (fields : list (string * json)).

(** [FUNNEL_STAGES] *)
Inductive Stage : Type :=
  | QUIZ_LOADED | QUIZ_STARTED | QUIZ_COMPLETED
  | SALES_PAGE_LOADED | SALES_PAGE_SCROLLED | CHECKOUT_CLICKED.

Definition stage_name (st : Stage) : string :=
  match st with
  | QUIZ_LOADED => "quiz_loaded"
  | QUIZ_STARTED => "quiz_started"
  | QUIZ_COMPLETED => "quiz_completed"
  | SALES_PAGE_LOADED => "sales_page_loaded"
  | SALES_PAGE_SCROLLED => "sales_page_scrolled"
  | CHECKOUT_CLICKED => "checkout_clicked"
  end.

Definition all_stages : list Stage :=
  [ QUIZ_LOADED; QUIZ_STARTED; QUIZ_COMPLETED;
    SALES_PAGE_LOADED; SALES_PAGE_SCROLLED; CHECKOUT_CLICKED ].

(** The pages [detectCurrentPage] tells apart. *)
Inductive Page : Type := quiz | sales | dashboard | unknown.

Definition page_name (p : Page) : string :=
  match p with
  | quiz => "quiz" | sales => "sales"
  | dashboard => "dashboard" | unknown => "unknown"
  end.

Module Event.
Record t : Type := mk {
    event : string;
    sessionId : string;
    timestamp : string;
    page : string;
    url : string;
    referrer : string;
    userAgent : string;
    screenResolution : string;
    data : json
}.
End Event.

Module Session.
Record t : Type := mk {
    id : string;
    startTime : string;
    events : list string;
    funnel : gmap string bool;
    lastActivity : option string    (* absent until first assigned *)
}.
End Session.

Module DayBucket.
Record t : Type := mk {
    sessions : N;
    events : gmap string Counter;
    conversions : gmap string Counter
}.
End DayBucket.

(** [funnelMetrics]: an object with exactly the six stage properties,
    each a count (kept as an [N], as in [Counter]). *)
Module FunnelMetrics.
Record t : Type := mk {
    quiz_loaded : N;
    quiz_started : N;
    quiz_completed : N;
    sales_page_loaded : N;
    sales_page_scrolled : N;
    checkout_clicked : N
}.
End FunnelMetrics.

Record Ledger : Type := mkLedger {
  totalSessions : N;
  events : list Event.t;
  funnelMetrics : FunnelMetrics.t;
  dailyStats : gmap string DayBucket.t;
  conversionRates : gmap string string;
  sessions : list Session.t
}.

Definition set_totalSessions (v : N) (d : Ledger) : Ledger :=
  mkLedger v (events d) (funnelMetrics d) (dailyStats d) (conversionRates d) (sessions d).
Definition set_events (v : list Event.t) (d : Ledger) : Ledger :=
  mkLedger (totalSessions d) v (funnelMetrics d) (dailyStats d) (conversionRates d) (sessions d).
Definition set_funnelMetrics (v : FunnelMetrics.t) (d : Ledger) : Ledger :=
  mkLedger (totalSessions d) (events d) v (dailyStats d) (conversionRates d) (sessions d).
Definition set_dailyStats (v : gmap string DayBucket.t) (d : Ledger) : Ledger :=
  mkLedger (totalSessions d) (events d) (funnelMetrics d) v (conversionRates d) (sessions d).
Definition set_conversionRates (v : gmap string string) (d : Ledger) : Ledger :=
  mkLedger (totalSessions d) (events d) (funnelMetrics d) (dailyStats d) v (sessions d).
Definition set_sessions (v : list Session.t) (d : Ledger) : Ledger :=
  mkLedger (totalSessions d) (events d) (funnelMetrics d) (dailyStats d) (conversionRates d) v.

(** [funnelMetrics.hasOwnProperty(name)]: the stage [name] names, if any. *)
Definition stage_of_name (name : string) : option Stage :=
  find (fun st => String.eqb name (stage_name st)) all_stages.

(** [funnelMetrics[stage]] *)
Definition metric (st : Stage) (m : FunnelMetrics.t) : N :=
  match st with
  | QUIZ_LOADED => FunnelMetrics.quiz_loaded m
  | QUIZ_STARTED => FunnelMetrics.quiz_started m
  | QUIZ_COMPLETED => FunnelMetrics.quiz_completed m
  | SALES_PAGE_LOADED => FunnelMetrics.sales_page_loaded m
  | SALES_PAGE_SCROLLED => FunnelMetrics.sales_page_scrolled m
  | CHECKOUT_CLICKED => FunnelMetrics.checkout_clicked m
  end.

(** [funnelMetrics[stage]++] *)
Definition bump (st : Stage) (m : FunnelMetrics.t) : FunnelMetrics.t :=
  let '(FunnelMetrics.mk a b c d e f) := m in
  match st with
  | QUIZ_LOADED => FunnelMetrics.mk (a + 1) b c d e f
  | QUIZ_STARTED => FunnelMetrics.mk a (b + 1) c d e f
  | QUIZ_COMPLETED => FunnelMetrics.mk a b (c + 1) d e f
  | SALES_PAGE_LOADED => FunnelMetrics.mk a b c (d + 1) e f
  | SALES_PAGE_SCROLLED => FunnelMetrics.mk a b c d (e + 1) f
  | CHECKOUT_CLICKED => FunnelMetrics.mk a b c d e (f + 1)
  end%N.

(** [getDefaultData] *)
Definition getDefaultData : Ledger := {|
  totalSessions := 0;
  events := [];
  funnelMetrics := FunnelMetrics.mk 0 0 0 0 0 0;
  dailyStats := ∅;
  conversionRates := ∅;
  sessions := []
|}.

(** ** The running instance: heap, storage slot, exceptions *)

Inductive exn : Type :=
  | TypeError
  | SyntaxError
  | QuotaExceededError
  | Error (message : string).

(** How a call ends: it returns a value or throws. *)
Inductive Completion (A : Type) : Type :=
  | Normal (a : A)
  | Throw (e : exn).
Arguments Normal {A} a.
Arguments Throw {A} e.

(** Objects live on a heap and are held by reference: [this.data] is a
    reference to the ledger document, and two references to one cell see
    each other's writes.  [localStorage] is the slot under
    [ANALYTICS_KEY]. *)
Record World : Type := mkWorld {
  heap : gmap nat Ledger;
  this_data : nat;
  next_ref : nat;
  localStorage : option string
}.

(** The object the reference [r] leads to. *)
Definition deref (r : nat) (w : World) : Ledger :=
  default getDefaultData (heap w !! r).

(** The document [this.data] refers to. *)
Definition current (w : World) : Ledger :=
  deref (this_data w) w.

(** A write through the reference [r]: the object it leads to is
    mutated in place, whoever holds the reference. *)
Definition write_at (r : nat) (f : Ledger -> Ledger) (w : World) : World :=
  mkWorld (<[r := f (deref r w)]> (heap w)) (this_data w) (next_ref w) (localStorage w).

(** A method: it runs on a world, ends normally or by a throw, and
    leaves a world behind either way. *)
Definition M (A : Type) : Type := World -> Completion A * World.

Definition ret {A} (a : A) : M A := fun w => (Normal a, w).
Definition throw {A} (e : exn) : M A := fun w => (Throw e, w).
Definition bind {A B} (m : M A) (k : A -> M B) : M B :=
  fun w =>
    match m w with
    | (Normal a, w') => k a w'
    | (Throw e, w') => (Throw e, w')
    end.
(** [try { body } catch (e) { handler e }] *)
Definition try_catch {A} (body : M A) (handler : exn -> M A) : M A :=
  fun w =>
    match body w with
    | (Normal a, w') => (Normal a, w')
    | (Throw e, w') => handler e w'
    end.
(** The outcome of a call that neither reads nor writes the world. *)
Definition lift {A} (c : Completion A) : M A := fun w => (c, w).

#[global] Instance M_ret : MRet M := @ret.
#[global] Instance M_bind : MBind M := fun A B k m => bind m k.

(** Read [this.data]. *)
Definition read_data : M Ledger := fun w => (Normal (current w), w).
(** Mutate the document [this.data] refers to, in place. *)
Definition update_data (f : Ledger -> Ledger) : M unit :=
  fun w => (Normal tt, write_at (this_data w) f w).
(** [this.data = d] for a newly built object [d]. *)
Definition assign_new_data (d : Ledger) : M unit :=
  fun w => (Normal tt, mkWorld (<[next_ref w := d]> (heap w))
                               (next_ref w) (S (next_ref w)) (localStorage w)).

Definition getItem : M (option string) :=
  fun w => (Normal (localStorage w), w).
Definition removeItem : M unit :=
  fun w => (Normal tt, mkWorld (heap w) (this_data w) (next_ref w) None).

(** A third-party reporting function ([gtag], [fbq]): called with a
    command, an event name and parameters, it returns or throws. *)
Definition Sink : Type := string -> string -> json -> Completion unit.

(** What the browser supplies to one call. *)
Record Env : Type := {
  sessionId : string;            (* this.sessionId *)
  currentPage : Page;            (* this.currentPage *)
  location_href : string;
  document_referrer : string;
  navigator_userAgent : string;
  screen_width : N;
  screen_height : N;
  (* the successive readings of the clock, one per [new Date()] *)
  now_event : Instant;
  now_today : Instant;
  now_start : Instant;
  now_activity : Instant;
  (* the globals [gtag] and [fbq], when defined *)
  gtag : option Sink;
  fbq : option Sink
}.

(** ** Environments and a runtime to run the methods on *)

(** The environment [env] in the tab whose session id is [sid]. *)
Definition in_session (sid : string) (env : Env) : Env := {|
  sessionId := sid;
  currentPage := currentPage env;
  location_href := location_href env;
  document_referrer := document_referrer env;
  navigator_userAgent := navigator_userAgent env;
  screen_width := screen_width env;
  screen_height := screen_height env;
  now_event := now_event env;
  now_today := now_today env;
  now_start := now_start env;
  now_activity := now_activity env;
  gtag := gtag env;
  fbq := fbq env
|}.

(** The environment [env] with neither [gtag] nor [fbq] defined. *)
Definition without_sinks (env : Env) : Env := {|
  sessionId := sessionId env;
  currentPage := currentPage env;
  location_href := location_href env;
  document_referrer := document_referrer env;
  navigator_userAgent := navigator_userAgent env;
  screen_width := screen_width env;
  screen_height := screen_height env;
  now_event := now_event env;
  now_today := now_today env;
  now_start := now_start env;
  now_activity := now_activity env;
  gtag := None;
  fbq := None
|}.

(** A runtime to run the methods on: a store with room for everything,
    a serializer that prints the two top-level counts, and a parser that
    accepts only what this serializer prints for the default document. *)
Definition sample_Number_toString (x : Number) : string := "1e+21".

Definition sample_stringify (d : Ledger) : string :=
  "{totalSessions:" +:+ decimal (totalSessions d) +:+ ",events:" +:+
  decimal (N.of_nat (length (events d))) +:+ "}".

Definition sample_parse (s : string) : Completion Ledger :=
  if String.eqb s (sample_stringify getDefaultData) then Normal getDefaultData
  else Throw SyntaxError.

Definition sample_quota (value : string) : bool := false.

Definition sample_instant : Instant := {|
  year := 2024; month := 3; day := 9;
  hours := 7; minutes := 5; seconds := 59; milliseconds := 42
|}.

Definition sample_env : Env := {|
  sessionId := "session_1709967959042_k3j9x2m1q";
  currentPage := quiz;
  location_href := "https://example.org/index.html";
  document_referrer := "";
  navigator_userAgent := "Mozilla/5.0";
  screen_width := 1920;
  screen_height := 1080;
  now_event := sample_instant;
  now_today := sample_instant;
  now_start := sample_instant;
  now_activity := sample_instant;
  gtag := None;
  fbq := None
|}.

(** The same page with a [gtag] that throws. *)
Definition broken_gtag_env : Env := {|
  sessionId := sessionId sample_env;
  currentPage := currentPage sample_env;
  location_href := location_href sample_env;
  document_referrer := document_referrer sample_env;
  navigator_userAgent := navigator_userAgent sample_env;
  screen_width := screen_width sample_env;
  screen_height := screen_height sample_env;
  now_event := sample_instant;
  now_today := sample_instant;
  now_start := sample_instant;
  now_activity := sample_instant;
  gtag := Some (fun _ _ _ => Throw (Error "gtag failed"));
  fbq := None
|}.

(** ** Strings, numbers and the query, as the page code uses them *)

(** [s.split(sep)] for a separator of one character: the pieces between
    the separators, in order; one piece more than there are
    separators. *)
Fixpoint String_split (sep : ascii) (s : string) : list string :=
  match s with
  | "" => [""]
  | String c r =>
      if Ascii.eqb c sep then "" :: String_split sep r
      else match String_split sep r with
           | piece :: pieces => String c piece :: pieces
           | [] => [String c ""]
           end
  end.

(** [s.includes(sub)] *)
Fixpoint String_includes (s sub : string) : bool :=
  String.prefix sub s ||
  match s with
  | "" => false
  | String _ r => String_includes r sub
  end.

(** Whether the character [c] is nowhere in [s]. *)
Fixpoint free_of (c : ascii) (s : string) : bool :=
  match s with
  | "" => true
  | String c' r => negb (Ascii.eqb c' c) && free_of c r
  end.

(** [detectCurrentPage], on [window.location.pathname]. *)
Definition detectCurrentPage (pathname : string) : Page :=
  let page :=
    match last (String_split "/" pathname) with
    | Some (String c r) => String c r
    | _ => "index.html"
    end in
  if String_includes page "index" || String_includes page "quiz" then quiz
  else if String_includes page "vendas" || String_includes page "sales" then sales
  else if String_includes page "dashboard" || String_includes page "analytics" then dashboard
  else unknown.

(** The decimal numeral of an integer Number, as string concatenation
    prints it. *)
Definition integer_string (z : Z) : string :=
  if (z <? 0)%Z then "-" +:+ decimal (Z.abs_N z) else decimal (Z.to_N z).

(** [generateSessionId]: [now] is what [Date.now()] returns and
    [random36] what [Math.random().toString(36)] returns; [substr(2, 9)]
    takes up to nine characters from the third on. *)
Definition generateSessionId (now : Z) (random36 : string) : string :=
  "session_" +:+ integer_string now +:+ "_" +:+ substring 2 9 random36.

(** The Number of an integer (exact below 2^53 in magnitude, as every
    time value is). *)
Definition Number_of_Z (z : Z) : Number :=
  binary_normalize prec emax z 0 false.

Definition js_sub (x y : Number) : Number := SFsub prec emax x y.

(** [x > y] *)
Definition js_gt (x y : Number) : bool := SFltb y x.


(** [Math.max(x, y)]: NaN when either is; of the two zeros, the positive
    one. *)
Definition Math_max (x y : Number) : Number :=
  match SFcompare x y with
  | None => S754_nan
  | Some Lt => y
  | Some Gt => x
  | Some Eq =>
      match x, y with
      | S754_zero true, S754_zero false => y
      | _, _ => x
      end
  end.

(** [Math.round(x)]: the integer nearest to [x], the larger of two
    equally near, with the sign of [x] when that integer is zero. *)
Definition Math_round (x : Number) : Number :=
  match x with
  | S754_finite s m e =>
      if (0 <=? e)%Z then x
      else
        let den := (2 ^ (- e))%Z in
        if s then
          let n := (- ((den - 2 * Z.pos m) / (2 * den)))%Z in
          if (n =? 0)%Z then S754_zero true else Number_of_Z (- n)
        else
          let n := nearest_integer (Z.pos m) den in
          if (n =? 0)%Z then S754_zero false else Number_of_Z n
  | _ => x
  end.

(** [a || b] on strings that may be missing: the first that is neither
    missing nor empty. *)
Definition or_string (a : option string) (b : string) : string :=
  match a with
  | Some (String c r) => String c r
  | _ => b
  end.

(** [new URLSearchParams(...).get(name)] on the entries of the query:
    the value of the first entry named [name]. *)
Definition URLSearchParams_get (params : list (string * string)) (name : string)
    : option string :=
  match find (fun entry => String.eqb entry.1 name) params with
  | Some entry => Some entry.2
  | None => None
  end.

Definition utm_names : list string :=
  [ "utm_source"; "utm_medium"; "utm_campaign"; "utm_term"; "utm_content" ].

(** [if (params.get(param)) utmData[param] = params.get(param)] *)
Definition utm_entry (params : list (string * string)) (param : string)
    : option (string * json) :=
  match URLSearchParams_get params param with
  | Some (String c r) => Some (param, JStr (String c r))
  | _ => None
  end.

(** The object [utmData] once the five names are gone through. *)
Definition utmData (params : list (string * string)) : list (string * json) :=
  omap (utm_entry params) utm_names.

(** The instance fields the constructor sets besides [data]. *)
Record Instance : Type := mkInstance {
  this_sessionId : string;
  this_startTime : Z;
  this_currentPage : Page
}.

(** What the browser supplies to a call made on the instance [this]. *)
Definition bound (this : Instance) (env : Env) : Env := {|
  sessionId := this_sessionId this;
  currentPage := this_currentPage this;
  location_href := location_href env;
  document_referrer := document_referrer env;
  navigator_userAgent := navigator_userAgent env;
  screen_width := screen_width env;
  screen_height := screen_height env;
  now_event := now_event env;
  now_today := now_today env;
  now_start := now_start env;
  now_activity := now_activity env;
  gtag := gtag env;
  fbq := fbq env
|}.

(** The listeners [init] registers. *)
Inductive Listener : Type :=
  | start_click                (* 'click' on the start button *)
  | result_mutations           (* the MutationObserver on #resultScreen *)
  | quiz_click                 (* 'click' on document, quiz page *)
  | window_scroll              (* 'scroll' on window *)
  | sales_click                (* 'click' on document, sales page *)
  | video_play (index : nat)   (* 'play' on a video *)
  | before_unload.             (* 'beforeunload' on window *)

(** The tab a page runs in: the instance's world, the session store's
    slot under [SESSION_KEY], the listeners registered so far, and the
    variables the listeners close over. *)
Record Tab : Type := mkTab {
  world : World;
  sessionStorage : option string;
  listeners : list Listener;
  observing : bool;        (* the MutationObserver is connected *)
  scrollTracked : bool;
  maxScroll : Number
}.

Definition set_world (w : World) (t : Tab) : Tab :=
  mkTab w (sessionStorage t) (listeners t) (observing t) (scrollTracked t) (maxScroll t).
Definition set_sessionStorage (s : option string) (t : Tab) : Tab :=
  mkTab (world t) s (listeners t) (observing t) (scrollTracked t) (maxScroll t).
Definition set_listeners (l : list Listener) (t : Tab) : Tab :=
  mkTab (world t) (sessionStorage t) l (observing t) (scrollTracked t) (maxScroll t).
Definition set_observing (b : bool) (t : Tab) : Tab :=
  mkTab (world t) (sessionStorage t) (listeners t) b (scrollTracked t) (maxScroll t).
Definition set_scrollTracked (b : bool) (t : Tab) : Tab :=
  mkTab (world t) (sessionStorage t) (listeners t) (observing t) b (maxScroll t).
Definition set_maxScroll (x : Number) (t : Tab) : Tab :=
  mkTab (world t) (sessionStorage t) (listeners t) (observing t) (scrollTracked t) x.

(** A tab in which no page has run yet. *)
Definition new_tab (local session : option string) : Tab :=
  mkTab (mkWorld ∅ 0 0 local) session [] false false (S754_zero false).

(** Code that runs in a tab. *)
Definition P (A : Type) : Type := Tab -> Completion A * Tab.

#[global] Instance P_ret : MRet P := fun A a t => (Normal a, t).
#[global] Instance P_bind : MBind P := fun A B k m t =>
  match m t with
  | (Normal a, t') => k a t'
  | (Throw e, t') => (Throw e, t')
  end.

(** A method of the instance, run in the tab. *)
Definition in_world {A} (m : M A) : P A :=
  fun t => let '(c, w) := m (world t) in (c, set_world w t).

(** A write to the tab. *)
Definition modify (f : Tab -> Tab) : P unit :=
  fun t => (Normal tt, f t).

Definition addEventListener (l : Listener) : P unit :=
  modify (fun t => set_listeners (listeners t ++ [l]) t).

(** What [init] asks the document. *)
Record PageLoad : Type := {
  session_clock : Z;          (* Date.now() in generateSessionId *)
  session_random : string;    (* Math.random().toString(36) *)
  start_clock : Z;            (* Date.now() for this.startTime *)
  pathname : string;          (* window.location.pathname *)
  search_params : list (string * string);
                              (* the entries of URLSearchParams(location.search) *)
  has_start_button : bool;    (* querySelector('[onclick*="startQuiz"]') finds one *)
  has_result_screen : bool;   (* getElementById('resultScreen') finds one *)
  video_count : nat;          (* querySelectorAll('video').length *)
  load_env : Env;             (* what trackEvent reads in trackPageLoad *)
  utm_env : Env               (* what trackEvent reads in trackUTMParams *)
}.


(** The element [e.target.closest('a, button')] finds. *)
Record ClickTarget : Type := {
  href : option string;       (* a link's href; none on a button *)
  onclick : option string;    (* getAttribute('onclick') *)
  textContent : string
}.

(** What a scroll, or beforeunload, handler reads. *)
Record ScrollReading : Type := {
  scrollY : Number;
  innerHeight : Number;
  scrollHeight : Number;      (* document.body.scrollHeight *)
  scroll_clock : Z;
  scroll_env : Env
}.


(** More of the runtime to run the page on: a session store with room
    for everything, and parsed values that are ledger documents. *)
Definition sample_session_quota (value : string) : bool := false.


(** Page loads to run the constructor on: the dashboard and the quiz
    page, with nothing in the query, and the quiz page under a [gtag]
    that throws. *)
Definition sample_dashboard_load : PageLoad := {|
  session_clock := 1709967959042;
  session_random := "0.k3j9x2m1qabcdef";
  start_clock := 1709967959040;
  pathname := "/dashboard.html";
  search_params := [];
  has_start_button := false;
  has_result_screen := false;
  video_count := 0;
  load_env := sample_env;
  utm_env := sample_env
|}.


Definition broken_quiz_load : PageLoad := {|
  session_clock := 1709967959042;
  session_random := "0.k3j9x2m1qabcdef";
  start_clock := 1709967959040;
  pathname := "/index.html";
  search_params := [];
  has_start_button := true;
  has_result_screen := true;
  video_count := 0;
  load_env := broken_gtag_env;
  utm_env := broken_gtag_env
|}.


(** ** The methods of [FunnelAnalytics] *)

Section Analytics.

(** The runtime's functions that are taken as they come:
    [Number::toString] (reached by [toFixed] only from 10^21 upwards),
    [JSON.stringify] on a ledger document, [JSON.parse] (which returns a
    value of the runtime's type [J] or throws), and whether
    [localStorage.setItem] refuses a value for lack of room. *)
Variable Number_toString : Number -> string.
Variable JSON_stringify : Ledger -> string.
Variable J : Type.
Variable JSON_parse : string -> Completion J.
Variable quota_exceeded : string -> bool.

(** [x.toFixed(2)]: not-finite values print by name; a magnitude from
    10^21 upwards prints as [Number::toString] does; otherwise the
    integer [n] nearest to [100 * x] (the larger of two equally near)
    prints with a point before its last two digits, after the sign. *)
Definition toFixed2 (x : Number) : string :=
  match x with
  | S754_nan => "NaN"
  | S754_infinity s => if s then "-Infinity" else "Infinity"
  | S754_zero _ => hundredths 0
  | S754_finite s m e =>
      let '(num, den) := magnitude m e in
      if (num <? 10 ^ 21 * den)%Z then
        (if s then "-" else "") +:+
        hundredths (Z.to_N (nearest_integer (100 * num) den))
      else (if s then "-" else "") +:+ Number_toString (S754_finite false m e)
  end.

(** [((numerator / denominator) * 100).toFixed(2)] *)
Definition percentage (numerator denominator : N) : string :=
  toFixed2 (js_mul (js_div (Number_of_N numerator) (Number_of_N denominator))
                   (Number_of_N 100)).

(** One block of [calculateConversionRates]:
    [if (denominator > 0) conversionRates[key] = percentage]. *)
Definition set_rate (key : string) (numerator denominator : N) (d : Ledger) : Ledger :=
  if (0 <? denominator)%N then
    set_conversionRates (<[key := percentage numerator denominator]> (conversionRates d)) d
  else d.

Definition calculateConversionRates (d : Ledger) : Ledger :=
  let metrics := funnelMetrics d in
  let d := set_rate "quizStartRate"
             (FunnelMetrics.quiz_started metrics) (FunnelMetrics.quiz_loaded metrics) d in
  let d := set_rate "quizCompletionRate"
             (FunnelMetrics.quiz_completed metrics) (FunnelMetrics.quiz_started metrics) d in
  let d := set_rate "salesPageViewRate"
             (FunnelMetrics.sales_page_loaded metrics) (FunnelMetrics.quiz_completed metrics) d in
  let d := set_rate "scrollRate"
             (FunnelMetrics.sales_page_scrolled metrics) (FunnelMetrics.sales_page_loaded metrics) d in
  let d := set_rate "checkoutClickRate"
             (FunnelMetrics.checkout_clicked metrics) (FunnelMetrics.sales_page_scrolled metrics) d in
  set_rate "overallConversionRate"
    (FunnelMetrics.checkout_clicked metrics) (FunnelMetrics.quiz_loaded metrics) d.

(** The event object [trackEvent] builds. *)
Definition make_event (env : Env) (eventName : string) (data : json) : Event.t := {|
  Event.event := eventName;
  Event.sessionId := sessionId env;
  Event.timestamp := toISOString (now_event env);
  Event.page := page_name (currentPage env);
  Event.url := location_href env;
  Event.referrer := document_referrer env;
  Event.userAgent := navigator_userAgent env;
  Event.screenResolution := decimal (screen_width env) +:+ "x" +:+ decimal (screen_height env);
  Event.data := data
|}.

(** [this.data.events.push(event)] *)
Definition push_event (ev : Event.t) (d : Ledger) : Ledger :=
  set_events (events d ++ [ev]) d.

(** [if (funnelMetrics.hasOwnProperty(eventName)) funnelMetrics[eventName]++] *)
Definition count_stage (eventName : string) (d : Ledger) : Ledger :=
  match stage_of_name eventName with
  | Some st => set_funnelMetrics (bump st (funnelMetrics d)) d
  | None => d
  end.

(** [new Date().toISOString().split('T')[0]] *)
Definition today (env : Env) : string :=
  split_T_head (toISOString (now_today env)).

(** [if (!dailyStats[today]) dailyStats[today] = {sessions: 0, events: {}, conversions: {}}] *)
Definition ensure_day (day : string) (d : Ledger) : Ledger :=
  match Get (dailyStats d) day with
  | Undefined => set_dailyStats (<[day := DayBucket.mk 0 ∅ ∅]> (dailyStats d)) d
  | _ => d
  end.

(** A statement that works on [dailyStats[day].events]: when
    [dailyStats[day]] is no own property its [.events] is [undefined],
    and indexing that throws a TypeError. *)
Definition on_day_events (day : string)
    (f : gmap string Counter -> gmap string Counter) (d : Ledger) : Completion Ledger :=
  match Get (dailyStats d) day with
  | Own b =>
      Normal (set_dailyStats
                (<[day := DayBucket.mk (DayBucket.sessions b) (f (DayBucket.events b))
                                       (DayBucket.conversions b)]> (dailyStats d)) d)
  | _ => Throw TypeError
  end.

(** [if (!events[eventName]) events[eventName] = 0] *)
Definition init_counter (eventName : string) (ev : gmap string Counter) : gmap string Counter :=
  if falsy (Get ev eventName) then Put ev eventName (Count 0) else ev.

(** [events[eventName]++] *)
Definition incr_counter (eventName : string) (ev : gmap string Counter) : gmap string Counter :=
  Put ev eventName (incremented (Get ev eventName)).

(** A statement on the document that may throw before it writes. *)
Definition statement (f : Ledger -> Completion Ledger) : M unit :=
  fun w =>
    match f (current w) with
    | Normal d' => update_data (fun _ => d') w
    | Throw e => (Throw e, w)
    end.

(** The session object [updateSessionData] creates. *)
Definition new_session (env : Env) : Session.t := {|
  Session.id := sessionId env;
  Session.startTime := toISOString (now_start env);
  Session.events := [];
  Session.funnel := ∅;
  Session.lastActivity := None
|}.

(** The three writes on the session found or created. *)
Definition touch (env : Env) (ev : Event.t) (s : Session.t) : Session.t := {|
  Session.id := Session.id s;
  Session.startTime := Session.startTime s;
  Session.events := Session.events s ++ [Event.event ev];
  Session.funnel := Put (Session.funnel s) (Event.event ev) true;
  Session.lastActivity := Some (toISOString (now_activity env))
|}.

(** Mutate in place the first element that satisfies [p], the one
    [Array.prototype.find] returns. *)
Fixpoint mutate_first (p : Session.t -> bool) (f : Session.t -> Session.t)
    (l : list Session.t) : list Session.t :=
  match l with
  | [] => []
  | s :: r => if p s then f s :: r else s :: mutate_first p f r
  end.

(** [s => s.id === this.sessionId] *)
Definition mine (env : Env) (s : Session.t) : bool :=
  String.eqb (Session.id s) (sessionId env).

Definition updateSessionData (env : Env) (ev : Event.t) (d : Ledger) : Ledger :=
  let d :=
    match find (mine env) (sessions d) with
    | Some _ => d
    | None =>
        set_totalSessions (totalSessions d + 1)
          (set_sessions (sessions d ++ [new_session env]) d)
    end in
  set_sessions (mutate_first (mine env) (touch env ev) (sessions d)) d.

Definition setItem (value : string) : M unit :=
  fun w =>
    if quota_exceeded value then (Throw QuotaExceededError, w)
    else (Normal tt, mkWorld (heap w) (this_data w) (next_ref w) (Some value)).

(** [saveData]: a failed write is logged and dropped. *)
Definition saveData : M unit :=
  try_catch (d ← read_data; setItem (JSON_stringify d))
            (fun _ => mret tt).

(** [sendToExternalAnalytics]: each sink is called when defined, with
    nothing around the calls to catch what they throw. *)
Definition sendToExternalAnalytics (env : Env) (ev : Event.t) : M unit :=
  match gtag env with
  | Some g =>
      lift (g "event" (Event.event ev)
              (JObj [ ("event_category", JStr "Funnel");
                      ("event_label", JStr (page_name (currentPage env)));
                      ("value", Event.data ev) ]))
  | None => mret tt
  end;;
  match fbq env with
  | Some f => lift (f "trackCustom" (Event.event ev) (Event.data ev))
  | None => mret tt
  end.

Definition trackEvent (env : Env) (eventName : string) (data : json) : M unit :=
  let ev := make_event env eventName data in
  update_data (push_event ev);;
  update_data (count_stage eventName);;
  update_data (ensure_day (today env));;
  statement (on_day_events (today env) (init_counter eventName));;
  statement (on_day_events (today env) (incr_counter eventName));;
  update_data (updateSessionData env ev);;
  update_data calculateConversionRates;;
  saveData;;
  sendToExternalAnalytics env ev.

(** What [loadData] returns: the parsed stored value as it is, or a new
    default document. *)
Inductive Loaded : Type :=
  | Parsed (v : J)
  | Fresh (d : Ledger).

(** [if (stored)]: neither [null] nor the empty string. *)
Definition loadData : M Loaded :=
  stored ← getItem;
  match stored with
  | Some (String c r) =>
      try_catch (v ← lift (JSON_parse (String c r)); mret (Parsed v))
                (fun _ => mret (Fresh getDefaultData))
  | _ => mret (Fresh getDefaultData)
  end.

(** [getAnalytics]: [return this.data], the reference itself. *)
Definition getAnalytics : M nat :=
  fun w => (Normal (this_data w), w).

(** The question [resetAnalytics] puts to [confirm]. *)
Definition reset_prompt : string :=
  "Tem certeza que deseja resetar todas as métricas?".

(** [resetAnalytics], with the dialog [confirm] as the browser shows it. *)
Definition resetAnalytics (confirm : string -> bool) : M bool :=
  if confirm reset_prompt then
    removeItem;;
    assign_new_data getDefaultData;;
    saveData;;
    mret true
  else mret false.

(** ** Histories of one instance *)

(** An instance whose document is the default one, as the constructor
    leaves it when [loadData] falls back to [getDefaultData]; [slot] is
    what the store holds. *)
Definition start (slot : option string) : World :=
  mkWorld {[ 0 := getDefaultData ]} 0 1 slot.

(** The calls made on the instance. *)
Inductive Op : Type :=
  | Track (env : Env) (eventName : string) (data : json)
  | Reset (confirm : string -> bool).

(** The world a call leaves, however the call ends. *)
Definition exec (op : Op) (w : World) : World :=
  match op with
  | Track env eventName data => (trackEvent env eventName data w).2
  | Reset confirm => (resetAnalytics confirm w).2
  end.

Definition run (ops : list Op) (w : World) : World :=
  fold_left (fun w op => exec op w) ops w.

(** The session ids inserted since the last reset that went through. *)
Definition ids_seen (ops : list Op) : gset string :=
  fold_left
    (fun seen op =>
       match op with
       | Track env _ _ => {[ sessionId env ]} ∪ seen
       | Reset confirm => if confirm reset_prompt then ∅ else seen
       end) ops ∅.

(** The conversion rates as the table defines them, from nothing: one
    row per rate, its key present only when its denominator is not
    zero. *)
Definition rate_table : list (string * Stage * Stage) :=
  [ ("quizStartRate", QUIZ_STARTED, QUIZ_LOADED);
    ("quizCompletionRate", QUIZ_COMPLETED, QUIZ_STARTED);
    ("salesPageViewRate", SALES_PAGE_LOADED, QUIZ_COMPLETED);
    ("scrollRate", SALES_PAGE_SCROLLED, SALES_PAGE_LOADED);
    ("checkoutClickRate", CHECKOUT_CLICKED, SALES_PAGE_SCROLLED);
    ("overallConversionRate", CHECKOUT_CLICKED, QUIZ_LOADED) ].

Definition rate_row (m : FunnelMetrics.t) (row : string * Stage * Stage)
    : option (string * string) :=
  let '(key, numerator, denominator) := row in
  if (0 <? metric denominator m)%N
  then Some (key, percentage (metric numerator m) (metric denominator m))
  else None.

Definition rates_from_scratch (m : FunnelMetrics.t) : gmap string string :=
  list_to_map (omap (rate_row m) rate_table).

(** ** The page: session, page kind, listeners *)

(** More of the runtime taken as it comes: whether
    [sessionStorage.setItem] refuses a value, [String.prototype.trim]
    and [toLowerCase], and the ledger document a parsed value is, when
    it is one (the methods take [this.data] to be one). *)
Variable session_quota_exceeded : string -> bool.
Variable String_trim : string -> string.
Variable String_toLowerCase : string -> string.
Variable as_ledger : J -> option Ledger.

(** [getOrCreateSession]: the stored id when there is one that is not
    empty; otherwise a new one, stored before it is returned. *)
Definition getOrCreateSession (now : Z) (random36 : string) : P string :=
  fun t =>
    match sessionStorage t with
    | Some (String c r) => (Normal (String c r), t)
    | _ =>
        let session := generateSessionId now random36 in
        if session_quota_exceeded session then (Throw QuotaExceededError, t)
        else (Normal session, set_sessionStorage (Some session) t)
    end.

(** [trackPageLoad]: [trackEvent] is called with one argument, so
    [data] is the default, an empty object. *)
Definition trackPageLoad (this : Instance) (env : Env) : M unit :=
  match this_currentPage this with
  | quiz => trackEvent (bound this env) (stage_name QUIZ_LOADED) (JObj [])
  | sales => trackEvent (bound this env) (stage_name SALES_PAGE_LOADED) (JObj [])
  | _ => mret tt
  end.

(** [trackUTMParams]: [if (Object.keys(utmData).length > 0)] *)
Definition trackUTMParams (this : Instance) (params : list (string * string)) (env : Env)
    : M unit :=
  match utmData params with
  | [] => mret tt
  | entry :: entries => trackEvent (bound this env) "utm_parameters" (JObj (entry :: entries))
  end.

(** [Date.now() - this.startTime] *)
Definition elapsed (this : Instance) (now : Z) : Number :=
  js_sub (Number_of_Z now) (Number_of_Z (this_startTime this)).




(** [target.href || target.getAttribute('onclick') || ''] *)
Definition destination (target : ClickTarget) : string :=
  or_string (href target) (or_string (onclick target) "").

(** Whether a destination is taken to lead to the offer. *)
Definition leads_to_offer (href : string) : bool :=
  String_includes href "vendas" || String_includes href "sales" ||
  String_includes href "goToOffer" || String_includes href "checkout".

(** The document's click listener on the quiz page. *)
Definition on_quiz_click (this : Instance) (target : option ClickTarget) (env : Env)
    : M unit :=
  match target with
  | Some target =>
      let href := destination target in
      if leads_to_offer href
      then trackEvent (bound this env) "quiz_cta_clicked"
             (JObj [ ("buttonText", JStr (String_trim (textContent target)));
                     ("destination", JStr href) ])
      else mret tt
  | None => mret tt
  end.

(** [(window.scrollY + window.innerHeight) / document.body.scrollHeight * 100] *)
Definition scroll_percentage (r : ScrollReading) : Number :=
  js_mul (js_div (js_add (scrollY r) (innerHeight r)) (scrollHeight r)) (Number_of_N 100).

(** The window's scroll listener on the sales page. *)
Definition on_scroll (this : Instance) (r : ScrollReading) : P unit :=
  fun t =>
    let scrollPercentage := scroll_percentage r in
    let t := set_maxScroll (Math_max (maxScroll t) scrollPercentage) t in
    if negb (scrollTracked t) && js_gt scrollPercentage (Number_of_N 70) then
      in_world
        (trackEvent (bound this (scroll_env r)) (stage_name SALES_PAGE_SCROLLED)
           (JObj [ ("scrollDepth",
                    JStr (Number_toString (Math_round scrollPercentage) +:+ "%"));
                   ("timeToScroll", JNum (elapsed this (scroll_clock r))) ]))
        (set_scrollTracked true t)
    else (Normal tt, t).




(** A video's play listener. *)
Definition on_video_play (this : Instance) (duration currentTime : Number) (env : Env)
    : M unit :=
  trackEvent (bound this env) "video_played"
    (JObj [ ("duration", JNum duration); ("currentTime", JNum currentTime) ]).


(** [initQuizTracking]: a click listener on the start button if there
    is one, an observer on the result screen if there is one, a click
    listener on the document. *)
Definition initQuizTracking (pl : PageLoad) : P unit :=
  (if has_start_button pl then addEventListener start_click else mret tt);;
  (if has_result_screen pl then
     modify (set_observing true);;
     addEventListener result_mutations
   else mret tt);;
  addEventListener quiz_click.

(** [initSalesPageTracking]: [scrollTracked = false], [maxScroll = 0],
    then the scroll listener, the click listener and a play listener
    on each video. *)
Definition initSalesPageTracking (pl : PageLoad) : P unit :=
  modify (set_scrollTracked false);;
  modify (set_maxScroll (Number_of_N 0));;
  addEventListener window_scroll;;
  addEventListener sales_click;;
  foldr (fun video rest => addEventListener (video_play video);; rest) (mret tt)
        (seq 0 (video_count pl)).

Definition trackTimeOnPage : P unit := addEventListener before_unload.

(** [init]: the [switch] has no case for the unknown page. *)
Definition init (this : Instance) (pl : PageLoad) : P unit :=
  in_world (trackPageLoad this (load_env pl));;
  match this_currentPage this with
  | quiz => initQuizTracking pl
  | sales => initSalesPageTracking pl
  | dashboard => mret tt
  | unknown => mret tt
  end;;
  trackTimeOnPage;;
  in_world (trackUTMParams this (search_params pl) (utm_env pl)).



(** ** Summaries and invariants used in the proofs *)

(** The value [m * 2^e]. *)
Definition Qval (m e : Z) : Q := (inject_Z m * 2 ^ e)%Q.

(** [x] is [y] up to the relative error [c]. *)
Definition close (c x y : Q) : Prop := ((1 - c) * y <= x <= (1 + c) * y)%Q.

(** A count as a rational. *)
Definition NQ (n : N) : Q := inject_Z (Z.of_N n).

(** A string that begins with a digit or a sign. *)
Definition starts_numeric (s : string) : bool :=
  match s with
  | String c _ => is_digit c || Ascii.eqb c "+" || Ascii.eqb c "-"
  | "" => false
  end.

(** The world with the document under [this.data] replaced by [d]. *)
Definition set_current (d : Ledger) (w : World) : World :=
  write_at (this_data w) (fun _ => d) w.

(** The bucket [dailyStats[day]] holds, a new one when there is none. *)
Definition bucket_at (day : string) (d : Ledger) : DayBucket.t :=
  default (DayBucket.mk 0 ∅ ∅) (dailyStats d !! day).

(** The three day-bucket statements of [trackEvent], when none throws. *)
Definition count_day (day eventName : string) (d : Ledger) : Ledger :=
  let b := bucket_at day d in
  set_dailyStats
    (<[day := DayBucket.mk (DayBucket.sessions b)
                (incr_counter eventName (init_counter eventName (DayBucket.events b)))
                (DayBucket.conversions b)]> (dailyStats d)) d.

(** The document after the statements of [trackEvent] up to and
    including [calculateConversionRates]. *)
Definition recorded (env : Env) (eventName : string) (data : json) (d : Ledger) : Ledger :=
  let ev := make_event env eventName data in
  calculateConversionRates
    (updateSessionData env ev
       (count_day (today env) eventName (count_stage eventName (push_event ev d)))).

(** The world [saveData] leaves. *)
Definition persisted (w : World) : World :=
  if quota_exceeded (JSON_stringify (current w)) then w
  else mkWorld (heap w) (this_data w) (next_ref w) (Some (JSON_stringify (current w))).

(** How [sendToExternalAnalytics] ends. *)
Definition forwarded (env : Env) (ev : Event.t) : Completion unit :=
  let to_fbq :=
    match fbq env with
    | Some f => f "trackCustom" (Event.event ev) (Event.data ev)
    | None => Normal tt
    end in
  match gtag env with
  | Some g =>
      match g "event" (Event.event ev)
              (JObj [ ("event_category", JStr "Funnel");
                      ("event_label", JStr (page_name (currentPage env)));
                      ("value", Event.data ev) ]) with
      | Normal _ => to_fbq
      | Throw e => Throw e
      end
  | None => to_fbq
  end.

(** The number spelled by the digits of [s], read after [v]; other
    characters (the point) are passed over. *)
Fixpoint digits_value (v : N) (s : string) : N :=
  match s with
  | "" => v
  | String c r =>
      digits_value (if is_digit c then 10 * v + (N_of_ascii c - 48) else v)%N r
  end.

(** Whether [s] is made of decimal digits only. *)
Fixpoint all_digits (s : string) : bool :=
  match s with
  | "" => true
  | String c r => is_digit c && all_digits r
  end.

(** The world after [localStorage.removeItem] and
    [this.data = this.getDefaultData()]. *)
Definition cleared (w : World) : World :=
  mkWorld (<[next_ref w := getDefaultData]> (heap w)) (next_ref w) (S (next_ref w)) None.

(** Equality of stages is decidable. *)
#[local] Instance Stage_eq_dec : EqDecision Stage.
Proof. solve_decision. Defined.

(** [conversionRates] is what the table gives for the metrics as they
    stand. *)
Definition rates_current (d : Ledger) : Prop :=
  conversionRates d = rates_from_scratch (funnelMetrics d).

(** The count a name has in a bucket's counters: 0 when it has none or
    holds NaN. *)
Definition count_of (name : string) (ev : gmap string Counter) : N :=
  match ev !! name with
  | Some (Count n) => n
  | _ => 0
  end.

(** The ids of the entries of [sessions], in order. *)
Definition session_ids (d : Ledger) : list string :=
  map Session.id (sessions d).

(** [totalSessions] counts the entries of [sessions], whose ids are
    pairwise distinct and make up the set [seen]. *)
Definition sessions_counted (seen : gset string) (d : Ledger) : Prop :=
  totalSessions d = N.of_nat (length (sessions d)) /\
  NoDup (session_ids d) /\
  list_to_set (session_ids d) = seen.

(** Every day bucket has [sessions] at 0 and no [conversions]. *)
Definition days_plain (d : Ledger) : Prop :=
  forall day b, dailyStats d !! day = Some b ->
    DayBucket.sessions b = 0%N /\ DayBucket.conversions b = ∅.

(** ** Summaries of histories, sessions and pages *)

(** The calls of [trackEvent] made since the last reset that went
    through, oldest first. *)
Definition tracked (ops : list Op) : list (Env * string * json) :=
  fold_left
    (fun calls op =>
       match op with
       | Track env eventName data => calls ++ [(env, eventName, data)]
       | Reset confirm => if confirm reset_prompt then [] else calls
       end) ops [].

(** The event object a call builds. *)
Definition event_of (call : Env * string * json) : Event.t :=
  make_event call.1.1 call.1.2 call.2.

(** [ev.event === name] *)
Definition named (name : string) (ev : Event.t) : bool :=
  String.eqb (Event.event ev) name.

(** [ev.sessionId === sid] *)
Definition of_session (sid : string) (ev : Event.t) : bool :=
  String.eqb (Event.sessionId ev) sid.

(** Whether a call counts [name] under [day]. *)
Definition counts_on (day name : string) (call : Env * string * json) : bool :=
  String.eqb (today call.1.1) day && String.eqb call.1.2 name.

(** How many of the calls count [name] under [day]. *)
Definition calls_on (day name : string) (calls : list (Env * string * json)) : nat :=
  length (List.filter (counts_on day name) calls).

(** [dailyStats[day].events[name]] as an own property of an own bucket. *)
Definition day_counter (day name : string) (d : Ledger) : option Counter :=
  match dailyStats d !! day with
  | Some b => DayBucket.events b !! name
  | None => None
  end.

(** [this.data] was set before the next reference to be handed out. *)
Definition allocated (w : World) : Prop := this_data w < next_ref w.

(** What holds of every entry of [sessions]. *)
Definition session_consistent (d : Ledger) (s : Session.t) : Prop :=
  Session.events s = map Event.event (List.filter (of_session (Session.id s)) (events d)) /\
  (forall k, Session.funnel s !! k
             = if decide (k ∈ Session.events s /\ k <> "__proto__") then Some true else None) /\
  Session.events s <> [] /\
  exists t, Session.lastActivity s = Some t.

(** What [dailyStats[day].events[name]] holds after [k] calls have
    counted [name] under [day]. *)
Definition counter_after (name : string) (k : nat) : option Counter :=
  if String.eqb name "__proto__" then None
  else if on_Object_prototype name then
    match k with
    | 0 => None
    | 1 => Some NaN
    | S k' => Some (Count (N.of_nat k'))
    end
  else
    match k with
    | 0 => None
    | _ => Some (Count (N.of_nat k))
    end.

(** Every event of the log belongs to an entry of [sessions]. *)
Definition log_has_sessions (d : Ledger) : Prop :=
  forall ev, ev ∈ events d -> Event.sessionId ev ∈ session_ids d.


(** The tab after the listener has run, however it ended. *)
Definition after_scroll (this : Instance) (t : Tab) (r : ScrollReading) : Tab :=
  (on_scroll this r t).2.


(** The document behind a tab. *)
Definition ledger (t : Tab) : Ledger := current (world t).

(** The listeners [init] registers on a page. *)
Definition registered (pl : PageLoad) (page : Page) : list Listener :=
  match page with
  | quiz =>
      (if has_start_button pl then [start_click] else []) ++
      (if has_result_screen pl then [result_mutations] else []) ++ [quiz_click]
  | sales => [window_scroll; sales_click] ++ map video_play (seq 0 (video_count pl))
  | _ => []
  end ++ [before_unload].

(** The closed-over variables as [init] leaves them on a page. *)
Definition page_flags (pl : PageLoad) (page : Page) (t : Tab) : Tab :=
  match page with
  | quiz => if has_result_screen pl then set_observing true t else t
  | sales => set_maxScroll (Number_of_N 0) (set_scrollTracked false t)
  | _ => t
  end.






(** * Proofs *)

(** ** The runtime model: digits, dates, property lookup *)

Example toISOString_ex :
  let t := {| year := 2024; month := 3; day := 9; hours := 7; minutes := 5;
              seconds := 59; milliseconds := 42 |} in
  toISOString t = "2024-03-09T07:05:59.042Z" /\
  split_T_head (toISOString t) = "2024-03-09".
Proof. split; vm_compute; reflexivity. Qed.

Lemma digit_char_code (n : N) : N_of_ascii (digit_char n) = (48 + n mod 10)%N.
Proof.
  unfold digit_char. apply N_ascii_embedding.
  pose proof (N.mod_upper_bound n 10 ltac:(discriminate)). lia.
Qed.

Lemma is_digit_digit_char (n : N) : is_digit (digit_char n) = true.
Proof.
  unfold is_digit. rewrite digit_char_code.
  pose proof (N.mod_upper_bound n 10 ltac:(discriminate)) as H.
  revert H. generalize (n mod 10)%N. intros k H.
  apply andb_true_intro; split; apply N.leb_le; lia.
Qed.

Lemma is_digit_neq (c c' : ascii) :
  is_digit c = true -> is_digit c' = false -> Ascii.eqb c c' = false.
Proof.
  intros Hc Hc'. apply Ascii.eqb_neq. intros ->. congruence.
Qed.

Lemma starts_numeric_not_inherited (s : string) :
  starts_numeric s = true -> on_Object_prototype s = false.
Proof.
  destruct s as [|c r]; [discriminate|]. cbn [starts_numeric]. intros H.
  assert (Hc : forall c', (is_digit c' || Ascii.eqb c' "+" || Ascii.eqb c' "-") = false ->
                          Ascii.eqb c c' = false).
  { intros c' Hc'. apply Ascii.eqb_neq. intros ->. congruence. }
  unfold on_Object_prototype, Object_prototype_keys.
  cbn [existsb String.eqb].
  rewrite !Hc by reflexivity. reflexivity.
Qed.

Lemma year_string_numeric (y : Z) (rest : string) :
  exists c r, year_string y +:+ rest = String c r /\
              (is_digit c || Ascii.eqb c "+" || Ascii.eqb c "-") = true /\
              Ascii.eqb c "T" = false.
Proof.
  unfold year_string. destruct ((0 <=? y)%Z && (y <=? 9999)%Z).
  - cbn [padded String.append]. eexists _, _. split; [reflexivity|].
    rewrite is_digit_digit_char. split; [reflexivity|].
    apply is_digit_neq; [apply is_digit_digit_char | reflexivity].
  - cbn [String.append]. eexists _, _. split; [reflexivity|].
    destruct (y <? 0)%Z; split; reflexivity.
Qed.

Lemma toISOString_starts_numeric (t : Instant) :
  starts_numeric (split_T_head (toISOString t)) = true.
Proof.
  unfold toISOString.
  destruct (year_string_numeric (year t)
              ("-" +:+ padded 2 (month t) "" +:+ "-" +:+ padded 2 (day t) "" +:+ "T" +:+
               padded 2 (hours t) "" +:+ ":" +:+ padded 2 (minutes t) "" +:+ ":" +:+
               padded 2 (seconds t) "" +:+ "." +:+ padded 3 (milliseconds t) "" +:+ "Z"))
    as (c & r & -> & Hc & HT).
  cbn [split_T_head]. rewrite HT. cbn [starts_numeric]. exact Hc.
Qed.

(** ** What one call of [trackEvent] does to the world *)

Lemma current_set_current (d : Ledger) (w : World) : current (set_current d w) = d.
Proof. unfold current, deref, set_current, write_at. cbn. by rewrite lookup_insert_eq. Qed.

Lemma set_current_twice (d d' : Ledger) (w : World) :
  set_current d' (set_current d w) = set_current d' w.
Proof. unfold set_current, write_at. cbn. by rewrite insert_insert_eq. Qed.

Lemma bind_update_data {A} (f : Ledger -> Ledger) (k : M A) (w : World) :
  (update_data f;; k) w = k (set_current (f (current w)) w).
Proof. reflexivity. Qed.

Lemma bind_statement {A} (f : Ledger -> Completion Ledger) (k : M A) (w : World) (d' : Ledger) :
  f (current w) = Normal d' ->
  (statement f;; k) w = k (set_current d' w).
Proof.
  intros H. unfold mbind, M_bind, bind, statement. rewrite H. reflexivity.
Qed.

Lemma saveData_run (w : World) : saveData w = (Normal tt, persisted w).
Proof.
  unfold saveData, try_catch, persisted, mbind, M_bind, bind, read_data, setItem. cbn.
  destruct (quota_exceeded (JSON_stringify (current w))); reflexivity.
Qed.

Lemma sendToExternalAnalytics_run (env : Env) (ev : Event.t) (w : World) :
  sendToExternalAnalytics env ev w = (forwarded env ev, w).
Proof.
  unfold sendToExternalAnalytics, forwarded, mbind, M_bind, bind, lift, mret, M_ret, ret.
  destruct (gtag env) as [g|]; destruct (fbq env) as [f|]; cbn;
    repeat match goal with |- context [match ?c with Normal _ => _ | Throw _ => _ end] =>
             destruct c as [[]|] end; reflexivity.
Qed.

Lemma Get_today (env : Env) {V} (o : gmap string V) :
  Get o (today env) = match o !! today env with Some v => Own v | None => Undefined end.
Proof.
  unfold Get, today.
  by rewrite (starts_numeric_not_inherited _ (toISOString_starts_numeric _)).
Qed.

Lemma day_statements (env : Env) (eventName : string) (d : Ledger) :
  exists d1,
    on_day_events (today env) (init_counter eventName) (ensure_day (today env) d) = Normal d1 /\
    on_day_events (today env) (incr_counter eventName) d1
      = Normal (count_day (today env) eventName d).
Proof.
  unfold ensure_day, count_day, bucket_at. rewrite Get_today.
  destruct (dailyStats d !! today env) as [b|] eqn:Hb; cbn [default].
  - unfold on_day_events at 1. rewrite Get_today, Hb.
    eexists; split; [reflexivity|].
    unfold on_day_events. rewrite Get_today. cbn. rewrite lookup_insert_eq. cbn.
    by rewrite insert_insert_eq.
  - unfold on_day_events at 1. rewrite Get_today. cbn. rewrite lookup_insert_eq.
    eexists; split; [reflexivity|].
    unfold on_day_events. rewrite Get_today. cbn. rewrite lookup_insert_eq. cbn.
    by rewrite !insert_insert_eq.
Qed.

(** One call of [trackEvent]: the document becomes [recorded], the
    world is saved, and the call ends as the forwarding does. *)
Lemma trackEvent_run (env : Env) (eventName : string) (data : json) (w : World) :
  trackEvent env eventName data w
  = (forwarded env (make_event env eventName data),
     persisted (set_current (recorded env eventName data (current w)) w)).
Proof.
  unfold trackEvent.
  destruct (day_statements env eventName
              (count_stage eventName (push_event (make_event env eventName data) (current w))))
    as (d1 & H1 & H2).
  rewrite !bind_update_data, !current_set_current, !set_current_twice.
  rewrite (bind_statement _ _ _ d1) by (by rewrite current_set_current).
  rewrite set_current_twice.
  rewrite (bind_statement _ _ _ _ ltac:(rewrite current_set_current; exact H2)).
  rewrite set_current_twice, !bind_update_data, !current_set_current, !set_current_twice.
  change (?m;; ?k) with (bind m (fun _ => k)). unfold bind.
  rewrite saveData_run, sendToExternalAnalytics_run. reflexivity.
Qed.

(** ** Printing with two decimals *)

Lemma decimal_aux_digits (fuel : nat) (n : N) (acc : string) :
  all_digits acc = true ->
  exists c r, decimal_aux fuel n acc = String c r /\ all_digits (String c r) = true.
Proof.
  revert n acc. induction fuel as [|fuel IH]; intros n acc Hacc; cbn [decimal_aux].
  - eexists _, _. split; [reflexivity|]. cbn. by rewrite is_digit_digit_char.
  - destruct (n <? 10)%N.
    + eexists _, _. split; [reflexivity|]. cbn. by rewrite is_digit_digit_char.
    + apply IH. cbn. by rewrite is_digit_digit_char.
Qed.

Lemma append_empty_l (s : string) : "" +:+ s = s.
Proof. reflexivity. Qed.

Lemma append_String_l (c : ascii) (r s : string) : String c r +:+ s = String c (r +:+ s).
Proof. reflexivity. Qed.

Lemma digits_then_point_two_intro (s : string) (d1 d2 : ascii) (seen : bool) :
  all_digits s = true -> is_digit d1 = true -> is_digit d2 = true ->
  (seen || negb (String.eqb s "")) = true ->
  digits_then_point_two seen (s +:+ String "." (String d1 (String d2 ""))) = true.
Proof.
  intros Hs H1 H2. revert seen. induction s as [|c r IH]; intros seen Hseen.
  - destruct seen; [|discriminate].
    rewrite append_empty_l. cbn [digits_then_point_two].
    change (Ascii.eqb "." ".") with true. cbn [andb]. by rewrite H1, H2.
  - cbn in Hs. apply andb_prop in Hs as [Hc Hr].
    rewrite append_String_l. cbn [digits_then_point_two].
    rewrite (is_digit_neq c "." Hc eq_refl), Hc. cbn [andb]. by apply IH.
Qed.

Lemma hundredths_two_decimals (n : N) (negative : bool) :
  two_decimals ((if negative then "-" else "") +:+ hundredths n) = true.
Proof.
  unfold hundredths.
  destruct (decimal_aux_digits (N.to_nat (N.size (n / 100))) (n / 100) "" eq_refl)
    as (c & r & Hd & Hcr).
  assert (Hbody : digits_then_point_two false
                    (decimal (n / 100) +:+ "." +:+ padded 2 (n mod 100) "") = true).
  { cbn [padded]. apply digits_then_point_two_intro;
      [unfold decimal; by rewrite Hd | apply is_digit_digit_char..|].
    unfold decimal. by rewrite Hd. }
  destruct negative.
  - exact Hbody.
  - rewrite append_empty_l. unfold decimal in *. rewrite Hd in *.
    rewrite append_String_l. cbn [two_decimals]. rewrite <- append_String_l.
    cbn in Hcr. apply andb_prop in Hcr as [Hc _].
    by rewrite (is_digit_neq c "-" Hc eq_refl).
Qed.

Lemma digits_value_app (v : N) (s1 s2 : string) :
  digits_value v (s1 +:+ s2) = digits_value (digits_value v s1) s2.
Proof. revert v. induction s1 as [|c r IH]; intros v; [done|]. cbn. apply IH. Qed.

Lemma digits_value_digit (v n : N) (r : string) :
  digits_value v (String (digit_char n) r) = digits_value (10 * v + n mod 10)%N r.
Proof.
  cbn [digits_value]. rewrite is_digit_digit_char, digit_char_code. f_equal.
  generalize (n mod 10)%N. intros k. lia.
Qed.

Lemma digits_value_skip (v : N) (c : ascii) (r : string) :
  is_digit c = false -> digits_value v (String c r) = digits_value v r.
Proof. intros Hc. cbn [digits_value]. by rewrite Hc. Qed.

(** With enough fuel the digits printed spell the number. *)
Lemma decimal_aux_value (fuel : nat) (n : N) (acc : string) :
  (n < 10 ^ (N.of_nat fuel + 1))%N ->
  digits_value 0 (decimal_aux fuel n acc) = digits_value n acc.
Proof.
  revert n acc. induction fuel as [|fuel IH]; intros n acc Hn; cbn [decimal_aux].
  - rewrite digits_value_digit. f_equal. change (10 ^ (N.of_nat 0 + 1))%N with 10%N in Hn.
    rewrite N.mod_small by done. lia.
  - destruct (N.ltb_spec n 10) as [Hsmall|Hbig].
    + rewrite digits_value_digit. f_equal. rewrite N.mod_small by done. lia.
    + rewrite IH, digits_value_digit.
      * f_equal. pose proof (N.div_mod n 10 ltac:(discriminate)). lia.
      * apply N.Div0.div_lt_upper_bound.
        replace (N.of_nat (S fuel) + 1)%N with (N.succ (N.of_nat fuel + 1)) in Hn by lia.
        by rewrite N.pow_succ_r' in Hn.
Qed.

Lemma decimal_value (n : N) : digits_value 0 (decimal n) = n.
Proof.
  unfold decimal. rewrite decimal_aux_value; [done|].
  rewrite N2Nat.id.
  destruct (N.eq_dec n 0%N) as [->|Hn]; [done|].
  apply N.lt_le_trans with (2 ^ N.size n)%N; [apply N.size_gt|].
  apply N.le_trans with (10 ^ N.size n)%N; [apply N.pow_le_mono_l; lia|].
  apply N.pow_le_mono_r; lia.
Qed.

(** The string printed for [n] hundredths spells [n]. *)
Lemma hundredths_value (n : N) : digits_value 0 (hundredths n) = n.
Proof.
  unfold hundredths. rewrite digits_value_app, decimal_value.
  cbn [padded]. rewrite append_String_l, append_empty_l.
  rewrite (digits_value_skip _ ".") by reflexivity.
  rewrite !digits_value_digit. cbn [digits_value].
  pose proof (N.div_mod n 100 ltac:(discriminate)) as Hn.
  pose proof (N.mod_upper_bound n 100 ltac:(discriminate)) as Hr.
  revert Hn Hr. generalize (n mod 100)%N (n / 100)%N. intros r q Hn Hr.
  pose proof (N.div_mod r 10 ltac:(discriminate)) as Hr10.
  assert (Hsmall : (r / 10 < 10)%N) by (apply N.Div0.div_lt_upper_bound; lia).
  rewrite (N.mod_small (r / 10) 10) by done. lia.
Qed.

Lemma toFixed2_two_decimals (x : Number) :
  fixed_notation x = true -> two_decimals (toFixed2 x) = true.
Proof.
  destruct x as [s|s| |s m e]; cbn [fixed_notation toFixed2]; try discriminate.
  - intros _. apply (hundredths_two_decimals 0 false).
  - destruct (magnitude m e) as [num den]. intros ->.
    apply hundredths_two_decimals.
Qed.

(** ** Binary64 arithmetic on counts below 2^53

    What [js_div] and [js_mul] compute on the Numbers of two counts,
    read off the definitions of [SFdiv] and [SFmul]: mantissas of 53
    bits, each rounding within one unit of the bits it drops. *)

Local Open Scope Z_scope.

Lemma digits2_pos_size (p : positive) : digits2_pos p = Pos.size p.
Proof. induction p as [p IH|p IH|]; cbn; by rewrite ?IH. Qed.

Lemma digits2_pos_bounds (p : positive) :
  2 ^ (Z.pos (digits2_pos p) - 1) <= Z.pos p < 2 ^ Z.pos (digits2_pos p).
Proof.
  rewrite digits2_pos_size. split.
  - pose proof (Pos.size_le p) as H.
    apply Pos2Z.pos_le_pos in H. rewrite Pos2Z.inj_pow in H.
    replace (Z.pos (Pos.size p)) with (Z.succ (Z.pos (Pos.size p) - 1)) in H by lia.
    rewrite Z.pow_succ_r in H by lia. lia.
  - pose proof (Pos.size_gt p) as H.
    apply Pos2Z.pos_lt_pos in H. by rewrite Pos2Z.inj_pow in H.
Qed.

Lemma digits2_pos_unique (p : positive) (d : Z) :
  2 ^ (d - 1) <= Z.pos p < 2 ^ d -> Z.pos (digits2_pos p) = d.
Proof.
  intros [Hlo Hhi]. pose proof (digits2_pos_bounds p) as [Hlo' Hhi'].
  assert (0 < d).
  { destruct (Z.lt_trichotomy d 0) as [?|[->|?]]; [|cbn in Hhi; lia|done].
    rewrite Z.pow_neg_r in Hhi by done. lia. }
  destruct (Z.lt_trichotomy (Z.pos (digits2_pos p)) d) as [Hlt|[?|Hgt]]; [|done|].
  - assert (2 ^ Z.pos (digits2_pos p) <= 2 ^ (d - 1)) by (apply Z.pow_le_mono_r; lia). lia.
  - assert (2 ^ d <= 2 ^ (Z.pos (digits2_pos p) - 1)) by (apply Z.pow_le_mono_r; lia). lia.
Qed.

Lemma shr_1_m (mrs : shr_record) :
  0 <= shr_m mrs -> shr_m (shr_1 mrs) = shr_m mrs / 2.
Proof.
  destruct mrs as [m r s]. cbn [shr_m]. intros Hm.
  destruct m as [|[p|p|]|p]; cbn [shr_1 shr_m]; try lia; try reflexivity.
  - rewrite Pos2Z.inj_xI. apply Z.div_unique with 1; lia.
  - rewrite Pos2Z.inj_xO. apply Z.div_unique with 0; lia.
Qed.

Lemma iter_shr_1_m (p : positive) (mrs : shr_record) :
  0 <= shr_m mrs -> shr_m (SpecFloat.iter_pos shr_1 p mrs) = shr_m mrs / 2 ^ Z.pos p.
Proof.
  revert mrs. induction p as [p IH|p IH|]; intros mrs Hm; cbn [SpecFloat.iter_pos].
  - assert (H1 : 0 <= shr_m (shr_1 mrs)).
    { rewrite shr_1_m by done. apply Z.div_pos; lia. }
    assert (H2 : 0 <= shr_m (SpecFloat.iter_pos shr_1 p (shr_1 mrs))).
    { rewrite IH by done. apply Z.div_pos; lia. }
    rewrite IH, IH, shr_1_m by done.
    rewrite !Z.div_div by lia. f_equal.
    replace (Z.pos p~1) with (1 + Z.pos p + Z.pos p) by lia.
    rewrite !Z.pow_add_r by lia. lia.
  - assert (H2 : 0 <= shr_m (SpecFloat.iter_pos shr_1 p mrs)).
    { rewrite IH by done. apply Z.div_pos; lia. }
    rewrite IH, IH by done. rewrite !Z.div_div by lia. f_equal.
    replace (Z.pos p~0) with (Z.pos p + Z.pos p) by lia.
    rewrite !Z.pow_add_r by lia. lia.
  - rewrite shr_1_m by done. reflexivity.
Qed.

Lemma Zdigits2_unique (m d : Z) :
  0 < m -> 2 ^ (d - 1) <= m < 2 ^ d -> Zdigits2 m = d.
Proof.
  intros Hm Hd. destruct m as [|p|p]; try lia. cbn [Zdigits2].
  by apply digits2_pos_unique.
Qed.

Lemma fexp_normal (e : Z) : -1074 <= e - 53 -> fexp prec emax e = e - 53.
Proof. intros H. unfold fexp, emin, prec, emax. lia. Qed.

(** The first step of rounding on a mantissa of [d >= 53] bits in the
    normal range: the mantissa loses its low [d - 53] bits. *)
Lemma shr_fexp_normal (m e d : Z) (l : location) :
  0 < m -> 2 ^ (d - 1) <= m < 2 ^ d -> 53 <= d -> -1074 <= d + e - 53 ->
  exists mrs, shr_fexp prec emax m e l = (mrs, e + (d - 53)) /\
              shr_m mrs = m / 2 ^ (d - 53) /\
              (d = 53 -> mrs = shr_record_of_loc m l).
Proof.
  intros Hm Hd Hprec Hmin. unfold shr_fexp.
  rewrite (Zdigits2_unique m d Hm Hd), fexp_normal by lia.
  replace (d + e - 53 - e) with (d - 53) by lia.
  assert (Hrec : shr_m (shr_record_of_loc m l) = m) by (by destruct l as [|[]]).
  destruct (d - 53) as [|k|k] eqn:Hk; try lia; cbn [shr].
  - eexists. split; [by rewrite Z.add_0_r|]. split; [|done].
    by rewrite Hrec, Z.div_1_r.
  - eexists. split; [reflexivity|]. split; [|lia].
    rewrite iter_shr_1_m by lia. by rewrite Hrec.
Qed.

Lemma round_nearest_even_cases (m : Z) (l : location) :
  round_nearest_even m l = m \/ round_nearest_even m l = m + 1.
Proof. destruct l as [|[]]; cbn; try destruct (Z.even m); auto. Qed.

(** Rounding a mantissa [mx] of [d >= 53] bits, in the normal range,
    gives a finite number with a mantissa of 53 bits, within one unit
    of the lost bits of [mx]. *)
Lemma binary_round_aux_normal (s : bool) (mx ex d : Z) (lx : location) :
  2 ^ (d - 1) <= mx < 2 ^ d -> 53 <= d -> -1074 <= d + ex - 53 -> d + ex - 53 < 971 ->
  exists m e,
    binary_round_aux prec emax s mx ex lx = S754_finite s m e /\
    2 ^ 52 <= Z.pos m < 2 ^ 53 /\
    ex + (d - 53) <= e <= ex + (d - 53) + 1 /\
    mx - 2 ^ (d - 53) < Z.pos m * 2 ^ (e - ex) <= mx + 2 ^ (d - 53).
Proof.
  intros Hd Hprec Hmin Hmax.
  assert (Hpos : 0 < mx).
  { assert (0 < 2 ^ (d - 1)) by (apply Z.pow_pos_nonneg; lia). lia. }
  unfold binary_round_aux.
  destruct (shr_fexp_normal mx ex d lx Hpos Hd Hprec Hmin) as (mrs1 & -> & Hm1 & _).
  set (k := d - 53) in *. set (P := 2 ^ k) in *.
  assert (HP : 0 < P) by (apply Z.pow_pos_nonneg; lia).
  assert (Hsplit : 2 ^ d = 2 ^ 53 * P /\ 2 ^ (d - 1) = 2 ^ 52 * P).
  { unfold P. rewrite <- !Z.pow_add_r by lia. split; f_equal; lia. }
  destruct Hsplit as [Hd1 Hd2].
  pose proof (Z.div_mod mx P ltac:(lia)) as Hdiv.
  pose proof (Z.mod_pos_bound mx P HP) as Hmod.
  rewrite <- Hm1 in Hdiv.
  set (m1 := shr_m mrs1) in *.
  assert (Hm1b : 2 ^ 52 <= m1 < 2 ^ 53) by nia.
  set (mr := round_nearest_even m1 (loc_of_shr_record mrs1)).
  assert (Hmr : mr = m1 \/ mr = m1 + 1) by apply round_nearest_even_cases.
  clearbody mr.
  destruct (Z.lt_ge_cases mr (2 ^ 53)) as [Hsmall|Hbig].
  - destruct (shr_fexp_normal mr (ex + k) 53 loc_Exact) as (mrs2 & -> & Hm2 & _);
      [lia| change (2 ^ (53 - 1)) with (2 ^ 52); lia | lia | lia |].
    change (2 ^ (53 - 53)) with 1 in Hm2. rewrite Z.div_1_r in Hm2. rewrite Hm2.
    destruct mr as [|p|p] eqn:Hp; try lia.
    replace (ex + k + (53 - 53)) with (ex + k) by lia.
    destruct (Z.leb_spec (ex + k) (emax - prec)) as [_|Hbad];
      [|unfold emax, prec in Hbad; lia].
    exists p, (ex + k). split; [done|]. split; [lia|]. split; [lia|].
    replace (ex + k - ex) with k by lia. fold P. nia.
  - assert (Hmr53 : mr = 2 ^ 53) by lia.
    destruct (shr_fexp_normal mr (ex + k) 54 loc_Exact) as (mrs2 & -> & Hm2 & _);
      [lia| rewrite Hmr53; change (2 ^ (54 - 1)) with (2 ^ 53); split; [lia|reflexivity]
       | lia | lia |].
    rewrite Hmr53 in Hm2. change (2 ^ 53 / 2 ^ (54 - 53)) with (2 ^ 52) in Hm2.
    rewrite Hm2. change (2 ^ 52) with (Z.pos (2 ^ 52)%positive) at 1.
    cbv iota.
    replace (ex + k + (54 - 53)) with (ex + k + 1) by lia.
    destruct (Z.leb_spec (ex + k + 1) (emax - prec)) as [_|Hbad];
      [|unfold emax, prec in Hbad; lia].
    eexists _, (ex + k + 1). split; [reflexivity|]. split; [done|]. split; [lia|].
    replace (ex + k + 1 - ex) with (k + 1) by lia.
    rewrite Z.pow_add_r by lia. fold P. change (2 ^ 1) with 2.
    change (Z.pos (2 ^ 52)) with (2 ^ 52). nia.
Qed.

(** A mantissa of exactly 53 bits with nothing lost is kept as it is. *)
Lemma binary_round_aux_exact (s : bool) (p : positive) (ex : Z) :
  2 ^ 52 <= Z.pos p < 2 ^ 53 -> -1074 <= ex -> ex <= 971 ->
  binary_round_aux prec emax s (Z.pos p) ex loc_Exact = S754_finite s p ex.
Proof.
  intros Hp Hmin Hmax. unfold binary_round_aux.
  destruct (shr_fexp_normal (Z.pos p) ex 53 loc_Exact) as (mrs1 & -> & _ & Hrec);
    [lia | exact Hp | lia | lia |].
  rewrite (Hrec eq_refl). cbn [shr_record_of_loc shr_m loc_of_shr_record round_nearest_even].
  replace (ex + (53 - 53)) with ex by lia.
  destruct (shr_fexp_normal (Z.pos p) ex 53 loc_Exact) as (mrs2 & -> & _ & Hrec2);
    [lia | exact Hp | lia | lia |].
  rewrite (Hrec2 eq_refl). cbn [shr_record_of_loc shr_m].
  replace (ex + (53 - 53)) with ex by lia.
  destruct (Z.leb_spec ex (emax - prec)) as [_|Hbad]; [done|].
  unfold emax, prec in Hbad. lia.
Qed.

Lemma Pos_iter_xO (p n : positive) : Z.pos (Pos.iter xO p n) = Z.pos p * 2 ^ Z.pos n.
Proof.
  induction n as [|n IH] using Pos.peano_ind.
  - cbn. lia.
  - rewrite Pos.iter_succ, Pos2Z.inj_xO, IH, Pos2Z.inj_succ, Z.pow_succ_r by lia. lia.
Qed.

(** The Number of a positive integer below 2^53 is that integer, on a
    mantissa of 53 bits. *)
Lemma Number_of_N_exact (a : N) :
  (0 < a < 2 ^ 53)%N ->
  exists m e, Number_of_N a = S754_finite false m e /\
              2 ^ 52 <= Z.pos m < 2 ^ 53 /\ -52 <= e <= 0 /\
              Z.pos m = Z.of_N a * 2 ^ (- e).
Proof.
  intros [Hpos Hlt]. destruct a as [|p]; [lia|].
  assert (Hp : Z.pos p < 2 ^ 53).
  { change (2 ^ 53) with (Z.of_N (2 ^ 53)). change (Z.pos p) with (Z.of_N (N.pos p)). lia. }
  unfold Number_of_N. cbn [Z.of_N binary_normalize]. unfold binary_round.
  pose proof (digits2_pos_bounds p) as Hd.
  set (d := Z.pos (digits2_pos p)) in *.
  assert (Hd53 : 1 <= d <= 53).
  { split; [unfold d; lia|].
    destruct (Z.le_gt_cases d 53) as [|Hgt]; [done|].
    assert (2 ^ 53 <= 2 ^ (d - 1)) by (apply Z.pow_le_mono_r; lia). lia. }
  rewrite Z.add_0_r, fexp_normal by lia. unfold shl_align.
  destruct (d - 53 - 0) as [|k|k] eqn:Hk; try lia.
  - assert (Hp52 : 2 ^ 52 <= Z.pos p).
    { replace 52 with (d - 1) by lia. apply Hd. }
    rewrite binary_round_aux_exact by lia.
    exists p, 0. repeat split; try lia.
  - assert (Hshift : Z.pos (Pos.iter xO p k) = Z.pos p * 2 ^ (53 - d)).
    { rewrite Pos_iter_xO. do 2 f_equal. lia. }
    assert (Hpow : 2 ^ 52 = 2 ^ (d - 1) * 2 ^ (53 - d) /\ 2 ^ 53 = 2 ^ d * 2 ^ (53 - d)).
    { rewrite <- !Z.pow_add_r by lia. split; f_equal; lia. }
    assert (0 < 2 ^ (53 - d)) by (apply Z.pow_pos_nonneg; lia).
    rewrite binary_round_aux_exact; [|rewrite Hshift; nia|lia|lia].
    eexists _, _. split; [reflexivity|]. split; [rewrite Hshift; nia|].
    split; [lia|]. rewrite Hshift. cbn [Z.of_N]. do 2 f_equal. lia.
Qed.

(** The quotient of two Numbers with 53-bit mantissas: the integer
    quotient [q] of the aligned mantissas, rounded to 53 bits. *)
Lemma js_div_normal (m1 m2 : positive) (e1 e2 : Z) :
  2 ^ 52 <= Z.pos m1 < 2 ^ 53 -> 2 ^ 52 <= Z.pos m2 < 2 ^ 53 ->
  -52 <= e1 <= 0 -> -52 <= e2 <= 0 ->
  exists m e k,
    js_div (S754_finite false m1 e1) (S754_finite false m2 e2) = S754_finite false m e /\
    2 ^ 52 <= Z.pos m < 2 ^ 53 /\
    0 <= k <= 1 /\
    (e1 - e2 - 53) + k <= e <= (e1 - e2 - 53) + k + 1 /\
    let q := Z.pos m1 * 2 ^ 53 / Z.pos m2 in
    2 ^ (52 + k) <= q /\
    q - 2 ^ k < Z.pos m * 2 ^ (e - (e1 - e2 - 53)) <= q + 2 ^ k.
Proof.
  intros H1 H2 He1 He2. unfold js_div, SFdiv, SFdiv_core_binary. cbn [xorb].
  rewrite (Zdigits2_unique (Z.pos m1) 53), (Zdigits2_unique (Z.pos m2) 53) by (done || lia).
  replace (53 + e1 - (53 + e2)) with (e1 - e2) by lia.
  rewrite fexp_normal by lia.
  rewrite Z.min_l by lia.
  replace (e1 - e2 - (e1 - e2 - 53)) with 53 by lia. cbv iota.
  rewrite Z.shiftl_mul_pow2 by lia.
  set (n := Z.pos m1 * 2 ^ 53).
  pose proof (Z.div_mod n (Z.pos m2) ltac:(lia)) as Hdiv.
  pose proof (Z.mod_pos_bound n (Z.pos m2) ltac:(lia)) as Hmod.
  unfold Z.div, Z.modulo in Hdiv, Hmod |- *.
  destruct (Z.div_eucl n (Z.pos m2)) as [q r]. cbv zeta.
  assert (Hq : 2 ^ 52 <= q < 2 ^ 54).
  { change (2 ^ 54) with (2 * 2 ^ 53). unfold n in Hdiv. nia. }
  destruct (Z.lt_ge_cases q (2 ^ 53)) as [Hsmall|Hbig].
  - destruct (binary_round_aux_normal false q (e1 - e2 - 53) 53 (new_location (Z.pos m2) r))
      as (m & e & -> & Hm & He & Hval); [change (2 ^ (53 - 1)) with (2 ^ 52); lia|lia..|].
    exists m, e, 0. split; [done|]. split; [done|]. split; [lia|]. split; [lia|].
    split; [lia|]. exact Hval.
  - destruct (binary_round_aux_normal false q (e1 - e2 - 53) 54 (new_location (Z.pos m2) r))
      as (m & e & -> & Hm & He & Hval); [change (2 ^ (54 - 1)) with (2 ^ 53); lia|lia..|].
    exists m, e, 1. split; [done|]. split; [done|]. split; [lia|]. split; [lia|].
    split; [exact Hbig|]. exact Hval.
Qed.

(** The product of two Numbers with 53-bit mantissas: the product of
    the mantissas, rounded to 53 bits. *)
Lemma js_mul_normal (m1 m2 : positive) (e1 e2 : Z) :
  2 ^ 52 <= Z.pos m1 < 2 ^ 53 -> 2 ^ 52 <= Z.pos m2 < 2 ^ 53 ->
  -200 <= e1 <= 100 -> -200 <= e2 <= 100 ->
  exists m e k,
    js_mul (S754_finite false m1 e1) (S754_finite false m2 e2) = S754_finite false m e /\
    2 ^ 52 <= Z.pos m < 2 ^ 53 /\
    52 <= k <= 53 /\
    (e1 + e2) + k <= e <= (e1 + e2) + k + 1 /\
    2 ^ (52 + k) <= Z.pos m1 * Z.pos m2 /\
    Z.pos m1 * Z.pos m2 - 2 ^ k < Z.pos m * 2 ^ (e - (e1 + e2))
      <= Z.pos m1 * Z.pos m2 + 2 ^ k.
Proof.
  intros H1 H2 He1 He2. unfold js_mul, SFmul. cbn [xorb].
  rewrite Pos2Z.inj_mul.
  set (p := Z.pos m1 * Z.pos m2).
  assert (Hp : 2 ^ 104 <= p < 2 ^ 106).
  { change (2 ^ 104) with (2 ^ 52 * 2 ^ 52). change (2 ^ 106) with (2 ^ 53 * 2 ^ 53).
    unfold p. nia. }
  destruct (Z.lt_ge_cases p (2 ^ 105)) as [Hsmall|Hbig].
  - destruct (binary_round_aux_normal false p (e1 + e2) 105 loc_Exact)
      as (m & e & -> & Hm & He & Hval); [change (2 ^ (105 - 1)) with (2 ^ 104); lia|lia..|].
    exists m, e, 52. split; [done|]. split; [done|]. split; [lia|]. split; [lia|].
    split; [apply Hp|]. exact Hval.
  - destruct (binary_round_aux_normal false p (e1 + e2) 106 loc_Exact)
      as (m & e & -> & Hm & He & Hval); [change (2 ^ (106 - 1)) with (2 ^ 105); lia|lia..|].
    exists m, e, 53. split; [done|]. split; [done|]. split; [lia|]. split; [lia|].
    split; [exact Hbig|]. exact Hval.
Qed.

Lemma shr_1_even (m : Z) :
  0 <= m -> shr_1 (Build_shr_record (2 * m) false false) = Build_shr_record m false false.
Proof. intros Hm. destruct m as [|p|p]; [reflexivity|reflexivity|lia]. Qed.

Lemma iter_shr_1_exact (p : positive) (m : Z) :
  0 <= m ->
  SpecFloat.iter_pos shr_1 p (Build_shr_record (m * 2 ^ Z.pos p) false false)
  = Build_shr_record m false false.
Proof.
  revert m. induction p as [p IH|p IH|]; intros m Hm; cbn [SpecFloat.iter_pos].
  - replace (m * 2 ^ Z.pos p~1) with (2 * ((m * 2 ^ Z.pos p) * 2 ^ Z.pos p)).
    + rewrite shr_1_even, IH, IH; [done|lia|nia|nia].
    + replace (Z.pos p~1) with (1 + Z.pos p + Z.pos p) by lia.
      rewrite !Z.pow_add_r by lia. lia.
  - replace (m * 2 ^ Z.pos p~0) with ((m * 2 ^ Z.pos p) * 2 ^ Z.pos p).
    + rewrite IH, IH; [done|lia|nia].
    + replace (Z.pos p~0) with (Z.pos p + Z.pos p) by lia.
      rewrite !Z.pow_add_r by lia. lia.
  - replace (m * 2 ^ 1) with (2 * m) by lia. by apply shr_1_even.
Qed.

(** A mantissa of 53 bits followed by [k] zero bits: rounding drops the
    zero bits and nothing else. *)
Lemma binary_round_aux_exact_shift (s : bool) (m : positive) (k ex : Z) :
  2 ^ 52 <= Z.pos m < 2 ^ 53 -> 0 <= k -> -1074 <= ex + k -> ex + k <= 971 ->
  binary_round_aux prec emax s (Z.pos m * 2 ^ k) ex loc_Exact = S754_finite s m (ex + k).
Proof.
  intros Hm Hk Hmin Hmax.
  destruct k as [|p|p]; [|clear Hk|lia].
  - rewrite Z.mul_1_r, Z.add_0_r. apply binary_round_aux_exact; lia.
  - set (P := 2 ^ Z.pos p).
    assert (HP : 0 < P) by (apply Z.pow_pos_nonneg; lia).
    assert (Hd : 2 ^ (53 + Z.pos p - 1) <= Z.pos m * P < 2 ^ (53 + Z.pos p)).
    { replace (53 + Z.pos p - 1) with (52 + Z.pos p) by lia.
      rewrite !Z.pow_add_r by lia. fold P. nia. }
    unfold binary_round_aux, shr_fexp.
    rewrite (Zdigits2_unique (Z.pos m * P) (53 + Z.pos p)) by (nia || done).
    rewrite fexp_normal by lia.
    replace (53 + Z.pos p + ex - 53 - ex) with (Z.pos p) by lia.
    cbn [shr_record_of_loc shr]. unfold P. rewrite iter_shr_1_exact by lia.
    cbn [shr_m loc_of_shr_record round_nearest_even].
    rewrite (Zdigits2_unique (Z.pos m) 53) by (done || lia).
    rewrite fexp_normal by lia.
    replace (53 + (ex + Z.pos p) - 53 - (ex + Z.pos p)) with 0 by lia.
    cbn [shr_record_of_loc shr shr_m].
    destruct (Z.leb_spec (ex + Z.pos p) (emax - prec)) as [_|Hbad]; [done|].
    unfold emax, prec in Hbad. lia.
Qed.

(** The Number of [a] is the one representation of [a] on 53 bits. *)
Lemma Number_of_N_unique (a : N) (m : positive) (e : Z) :
  (0 < a < 2 ^ 53)%N ->
  2 ^ 52 <= Z.pos m < 2 ^ 53 -> e <= 0 -> Z.pos m = Z.of_N a * 2 ^ (- e) ->
  Number_of_N a = S754_finite false m e.
Proof.
  intros Ha Hm He Hval.
  destruct (Number_of_N_exact a Ha) as (m' & e' & -> & Hm' & He' & Hval').
  assert (Hee : e = e').
  { destruct (Z.lt_trichotomy e e') as [Hlt|[?|Hgt]]; [|done|].
    - assert (E : 2 ^ (- e) = 2 ^ (- e') * 2 ^ (e' - e)).
      { rewrite <- Z.pow_add_r by lia. f_equal. lia. }
      assert (2 <= 2 ^ (e' - e)).
      { change 2 with (2 ^ 1) at 1. apply Z.pow_le_mono_r; lia. }
      rewrite E in Hval. nia.
    - assert (E : 2 ^ (- e') = 2 ^ (- e) * 2 ^ (e - e')).
      { rewrite <- Z.pow_add_r by lia. f_equal. lia. }
      assert (2 <= 2 ^ (e - e')).
      { change 2 with (2 ^ 1) at 1. apply Z.pow_le_mono_r; lia. }
      rewrite E in Hval'. nia. }
  subst e'. f_equal. lia.
Qed.

Lemma Number_of_N_1 : Number_of_N 1 = S754_finite false 4503599627370496 (-52).
Proof. reflexivity. Qed.

(** [n++] below 2^53: the binary64 sum of [n] and 1 is the Number of
    [n + 1]. *)
Lemma js_add_1_exact (n : N) :
  (n + 1 < 2 ^ 53)%N ->
  js_add (Number_of_N n) (Number_of_N 1) = Number_of_N (n + 1).
Proof.
  intros Hn. destruct (N.eq_0_gt_0_cases n) as [->|Hpos]; [reflexivity|].
  destruct (Number_of_N_exact n ltac:(lia)) as (m & e & -> & Hm & He & Hval).
  rewrite Number_of_N_1. unfold js_add, SFadd.
  rewrite Z.min_r by lia. cbn [cond_Zopp].
  (* both mantissas at exponent -52 *)
  assert (Hm1 : (shl_align m e (-52)).1 = Z.to_pos (Z.of_N n * 2 ^ 52)).
  { unfold shl_align. destruct (-52 - e) as [|d|d] eqn:Hd; try lia; cbn [fst].
    - assert (e = -52) by lia. subst e. apply Pos2Z.inj.
      rewrite Z2Pos.id by nia. exact Hval.
    - apply Pos2Z.inj. rewrite Pos_iter_xO, Z2Pos.id by nia.
      rewrite Hval, <- Z.mul_assoc, <- Z.pow_add_r by lia. do 2 f_equal. lia. }
  rewrite Hm1.
  change ((shl_align 4503599627370496 (-52) (-52)).1) with 4503599627370496%positive.
  assert (Hn0 : 0 < Z.of_N n) by lia.
  rewrite Z2Pos.id by nia.
  replace (Z.of_N n * 2 ^ 52 + 4503599627370496) with (Z.of_N (n + 1) * 2 ^ 52)
    by (rewrite N2Z.inj_add; change (Z.of_N 1) with 1; lia).
  (* the representation of n + 1 on 53 bits *)
  destruct (Number_of_N_exact (n + 1) ltac:(lia)) as (m' & e' & E' & Hm' & He' & Hval').
  rewrite E'.
  assert (Hsum : Z.of_N (n + 1) * 2 ^ 52 = Z.pos m' * 2 ^ (52 + e')).
  { rewrite Hval', <- Z.mul_assoc, <- Z.pow_add_r by lia. do 2 f_equal. lia. }
  rewrite Hsum.
  assert (Hp : 0 < Z.pos m' * 2 ^ (52 + e')).
  { assert (0 < 2 ^ (52 + e')) by (apply Z.pow_pos_nonneg; lia). nia. }
  destruct (Z.pos m' * 2 ^ (52 + e')) as [|S|S] eqn:HS; try lia.
  cbn [binary_normalize]. unfold binary_round.
  assert (Hdig : Z.pos (digits2_pos S) = 53 + (52 + e')).
  { apply digits2_pos_unique. rewrite <- HS.
    replace (53 + (52 + e') - 1) with (52 + (52 + e')) by lia.
    rewrite (Z.pow_add_r 2 52), (Z.pow_add_r 2 53) by lia.
    assert (0 < 2 ^ (52 + e')) by (apply Z.pow_pos_nonneg; lia).
    nia. }
  rewrite Hdig, fexp_normal by lia. unfold shl_align.
  destruct (53 + (52 + e') + -52 - 53 - -52) as [|d|d] eqn:Hd; try lia;
    rewrite <- HS, binary_round_aux_exact_shift by (done || lia);
    f_equal; lia.
Qed.

Local Close Scope Z_scope.

Local Open Scope Q_scope.

Lemma Qpow2_pos (e : Z) : 0 < 2 ^ e.
Proof. apply Qpower_0_lt. reflexivity. Qed.

Lemma Qpow2_add (a b : Z) : 2 ^ (a + b) == 2 ^ a * 2 ^ b.
Proof. apply Qpower_plus. discriminate. Qed.

Lemma Qpow2_inject (j : Z) : (0 <= j)%Z -> inject_Z (2 ^ j) == 2 ^ j.
Proof. intros Hj. by rewrite Zpower_Qpower. Qed.

Lemma Qval_shift (m j e : Z) : (0 <= j)%Z -> Qval (m * 2 ^ j) e == Qval m (e + j).
Proof.
  intros Hj. unfold Qval.
  rewrite inject_Z_mult, Qpow2_inject, Qpow2_add by done. ring.
Qed.

Lemma Qval_magnitude (m : positive) (e : Z) :
  (0 < (magnitude m e).2)%Z /\
  Qval (Z.pos m) e == inject_Z (magnitude m e).1 / inject_Z (magnitude m e).2.
Proof.
  unfold magnitude. destruct (Z.leb_spec 0 e) as [He|He]; cbn [fst snd].
  - split; [lia|]. unfold Qval. rewrite inject_Z_mult, Qpow2_inject by done. field.
  - assert (Hpos : (0 < 2 ^ (- e))%Z) by (apply Z.pow_pos_nonneg; lia).
    split; [done|]. unfold Qval.
    rewrite Qpow2_inject by lia. rewrite Qpower_opp. field.
    pose proof (Qpow2_pos e). lra.
Qed.

Lemma nearest_integer_half (num den : Z) :
  (0 < den)%Z ->
  Qabs (inject_Z (nearest_integer num den) - inject_Z num / inject_Z den) <= 1 # 2.
Proof.
  intros Hden. unfold nearest_integer.
  pose proof (Z.div_mod (2 * num + den) (2 * den) ltac:(lia)) as Hdiv.
  pose proof (Z.mod_pos_bound (2 * num + den) (2 * den) ltac:(lia)) as Hmod.
  set (n := ((2 * num + den) / (2 * den))%Z) in *.
  assert (Hlo : (2 * den * n <= 2 * num + den)%Z) by lia.
  assert (Hhi : (2 * num + den < 2 * den * n + 2 * den)%Z) by lia.
  rewrite Zle_Qle in Hlo. rewrite Zlt_Qlt in Hhi.
  rewrite !inject_Z_plus, !inject_Z_mult in Hlo. rewrite !inject_Z_plus, !inject_Z_mult in Hhi.
  assert (HD : 0 < inject_Z den) by (change 0 with (inject_Z 0); by rewrite <- Zlt_Qlt).
  set (D := inject_Z den) in *. set (N := inject_Z n) in *. set (X := inject_Z num) in *.
  change (inject_Z 2) with 2 in *.
  apply Qabs_Qle_condition. split.
  - apply (Qmult_lt_0_le_reg_r _ _ D HD).
    assert (E : (N - X / D) * D == N * D - X) by (field; lra). rewrite E. lra.
  - apply (Qmult_lt_0_le_reg_r _ _ D HD).
    assert (E : (N - X / D) * D == N * D - X) by (field; lra). rewrite E. lra.
Qed.

Lemma close_scale (c x y t : Q) : 0 <= t -> close c x y -> close c (x * t) (y * t).
Proof.
  intros Ht [Hlo Hhi]. split.
  - assert (E : (1 - c) * (y * t) == (1 - c) * y * t) by ring.
    rewrite E. by apply Qmult_le_compat_r.
  - assert (E : (1 + c) * (y * t) == (1 + c) * y * t) by ring.
    rewrite E. by apply Qmult_le_compat_r.
Qed.

Lemma close_proper (c x x' y y' : Q) : x == x' -> y == y' -> close c x y -> close c x' y'.
Proof. unfold close. intros -> ->. done. Qed.

(** An integer within 3 of a ratio that is at least 2^52. *)
Lemma close_integers (M rho : Q) :
  4503599627370496 <= rho -> rho - 3 <= M <= rho + 3 ->
  close (3 # 4503599627370496) M rho.
Proof. intros Hrho [Hlo Hhi]. unfold close. split; lra. Qed.

Lemma Qval_of_N (a : N) (m : positive) (e : Z) :
  (e <= 0)%Z -> Z.pos m = (Z.of_N a * 2 ^ (- e))%Z ->
  Qval (Z.pos m) e == inject_Z (Z.of_N a).
Proof.
  intros He ->. rewrite Qval_shift by lia. unfold Qval.
  replace (e + - e)%Z with 0%Z by lia. change (2 ^ 0) with 1. ring.
Qed.

Lemma inject_Z_pos (z : Z) : (0 < z)%Z -> 0 < inject_Z z.
Proof. intros H. change 0 with (inject_Z 0). by rewrite <- Zlt_Qlt. Qed.

(** The quotient of two integers below 2^53, as Numbers: a 53-bit
    mantissa, within 3 * 2^-52 of the exact quotient. *)
Lemma js_div_close (a b : N) :
  (0 < a < 2 ^ 53)%N -> (0 < b < 2 ^ 53)%N ->
  exists m e,
    js_div (Number_of_N a) (Number_of_N b) = S754_finite false m e /\
    (2 ^ 52 <= Z.pos m < 2 ^ 53)%Z /\ (-106 <= e <= 60)%Z /\
    close (3 # 4503599627370496) (Qval (Z.pos m) e)
          (inject_Z (Z.of_N a) / inject_Z (Z.of_N b)).
Proof.
  intros Ha Hb.
  destruct (Number_of_N_exact a Ha) as (m1 & e1 & -> & Hm1 & He1 & HA).
  destruct (Number_of_N_exact b Hb) as (m2 & e2 & -> & Hm2 & He2 & HB).
  destruct (js_div_normal m1 m2 e1 e2 Hm1 Hm2 He1 He2)
    as (m & e & k & -> & Hm & Hk & He & Hq & Hval).
  exists m, e. split; [done|]. split; [done|]. split; [lia|].
  set (ez := (e1 - e2 - 53)%Z) in *.
  set (q := (Z.pos m1 * 2 ^ 53 / Z.pos m2)%Z) in *.
  set (M := (Z.pos m * 2 ^ (e - ez))%Z) in *.
  pose proof (Z.div_mod (Z.pos m1 * 2 ^ 53) (Z.pos m2) ltac:(lia)) as Hdiv.
  pose proof (Z.mod_pos_bound (Z.pos m1 * 2 ^ 53) (Z.pos m2) ltac:(lia)) as Hmod.
  fold q in Hdiv.
  assert (Hk2 : (2 ^ k <= 2)%Z).
  { change 2%Z with (2 ^ 1)%Z at 2. apply Z.pow_le_mono_r; lia. }
  assert (Hq52 : (2 ^ 52 <= q)%Z).
  { assert (2 ^ 52 <= 2 ^ (52 + k))%Z by (apply Z.pow_le_mono_r; lia). lia. }
  (* the value computed and the exact quotient, both in units of 2^ez *)
  assert (Ev : Qval (Z.pos m) e == inject_Z M * 2 ^ ez).
  { unfold M. fold (Qval (Z.pos m * 2 ^ (e - ez)) ez). rewrite Qval_shift by lia.
    by replace (ez + (e - ez))%Z with e by lia. }
  set (rho := inject_Z (Z.pos m1 * 2 ^ 53) / inject_Z (Z.pos m2)).
  assert (Hm2pos : 0 < inject_Z (Z.pos m2)) by (by apply inject_Z_pos).
  assert (Ey : inject_Z (Z.of_N a) / inject_Z (Z.of_N b) == rho * 2 ^ ez).
  { rewrite <- (Qval_of_N a m1 e1), <- (Qval_of_N b m2 e2) by (lia || done).
    unfold rho, Qval, ez. rewrite inject_Z_mult.
    change (inject_Z (2 ^ 53)) with (2 ^ 53).
    replace (e1 - e2 - 53)%Z with (e1 + (- e2 + - (53)))%Z by lia.
    rewrite !Qpow2_add, !Qpower_opp.
    pose proof (Qpow2_pos e2). pose proof (Qpow2_pos 53).
    field. repeat split; lra. }
  apply (close_proper _ (inject_Z M * 2 ^ ez) _ (rho * 2 ^ ez)); [by rewrite Ev|by rewrite Ey|].
  apply close_scale; [pose proof (Qpow2_pos ez); lra|].
  (* q <= rho < q + 1 *)
  assert (Hrho : inject_Z q <= rho /\ rho <= inject_Z q + 1).
  { unfold rho. split.
    - apply Qle_shift_div_l; [done|]. rewrite <- inject_Z_mult, <- Zle_Qle. lia.
    - apply Qle_shift_div_r; [done|].
      change 1 with (inject_Z 1). rewrite <- inject_Z_plus, <- inject_Z_mult, <- Zle_Qle. lia. }
  assert (HMlo : inject_Z (q + - 2) <= inject_Z M) by (rewrite <- Zle_Qle; lia).
  assert (HMhi : inject_Z M <= inject_Z (q + 2)) by (rewrite <- Zle_Qle; lia).
  rewrite inject_Z_plus in HMlo, HMhi.
  change (inject_Z (- 2)) with (- (2)) in HMlo. change (inject_Z 2) with 2 in HMhi.
  assert (Hq52' : 4503599627370496 <= inject_Z q).
  { change 4503599627370496 with (inject_Z (2 ^ 52)). rewrite <- Zle_Qle. lia. }
  apply close_integers; [lra|]. split; lra.
Qed.

Lemma Number_of_N_100 : Number_of_N 100 = S754_finite false 7036874417766400 (-46).
Proof. reflexivity. Qed.

(** A Number with a 53-bit mantissa times 100: within 2^-52 of the
    exact product. *)
Lemma js_mul_100_close (m : positive) (e : Z) :
  (2 ^ 52 <= Z.pos m < 2 ^ 53)%Z -> (-106 <= e <= 60)%Z ->
  exists m' e',
    js_mul (S754_finite false m e) (Number_of_N 100) = S754_finite false m' e' /\
    close (1 # 4503599627370496) (Qval (Z.pos m') e') (100 * Qval (Z.pos m) e).
Proof.
  intros Hm He. rewrite Number_of_N_100.
  destruct (js_mul_normal m 7036874417766400 e (-46) Hm ltac:(done) ltac:(lia) ltac:(lia))
    as (m' & e' & k & -> & Hm' & Hk & He' & Hp & Hval).
  exists m', e'. split; [done|].
  set (ex := (e + -46)%Z) in *.
  set (P := (Z.pos m * 7036874417766400)%Z) in *.
  set (M := (Z.pos m' * 2 ^ (e' - ex))%Z) in *.
  assert (Ev : Qval (Z.pos m') e' == inject_Z M * 2 ^ ex).
  { unfold M. fold (Qval (Z.pos m' * 2 ^ (e' - ex)) ex). rewrite Qval_shift by lia.
    by replace (ex + (e' - ex))%Z with e' by lia. }
  assert (Ey : 100 * Qval (Z.pos m) e == inject_Z P * 2 ^ ex).
  { unfold P, Qval, ex. rewrite inject_Z_mult, Qpow2_add.
    change (2 ^ (-46)) with (1 # 70368744177664).
    change (inject_Z 7036874417766400) with 7036874417766400. ring. }
  apply (close_proper _ (inject_Z M * 2 ^ ex) _ (inject_Z P * 2 ^ ex));
    [by rewrite Ev|by rewrite Ey|].
  apply close_scale; [pose proof (Qpow2_pos ex); lra|].
  assert (Hcases : k = 52%Z \/ k = 53%Z) by lia.
  unfold close.
  destruct Hcases as [-> | ->].
  - change (2 ^ (52 + 52))%Z with (4503599627370496 * 2 ^ 52)%Z in Hp.
    set (u := (2 ^ 52)%Z) in *.
    assert (H1 : inject_Z (P + - u) <= inject_Z M) by (rewrite <- Zle_Qle; lia).
    assert (H2 : inject_Z M <= inject_Z (P + u)) by (rewrite <- Zle_Qle; lia).
    assert (H3 : inject_Z (4503599627370496 * u) <= inject_Z P) by (by rewrite <- Zle_Qle).
    rewrite inject_Z_plus in H1, H2. rewrite inject_Z_opp in H1. rewrite inject_Z_mult in H3.
    change (inject_Z 4503599627370496) with 4503599627370496 in H3.
    split; lra.
  - change (2 ^ (52 + 53))%Z with (4503599627370496 * 2 ^ 53)%Z in Hp.
    set (u := (2 ^ 53)%Z) in *.
    assert (H1 : inject_Z (P + - u) <= inject_Z M) by (rewrite <- Zle_Qle; lia).
    assert (H2 : inject_Z M <= inject_Z (P + u)) by (rewrite <- Zle_Qle; lia).
    assert (H3 : inject_Z (4503599627370496 * u) <= inject_Z P) by (by rewrite <- Zle_Qle).
    rewrite inject_Z_plus in H1, H2. rewrite inject_Z_opp in H1. rewrite inject_Z_mult in H3.
    change (inject_Z 4503599627370496) with 4503599627370496 in H3.
    split; lra.
Qed.

(** [percentage] on counts below 2^53 prints, in fixed notation, the
    number of hundredths nearest to 100 * numerator / denominator, up to
    the relative error 2^-49 of the two roundings before it. *)
Lemma percentage_accurate (a b : N) :
  (a < 2 ^ 53)%N -> (0 < b < 2 ^ 53)%N ->
  exists n : N,
    percentage a b = hundredths n /\
    let exact := 10000 * NQ a / NQ b in
    Qabs (NQ n - exact) <= (1 # 2) + exact * (1 # 562949953421312).
Proof.
  intros Ha Hb. unfold percentage, NQ.
  assert (HB : 1 <= inject_Z (Z.of_N b)).
  { change 1 with (inject_Z 1). rewrite <- Zle_Qle. lia. }
  destruct (N.eq_0_gt_0_cases a) as [->|Hapos].
  - (* 0 / b = 0, 0 * 100 = 0, printed "0.00" *)
    destruct (Number_of_N_exact b Hb) as (m2 & e2 & -> & _).
    exists 0%N. split; [reflexivity|]. cbv zeta.
    change (inject_Z (Z.of_N 0)) with 0.
    assert (E : 10000 * 0 / inject_Z (Z.of_N b) == 0) by (field; lra).
    rewrite E. apply Qabs_Qle_condition. split; lra.
  - destruct (js_div_close a b ltac:(lia) Hb) as (m & e & -> & Hm & He & Hdiv).
    destruct (js_mul_100_close m e Hm He) as (m' & e' & -> & Hmul).
    destruct (Qval_magnitude m' e') as [Hden Hv].
    cbn [toFixed2]. destruct (magnitude m' e') as [num den] eqn:Hmag. cbn [fst snd] in *.
    assert (HA : inject_Z (Z.of_N a) < 9007199254740992).
    { change 9007199254740992 with (inject_Z (2 ^ 53)). rewrite <- Zlt_Qlt.
      change (2 ^ 53)%Z with (Z.of_N (2 ^ 53)). lia. }
    assert (HA0 : 0 < inject_Z (Z.of_N a)) by (apply inject_Z_pos; lia).
    set (y := inject_Z (Z.of_N a) / inject_Z (Z.of_N b)) in *.
    assert (Hy : 0 <= y <= 9007199254740992).
    { unfold y. split.
      - apply Qle_shift_div_l; lra.
      - apply Qle_shift_div_r; [lra|]. nra. }
    set (v1 := Qval (Z.pos m) e) in *. set (v := Qval (Z.pos m') e') in *.
    destruct Hdiv as [Hd1 Hd2]. destruct Hmul as [Hm1 Hm2].
    assert (Hvy : (1 - (1 # 562949953421312)) * (100 * y) <= v
                  /\ v <= (1 + (1 # 562949953421312)) * (100 * y)) by (split; lra).
    assert (HD : 0 < inject_Z den) by (by apply inject_Z_pos).
    assert (Hnum : inject_Z num == v * inject_Z den).
    { rewrite Hv. field. lra. }
    (* fixed notation: the value is below 10^21 *)
    assert (Hfixed : (num <? 10 ^ 21 * den)%Z = true).
    { apply Z.ltb_lt. rewrite Zlt_Qlt, inject_Z_mult, Hnum.
      apply Qmult_lt_compat_r; [done|].
      change (inject_Z (10 ^ 21)) with 1000000000000000000000. lra. }
    rewrite Hfixed. cbn [String.append].
    exists (Z.to_N (nearest_integer (100 * num) den)). split; [reflexivity|].
    pose proof (nearest_integer_half (100 * num) den Hden) as Hhalf.
    assert (Hn0 : (0 <= nearest_integer (100 * num) den)%Z).
    { unfold nearest_integer. apply Z.div_pos; [|lia].
      assert (0 <= num)%Z; [|lia].
      rewrite Zle_Qle, Hnum. apply Qmult_le_0_compat; lra. }
    rewrite Z2N.id by done.
    apply Qabs_Qle_condition in Hhalf. apply Qabs_Qle_condition. cbv zeta.
    assert (E100 : inject_Z (100 * num) / inject_Z den == 100 * v).
    { rewrite inject_Z_mult, Hnum. change (inject_Z 100) with 100. field. lra. }
    rewrite E100 in Hhalf.
    assert (Ey : 10000 * inject_Z (Z.of_N a) / inject_Z (Z.of_N b) == 10000 * y).
    { unfold y. field. lra. }
    rewrite Ey. split; lra.
Qed.

Local Close Scope Q_scope.

(** A tie that the roundings break downwards: 100 * 201 / 20000 is
    1.005, the Number computed is just below it and prints as "1.00";
    1 / 800 gives 0.125 exactly and prints as "0.13". *)
Example percentage_ties : percentage 201 20000 = "1.00" /\ percentage 1 800 = "0.13".
Proof. split; vm_compute; reflexivity. Qed.

(** ** Conversion rates *)

Lemma set_rate_frame (key : string) (n dn : N) (d : Ledger) :
  totalSessions (set_rate key n dn d) = totalSessions d /\
  events (set_rate key n dn d) = events d /\
  funnelMetrics (set_rate key n dn d) = funnelMetrics d /\
  dailyStats (set_rate key n dn d) = dailyStats d /\
  sessions (set_rate key n dn d) = sessions d.
Proof. unfold set_rate. by destruct (0 <? dn)%N. Qed.

Lemma calculateConversionRates_frame (d : Ledger) :
  totalSessions (calculateConversionRates d) = totalSessions d /\
  events (calculateConversionRates d) = events d /\
  funnelMetrics (calculateConversionRates d) = funnelMetrics d /\
  dailyStats (calculateConversionRates d) = dailyStats d /\
  sessions (calculateConversionRates d) = sessions d.
Proof.
  unfold calculateConversionRates. cbv zeta.
  repeat match goal with |- context [set_rate ?k ?n ?dn ?x] =>
    let H := fresh in
    pose proof (set_rate_frame k n dn x) as H; destruct H as (-> & -> & -> & -> & ->)
  end.
  done.
Qed.

Lemma set_rate_rates (key : string) (n dn : N) (d : Ledger) :
  conversionRates (set_rate key n dn d)
  = (if (0 <? dn)%N then <[key := percentage n dn]> (conversionRates d)
     else conversionRates d).
Proof. unfold set_rate. by destruct (0 <? dn)%N. Qed.

(** [calculateConversionRates] lays the rates computed from the current
    metrics over the mapping it finds. *)
Lemma calculateConversionRates_rates (d : Ledger) :
  conversionRates (calculateConversionRates d)
  = rates_from_scratch (funnelMetrics d) ∪ conversionRates d.
Proof.
  unfold calculateConversionRates. cbv zeta.
  rewrite !set_rate_rates.
  repeat match goal with |- context [funnelMetrics (set_rate ?k ?n ?dn ?x)] =>
    rewrite (proj1 (proj2 (proj2 (set_rate_frame k n dn x)))) end.
  unfold rates_from_scratch, rate_table. cbn [omap rate_row metric].
  destruct (funnelMetrics d) as [ql qs qc sl ss cc]. cbn.
  destruct (0 <? ql)%N, (0 <? qs)%N, (0 <? qc)%N, (0 <? sl)%N, (0 <? ss)%N; cbn;
    apply map_eq; intros k; rewrite ?lookup_union;
    repeat (rewrite lookup_insert; case_decide; subst; try done);
    rewrite ?lookup_empty;
    try match goal with |- context [conversionRates d !! ?i] =>
          by destruct (conversionRates d !! i) end.
Qed.

Lemma rates_from_scratch_row (m : FunnelMetrics.t) (key : string) (n dn : Stage) :
  (key, n, dn) ∈ rate_table ->
  rates_from_scratch m !! key
  = (if (0 <? metric dn m)%N then Some (percentage (metric n m) (metric dn m)) else None).
Proof.
  intros H. unfold rate_table in H.
  repeat (apply elem_of_cons in H as [[= -> -> ->]|H]);
    [..|by apply elem_of_nil in H];
    unfold rates_from_scratch, rate_table; cbn [omap rate_row metric];
    destruct m as [ql qs qc sl ss cc]; cbn;
    destruct (0 <? ql)%N, (0 <? qs)%N, (0 <? qc)%N, (0 <? sl)%N, (0 <? ss)%N; cbn;
    repeat (rewrite lookup_insert; case_decide; try done); by rewrite ?lookup_empty.
Qed.

Lemma rates_from_scratch_key (m : FunnelMetrics.t) (k v : string) :
  rates_from_scratch m !! k = Some v ->
  exists n dn, (k, n, dn) ∈ rate_table /\ (0 < metric dn m)%N.
Proof.
  unfold rates_from_scratch. intros H.
  apply elem_of_list_to_map_2, list_elem_of_omap in H as ([[key n] dn] & Hrow & Hv).
  unfold rate_row in Hv. destruct (0 <? metric dn m)%N eqn:Hdn; [|discriminate].
  injection Hv as -> _. exists n, dn. split; [done|]. by apply N.ltb_lt.
Qed.

(** C1: with funnelMetrics quiz_loaded=100, quiz_started=40,
    quiz_completed=10, sales_page_loaded=8, sales_page_scrolled=4,
    checkout_clicked=1, calculateConversionRates leaves
    quizStartRate="40.00", quizCompletionRate="25.00",
    salesPageViewRate="80.00", scrollRate="50.00",
    checkoutClickRate="25.00", overallConversionRate="1.00"; for every
    document, each rate whose denominator is above zero is
    ((numerator / denominator) * 100).toFixed(2) with the numerator and
    denominator of its row of the table; for counts below 2^53 that
    string is a number [n] of hundredths printed as digits, a point and
    exactly two digits, [n] being 100 * 100 * numerator / denominator
    rounded to the nearest integer, up to the relative error 2^-49 of
    the binary64 division and multiplication; and toFixed(2) of any
    finite number below 10^21 in magnitude reads as digits, a point and
    exactly two digits. *)
Theorem C1_conversion_rates :
  (forall d : Ledger,
     funnelMetrics d = FunnelMetrics.mk 100 40 10 8 4 1 ->
     let r := conversionRates (calculateConversionRates d) in
     r !! "quizStartRate" = Some "40.00" /\
     r !! "quizCompletionRate" = Some "25.00" /\
     r !! "salesPageViewRate" = Some "80.00" /\
     r !! "scrollRate" = Some "50.00" /\
     r !! "checkoutClickRate" = Some "25.00" /\
     r !! "overallConversionRate" = Some "1.00") /\
  (forall d : Ledger,
     let m := funnelMetrics d in
     let r := conversionRates (calculateConversionRates d) in
     ((0 < FunnelMetrics.quiz_loaded m)%N ->
      r !! "quizStartRate"
      = Some (percentage (FunnelMetrics.quiz_started m) (FunnelMetrics.quiz_loaded m))) /\
     ((0 < FunnelMetrics.quiz_started m)%N ->
      r !! "quizCompletionRate"
      = Some (percentage (FunnelMetrics.quiz_completed m) (FunnelMetrics.quiz_started m))) /\
     ((0 < FunnelMetrics.quiz_completed m)%N ->
      r !! "salesPageViewRate"
      = Some (percentage (FunnelMetrics.sales_page_loaded m) (FunnelMetrics.quiz_completed m))) /\
     ((0 < FunnelMetrics.sales_page_loaded m)%N ->
      r !! "scrollRate"
      = Some (percentage (FunnelMetrics.sales_page_scrolled m)
                (FunnelMetrics.sales_page_loaded m))) /\
     ((0 < FunnelMetrics.sales_page_scrolled m)%N ->
      r !! "checkoutClickRate"
      = Some (percentage (FunnelMetrics.checkout_clicked m)
                (FunnelMetrics.sales_page_scrolled m))) /\
     ((0 < FunnelMetrics.quiz_loaded m)%N ->
      r !! "overallConversionRate"
      = Some (percentage (FunnelMetrics.checkout_clicked m) (FunnelMetrics.quiz_loaded m)))) /\
  (forall numerator denominator : N,
     (numerator < 2 ^ 53)%N -> (0 < denominator < 2 ^ 53)%N ->
     exists n : N,
       percentage numerator denominator = hundredths n /\
       two_decimals (hundredths n) = true /\
       digits_value 0 (hundredths n) = n /\
       (Qabs (NQ n - 10000 * NQ numerator / NQ denominator)
        <= (1 # 2) + 10000 * NQ numerator / NQ denominator * (1 # 2 ^ 49))%Q) /\
  (forall x : Number, fixed_notation x = true -> two_decimals (toFixed2 x) = true).
Proof.
  assert (Hrow : forall d key n dn, (key, n, dn) ∈ rate_table ->
            (0 < metric dn (funnelMetrics d))%N ->
            conversionRates (calculateConversionRates d) !! key
            = Some (percentage (metric n (funnelMetrics d)) (metric dn (funnelMetrics d)))).
  { intros d key n dn Hin Hpos.
    rewrite calculateConversionRates_rates, lookup_union,
      (rates_from_scratch_row _ _ _ _ Hin).
    apply N.ltb_lt in Hpos. rewrite Hpos. by destruct (conversionRates d !! key). }
  split; [|split; [|split]].
  - intros d Hm r. subst r.
    repeat split.
    + rewrite (Hrow d _ QUIZ_STARTED QUIZ_LOADED); rewrite ?Hm;
        [vm_compute; reflexivity | set_solver | done].
    + rewrite (Hrow d _ QUIZ_COMPLETED QUIZ_STARTED); rewrite ?Hm;
        [vm_compute; reflexivity | set_solver | done].
    + rewrite (Hrow d _ SALES_PAGE_LOADED QUIZ_COMPLETED); rewrite ?Hm;
        [vm_compute; reflexivity | set_solver | done].
    + rewrite (Hrow d _ SALES_PAGE_SCROLLED SALES_PAGE_LOADED); rewrite ?Hm;
        [vm_compute; reflexivity | set_solver | done].
    + rewrite (Hrow d _ CHECKOUT_CLICKED SALES_PAGE_SCROLLED); rewrite ?Hm;
        [vm_compute; reflexivity | set_solver | done].
    + rewrite (Hrow d _ CHECKOUT_CLICKED QUIZ_LOADED); rewrite ?Hm;
        [vm_compute; reflexivity | set_solver | done].
  - intros d m r. subst m r.
    repeat split; intros Hpos.
    + by apply (Hrow d _ QUIZ_STARTED QUIZ_LOADED); [set_solver|].
    + by apply (Hrow d _ QUIZ_COMPLETED QUIZ_STARTED); [set_solver|].
    + by apply (Hrow d _ SALES_PAGE_LOADED QUIZ_COMPLETED); [set_solver|].
    + by apply (Hrow d _ SALES_PAGE_SCROLLED SALES_PAGE_LOADED); [set_solver|].
    + by apply (Hrow d _ CHECKOUT_CLICKED SALES_PAGE_SCROLLED); [set_solver|].
    + by apply (Hrow d _ CHECKOUT_CLICKED QUIZ_LOADED); [set_solver|].
  - intros numerator denominator Hn Hd.
    destruct (percentage_accurate numerator denominator Hn Hd) as (n & Hprint & Hnear).
    exists n. split; [exact Hprint|]. split; [apply (hundredths_two_decimals n false)|].
    split; [apply hundredths_value | exact Hnear].
  - apply toFixed2_two_decimals.
Qed.

(** ** The document after one call *)

Lemma current_persisted (w : World) : current (persisted w) = current w.
Proof. unfold persisted. by destruct (quota_exceeded _). Qed.

Lemma current_cleared (w : World) : current (cleared w) = getDefaultData.
Proof. unfold current, deref, cleared. cbn. by rewrite lookup_insert_eq. Qed.

Lemma resetAnalytics_run (confirm : string -> bool) (w : World) :
  resetAnalytics confirm w
  = (if confirm reset_prompt then (Normal true, persisted (cleared w))
     else (Normal false, w)).
Proof.
  unfold resetAnalytics. destruct (confirm reset_prompt); [|reflexivity].
  unfold mbind, M_bind, bind, removeItem, assign_new_data. cbv beta iota.
  rewrite saveData_run. reflexivity.
Qed.

Lemma current_exec (op : Op) (w : World) :
  current (exec op w)
  = match op with
    | Track env eventName data => recorded env eventName data (current w)
    | Reset confirm => if confirm reset_prompt then getDefaultData else current w
    end.
Proof.
  destruct op as [env eventName data|confirm]; cbn [exec].
  - rewrite trackEvent_run. cbn [snd].
    by rewrite current_persisted, current_set_current.
  - rewrite resetAnalytics_run. destruct (confirm reset_prompt); cbn [snd]; [|done].
    by rewrite current_persisted, current_cleared.
Qed.

Lemma run_snoc (ops : list Op) (op : Op) (w : World) :
  run (ops ++ [op]) w = exec op (run ops w).
Proof. unfold run. by rewrite fold_left_app. Qed.

(** Induction over the histories of an instance. *)
Lemma run_ind (P : World -> Prop) :
  (forall slot, P (start slot)) ->
  (forall w op, P w -> P (exec op w)) ->
  forall ops slot, P (run ops (start slot)).
Proof.
  intros Hstart Hstep ops slot. induction ops as [|op ops IH] using rev_ind.
  - apply Hstart.
  - rewrite run_snoc. by apply Hstep.
Qed.

Lemma current_start (slot : option string) : current (start slot) = getDefaultData.
Proof. reflexivity. Qed.

Lemma updateSessionData_frame (env : Env) (ev : Event.t) (d : Ledger) :
  events (updateSessionData env ev d) = events d /\
  funnelMetrics (updateSessionData env ev d) = funnelMetrics d /\
  dailyStats (updateSessionData env ev d) = dailyStats d /\
  conversionRates (updateSessionData env ev d) = conversionRates d.
Proof. unfold updateSessionData. by destruct (find _ (sessions d)). Qed.

Lemma recorded_events (env : Env) (eventName : string) (data : json) (d : Ledger) :
  events (recorded env eventName data d) = (events d ++ [make_event env eventName data])%list.
Proof.
  unfold recorded. cbv zeta.
  rewrite (proj1 (proj2 (calculateConversionRates_frame _))).
  rewrite (proj1 (updateSessionData_frame _ _ _)).
  unfold count_day, count_stage. by destruct (stage_of_name eventName).
Qed.

Lemma recorded_funnelMetrics (env : Env) (eventName : string) (data : json) (d : Ledger) :
  funnelMetrics (recorded env eventName data d)
  = match stage_of_name eventName with
    | Some st => bump st (funnelMetrics d)
    | None => funnelMetrics d
    end.
Proof.
  unfold recorded. cbv zeta.
  rewrite (proj1 (proj2 (proj2 (calculateConversionRates_frame _)))).
  rewrite (proj1 (proj2 (updateSessionData_frame _ _ _))).
  unfold count_day, count_stage. by destruct (stage_of_name eventName).
Qed.

Lemma recorded_conversionRates (env : Env) (eventName : string) (data : json) (d : Ledger) :
  conversionRates (recorded env eventName data d)
  = rates_from_scratch (funnelMetrics (recorded env eventName data d)) ∪ conversionRates d.
Proof.
  rewrite recorded_funnelMetrics. unfold recorded. cbv zeta.
  rewrite calculateConversionRates_rates.
  rewrite (proj1 (proj2 (updateSessionData_frame _ _ _))).
  rewrite (proj2 (proj2 (proj2 (updateSessionData_frame _ _ _)))).
  unfold count_day, count_stage. by destruct (stage_of_name eventName).
Qed.

Lemma recorded_dailyStats (env : Env) (eventName : string) (data : json) (d : Ledger) :
  dailyStats (recorded env eventName data d)
  = <[today env :=
        DayBucket.mk (DayBucket.sessions (bucket_at (today env) d))
          (incr_counter eventName
             (init_counter eventName (DayBucket.events (bucket_at (today env) d))))
          (DayBucket.conversions (bucket_at (today env) d))]> (dailyStats d).
Proof.
  unfold recorded. cbv zeta.
  rewrite (proj1 (proj2 (proj2 (proj2 (calculateConversionRates_frame _))))).
  rewrite (proj1 (proj2 (proj2 (updateSessionData_frame _ _ _)))).
  unfold count_day, bucket_at, count_stage. by destruct (stage_of_name eventName).
Qed.

Lemma recorded_sessions (env : Env) (eventName : string) (data : json) (d : Ledger) :
  let ev := make_event env eventName data in
  sessions (recorded env eventName data d) = sessions (updateSessionData env ev d) /\
  totalSessions (recorded env eventName data d) = totalSessions (updateSessionData env ev d).
Proof.
  unfold recorded. cbv zeta.
  rewrite (proj2 (proj2 (proj2 (proj2 (calculateConversionRates_frame _))))).
  rewrite (proj1 (calculateConversionRates_frame _)).
  unfold updateSessionData, count_day, count_stage.
  by destruct (stage_of_name eventName); cbn; destruct (find _ (sessions d)).
Qed.

(** ** Rates are a function of the metrics *)

Lemma metric_bump (s st : Stage) (m : FunnelMetrics.t) :
  metric s (bump st m) = (if decide (s = st) then metric s m + 1 else metric s m)%N.
Proof. destruct m, s, st; reflexivity. Qed.

Lemma metric_bump_le (s st : Stage) (m : FunnelMetrics.t) :
  (metric s m <= metric s (bump st m))%N.
Proof. rewrite metric_bump. case_decide; lia. Qed.

(** Counters only grow, so a rate once present is rewritten by every
    later recomputation. *)
Lemma rates_from_scratch_grow (m m' : FunnelMetrics.t) :
  (forall s, (metric s m <= metric s m')%N) ->
  rates_from_scratch m' ∪ rates_from_scratch m = rates_from_scratch m'.
Proof.
  intros Hle. apply map_eq. intros k. rewrite lookup_union.
  destruct (rates_from_scratch m !! k) as [v|] eqn:Hk.
  - apply rates_from_scratch_key in Hk as (n & dn & Hin & Hpos).
    rewrite (rates_from_scratch_row m' _ _ _ Hin).
    specialize (Hle dn). destruct (N.ltb_spec 0 (metric dn m')); [done|lia].
  - by destruct (rates_from_scratch m' !! k).
Qed.

Lemma recorded_rates_current (env : Env) (eventName : string) (data : json) (d : Ledger) :
  rates_current d -> rates_current (recorded env eventName data d).
Proof.
  unfold rates_current. intros Hd.
  rewrite recorded_conversionRates, Hd. apply rates_from_scratch_grow.
  intros s. rewrite recorded_funnelMetrics.
  destruct (stage_of_name eventName); [apply metric_bump_le | lia].
Qed.

Lemma run_rates_current (ops : list Op) (slot : option string) :
  rates_current (current (run ops (start slot))).
Proof.
  apply (run_ind (fun w => rates_current (current w))).
  - reflexivity.
  - intros w op Hw. rewrite current_exec.
    destruct op as [env eventName data|confirm].
    + by apply recorded_rates_current.
    + by destruct (confirm reset_prompt).
Qed.

(** C2: after every trackEvent in a history that starts from the
    default document, conversionRates is the mapping built from nothing
    out of the current funnelMetrics alone: each rate key is present
    exactly when its denominator metric is above zero, and with all six
    metrics at zero the mapping is empty. *)
Theorem C2_rates_from_scratch
    (ops : list Op) (slot : option string) (env : Env) (eventName : string) (data : json) :
  let d := current (trackEvent env eventName data (run ops (start slot))).2 in
  conversionRates d = rates_from_scratch (funnelMetrics d) /\
  (forall key n dn, (key, n, dn) ∈ rate_table ->
     is_Some (conversionRates d !! key) <-> (0 < metric dn (funnelMetrics d))%N) /\
  (funnelMetrics d = FunnelMetrics.mk 0 0 0 0 0 0 -> conversionRates d = ∅) /\
  conversionRates (calculateConversionRates getDefaultData) = ∅.
Proof.
  intros d.
  assert (Hd : rates_current d).
  { subst d. change (rates_current (current (exec (Track env eventName data)
                                               (run ops (start slot))))).
    rewrite <- run_snoc. apply run_rates_current. }
  unfold rates_current in Hd. split; [exact Hd|]. split; [|split].
  - intros key n dn Hin. rewrite Hd, (rates_from_scratch_row _ _ _ _ Hin).
    destruct (N.ltb_spec 0 (metric dn (funnelMetrics d))).
    + split; [done|]. intros _. by eexists.
    + split; [by intros [? [=]]|lia].
  - intros Hzero. rewrite Hd, Hzero. reflexivity.
  - reflexivity.
Qed.

(** ** Day buckets *)

(** For a name that [Object.prototype] does not define, the two counter
    statements add one to its count and leave the other names alone. *)
Lemma counter_statements (name : string) (ev : gmap string Counter) :
  on_Object_prototype name = false ->
  incr_counter name (init_counter name ev) = <[name := Count (count_of name ev + 1)]> ev.
Proof.
  intros Hname.
  assert (Hproto : String.eqb name "__proto__" = false).
  { destruct (String.eqb_spec name "__proto__") as [->|]; [discriminate|done]. }
  unfold incr_counter, init_counter, count_of, Get, Put. rewrite Hname.
  destruct (ev !! name) as [[n|]|] eqn:Hev; cbn [falsy];
    [destruct (N.eqb_spec n 0) as [->|Hn]|..];
    repeat first [ rewrite Hev | rewrite Hproto | rewrite lookup_insert_eq
                 | rewrite insert_insert_eq | progress cbn [falsy incremented] ];
    reflexivity.
Qed.

(** One call, seen from [dailyStats]: a name that [Object.prototype]
    does not define has its counter for the current day raised by one
    (from 0 when it had none), the other counters of that day and every
    other day's bucket stay as they were. *)
Lemma trackEvent_counts_day (env : Env) (eventName : string) (data : json) (w : World) :
  on_Object_prototype eventName = false ->
  let d := current w in
  let d' := current (trackEvent env eventName data w).2 in
  (exists b', dailyStats d' !! today env = Some b' /\
     DayBucket.events b' !! eventName
     = Some (Count (count_of eventName (DayBucket.events (bucket_at (today env) d)) + 1)) /\
     forall other, other <> eventName ->
       DayBucket.events b' !! other
       = DayBucket.events (bucket_at (today env) d) !! other) /\
  (forall day, day <> today env -> dailyStats d' !! day = dailyStats d !! day).
Proof.
  intros Hname d d'. subst d d'.
  rewrite trackEvent_run. cbn [snd].
  rewrite current_persisted, current_set_current, recorded_dailyStats.
  rewrite counter_statements by done. split.
  - eexists. rewrite lookup_insert_eq. split; [reflexivity|]. cbn.
    rewrite lookup_insert_eq. split; [done|].
    intros other Hother. by rewrite lookup_insert_ne.
  - intros day Hday. by rewrite lookup_insert_ne.
Qed.

(** Two events on different calendar days, from the default document:
    two keys in [dailyStats], each bucket counting its own event
    only. *)
Lemma day_buckets_independent
    (env1 env2 : Env) (name1 name2 : string) (data1 data2 : json) (slot : option string) :
  on_Object_prototype name1 = false -> on_Object_prototype name2 = false ->
  today env1 <> today env2 ->
  let w1 := (trackEvent env1 name1 data1 (start slot)).2 in
  let w2 := (trackEvent env2 name2 data2 w1).2 in
  dailyStats (current w2)
  = <[today env2 := DayBucket.mk 0 {[ name2 := Count 1 ]} ∅]>
      {[ today env1 := DayBucket.mk 0 {[ name1 := Count 1 ]} ∅ ]}.
Proof.
  intros Hn1 Hn2 Hdays w1 w2.
  assert (H1 : dailyStats (current w1)
               = {[ today env1 := DayBucket.mk 0 {[ name1 := Count 1 ]} ∅ ]}).
  { subst w1. rewrite trackEvent_run. cbn [snd].
    rewrite current_persisted, current_set_current, recorded_dailyStats, current_start.
    unfold bucket_at. cbn [dailyStats getDefaultData]. rewrite lookup_empty.
    cbn [default DayBucket.sessions DayBucket.events DayBucket.conversions].
    rewrite counter_statements by done. unfold count_of. by rewrite lookup_empty. }
  subst w2. rewrite trackEvent_run. cbn [snd].
  rewrite current_persisted, current_set_current, recorded_dailyStats.
  unfold bucket_at. rewrite H1, lookup_singleton_ne by done.
  cbn [default DayBucket.sessions DayBucket.events DayBucket.conversions].
  rewrite counter_statements by done. unfold count_of. by rewrite lookup_empty.
Qed.

(** C3, at an event name that [Object.prototype] defines: the first
    trackEvent("constructor") of a day leaves
    dailyStats[day].events["constructor"] at NaN, not at 1 (the test
    [!events[eventName]] finds the inherited function, so the counter is
    not set to 0 before [++]), and a second one the same day leaves it
    at 1, not at 2. *)
Theorem C3_inherited_name_counter (env : Env) (data data' : json) (slot : option string) :
  let w1 := (trackEvent env "constructor" data (start slot)).2 in
  let w2 := (trackEvent env "constructor" data' w1).2 in
  (exists b, dailyStats (current w1) !! today env = Some b /\
             DayBucket.events b !! "constructor" = Some NaN) /\
  (exists b, dailyStats (current w2) !! today env = Some b /\
             DayBucket.events b !! "constructor" = Some (Count 1)).
Proof.
  intros w1 w2.
  assert (H1 : dailyStats (current w1)
               = {[ today env := DayBucket.mk 0 {[ "constructor" := NaN ]} ∅ ]}).
  { subst w1. rewrite trackEvent_run. cbn [snd].
    rewrite current_persisted, current_set_current, recorded_dailyStats.
    rewrite current_start. unfold bucket_at. cbn [dailyStats getDefaultData].
    rewrite lookup_empty. cbn [default DayBucket.sessions DayBucket.events
                                DayBucket.conversions].
    reflexivity. }
  split.
  - rewrite H1, lookup_singleton_eq. eexists. split; [reflexivity|].
    cbn. by rewrite lookup_singleton_eq.
  - subst w2. rewrite trackEvent_run. cbn [snd].
    rewrite current_persisted, current_set_current, recorded_dailyStats.
    rewrite lookup_insert_eq. eexists. split; [reflexivity|].
    unfold bucket_at. rewrite H1, lookup_singleton_eq.
    cbn [default DayBucket.events]. vm_compute. reflexivity.
Qed.

(** ** Sessions *)

Lemma find_mutate_first (p : Session.t -> bool) (f : Session.t -> Session.t)
    (l : list Session.t) (s : Session.t) :
  find p l = Some s -> p (f s) = true -> find p (mutate_first p f l) = Some (f s).
Proof.
  intros Hfind Hf. induction l as [|x l IH]; [discriminate|].
  cbn in *. destruct (p x) eqn:Hx.
  - injection Hfind as ->. cbn. by rewrite Hf.
  - cbn. rewrite Hx. by apply IH.
Qed.

Lemma mutate_first_app_new (p : Session.t -> bool) (f : Session.t -> Session.t)
    (l : list Session.t) (s : Session.t) :
  find p l = None -> p s = true -> mutate_first p f (l ++ [s]) = l ++ [f s].
Proof.
  intros Hfind Hs. induction l as [|x l IH]; cbn in *.
  - by rewrite Hs.
  - destruct (p x); [discriminate|]. by rewrite IH.
Qed.

Lemma find_app_new (p : Session.t -> bool) (l : list Session.t) (s : Session.t) :
  find p l = None -> p s = true -> find p (l ++ [s]) = Some s.
Proof.
  intros Hfind Hs. induction l as [|x l IH]; cbn in *.
  - by rewrite Hs.
  - destruct (p x); [discriminate|]. by apply IH.
Qed.

Lemma mine_touch (env : Env) (ev : Event.t) (s : Session.t) :
  mine env (touch env ev s) = mine env s.
Proof. reflexivity. Qed.

Lemma mine_new_session (env : Env) : mine env (new_session env) = true.
Proof. apply String.eqb_refl. Qed.

(** [updateSessionData] in its two cases: the session is found and
    mutated where it stands, or it is appended and counted. *)
Lemma updateSessionData_cases (env : Env) (ev : Event.t) (d : Ledger) :
  (exists s, find (mine env) (sessions d) = Some s /\
     sessions (updateSessionData env ev d) = mutate_first (mine env) (touch env ev) (sessions d) /\
     totalSessions (updateSessionData env ev d) = totalSessions d /\
     find (mine env) (sessions (updateSessionData env ev d)) = Some (touch env ev s)) \/
  (find (mine env) (sessions d) = None /\
     sessions (updateSessionData env ev d) = sessions d ++ [touch env ev (new_session env)] /\
     totalSessions (updateSessionData env ev d) = (totalSessions d + 1)%N /\
     find (mine env) (sessions (updateSessionData env ev d))
     = Some (touch env ev (new_session env))).
Proof.
  unfold updateSessionData.
  destruct (find (mine env) (sessions d)) as [s|] eqn:Hfind.
  - left. exists s. cbn. repeat split; try done.
    apply find_mutate_first; [done|]. rewrite mine_touch.
    by apply find_some in Hfind as [_ ?].
  - right. cbn. rewrite mutate_first_app_new by (done || apply mine_new_session).
    repeat split; try done.
    apply find_app_new; [done|]. by rewrite mine_touch, mine_new_session.
Qed.


Lemma Put_insert {V} (o : gmap string V) (k : string) (v : V) :
  String.eqb k "__proto__" = false -> Put o k v = <[k := v]> o.
Proof. intros Hk. unfold Put. rewrite Hk. by destruct (o !! k). Qed.



Lemma map_id_mutate_first (p : Session.t -> bool) (f : Session.t -> Session.t)
    (l : list Session.t) :
  (forall s, Session.id (f s) = Session.id s) ->
  map Session.id (mutate_first p f l) = map Session.id l.
Proof.
  intros Hf. induction l as [|x l IH]; [done|].
  cbn. destruct (p x); cbn; by rewrite ?Hf, ?IH.
Qed.

Lemma length_mutate_first (p : Session.t -> bool) (f : Session.t -> Session.t)
    (l : list Session.t) :
  length (mutate_first p f l) = length l.
Proof. induction l as [|x l IH]; [done|]. cbn. destruct (p x); cbn; by rewrite ?IH. Qed.

Lemma find_mine_None (env : Env) (l : list Session.t) :
  find (mine env) l = None -> sessionId env ∉ map Session.id l.
Proof.
  induction l as [|x l IH]; cbn; [intros _; apply not_elem_of_nil|].
  unfold mine at 1. destruct (String.eqb_spec (Session.id x) (sessionId env)) as [|Hne];
    [discriminate|].
  intros Hfind. apply not_elem_of_cons. split; [congruence|by apply IH].
Qed.

Lemma find_mine_Some (env : Env) (l : list Session.t) (s : Session.t) :
  find (mine env) l = Some s -> sessionId env ∈ map Session.id l.
Proof.
  intros Hfind. apply find_some in Hfind as [Hin Hs].
  apply String.eqb_eq in Hs. rewrite <- Hs.
  apply list_elem_of_fmap. exists s. split; [done|]. by apply list_elem_of_In.
Qed.

Lemma recorded_sessions_counted (env : Env) (eventName : string) (data : json)
    (seen : gset string) (d : Ledger) :
  sessions_counted seen d ->
  sessions_counted ({[ sessionId env ]} ∪ seen) (recorded env eventName data d).
Proof.
  unfold sessions_counted, session_ids. intros (Htotal & Hnodup & Hseen).
  destruct (recorded_sessions env eventName data d) as [-> ->].
  destruct (updateSessionData_cases env (make_event env eventName data) d)
    as [(s & Hfind & -> & -> & _)|(Hfind & -> & -> & _)].
  - rewrite map_id_mutate_first by done. split; [|split; [done|]].
    + by rewrite length_mutate_first.
    + apply find_mine_Some in Hfind. rewrite <- Hseen.
      apply set_eq. intros x.
      rewrite elem_of_union, elem_of_singleton, !elem_of_list_to_set.
      split; [auto|]. by intros [->|?].
  - apply find_mine_None in Hfind.
    rewrite map_app, length_app. cbn. split; [lia|]. split.
    + apply NoDup_app. split; [done|]. split; [|apply NoDup_singleton].
      intros x Hx ->%list_elem_of_singleton. done.
    + rewrite list_to_set_app_L, Hseen. cbn [list_to_set].
      by rewrite (right_id_L ∅ (∪)), (comm_L (∪)).
Qed.

Lemma ids_seen_snoc (ops : list Op) (op : Op) :
  ids_seen (ops ++ [op])
  = match op with
    | Track env _ _ => {[ sessionId env ]} ∪ ids_seen ops
    | Reset confirm => if confirm reset_prompt then ∅ else ids_seen ops
    end.
Proof. unfold ids_seen. by rewrite fold_left_app. Qed.

Lemma run_sessions_counted (ops : list Op) (slot : option string) :
  sessions_counted (ids_seen ops) (current (run ops (start slot))).
Proof.
  induction ops as [|op ops IH] using rev_ind.
  - repeat split. apply NoDup_nil_2.
  - rewrite run_snoc, ids_seen_snoc, current_exec.
    destruct op as [env eventName data|confirm].
    + by apply recorded_sessions_counted.
    + destruct (confirm reset_prompt); [|done].
      repeat split. apply NoDup_nil_2.
Qed.

(** C5: in every state of a history that starts from the default
    document, totalSessions is the number of distinct session ids
    inserted into sessions (since the last reset that went through),
    sessions holds each of these ids once and no other; and recording
    under session ids "s1", "s2" and "s1" again gives totalSessions = 2,
    two entries in sessions, and two event names in the entry of
    "s1". *)
Theorem C5_sessions_counted :
  (forall (ops : list Op) (slot : option string),
     let d := current (run ops (start slot)) in
     totalSessions d = N.of_nat (size (ids_seen ops)) /\
     length (sessions d) = size (ids_seen ops) /\
     NoDup (session_ids d) /\
     list_to_set (session_ids d) = ids_seen ops) /\
  (forall (e1 e2 e3 : Env) (n1 n2 n3 : string) (p1 p2 p3 : json) (slot : option string),
     let ops := [ Track (in_session "s1" e1) n1 p1;
                  Track (in_session "s2" e2) n2 p2;
                  Track (in_session "s1" e3) n3 p3 ] in
     let d := current (run ops (start slot)) in
     totalSessions d = 2%N /\
     length (sessions d) = 2%nat /\
     session_ids d = ["s1"; "s2"] /\
     exists s, find (fun s => String.eqb (Session.id s) "s1") (sessions d) = Some s /\
               Session.events s = [n1; n3]).
Proof.
  split.
  - intros ops slot d.
    destruct (run_sessions_counted ops slot) as (Htotal & Hnodup & Hseen).
    fold d in Htotal, Hnodup, Hseen.
    assert (Hsize : length (sessions d) = size (ids_seen ops)).
    { rewrite <- Hseen, size_list_to_set by done. unfold session_ids.
      by rewrite length_map. }
    repeat split; try done. by rewrite Htotal, Hsize.
  - intros e1 e2 e3 n1 n2 n3 p1 p2 p3 slot ops d.
    set (d1 := recorded (in_session "s1" e1) n1 p1 getDefaultData).
    set (d2 := recorded (in_session "s2" e2) n2 p2 d1).
    assert (Hd : d = recorded (in_session "s1" e3) n3 p3 d2).
    { subst d ops. unfold run. cbn [fold_left].
      by rewrite !current_exec, current_start. }
    destruct (recorded_sessions (in_session "s1" e1) n1 p1 getDefaultData) as [S1 T1].
    destruct (recorded_sessions (in_session "s2" e2) n2 p2 d1) as [S2 T2].
    destruct (recorded_sessions (in_session "s1" e3) n3 p3 d2) as [S3 T3].
    fold d1 in S1, T1. fold d2 in S2, T2. rewrite <- Hd in S3, T3.
    unfold updateSessionData in S1, T1. cbn in S1, T1.
    unfold updateSessionData in S2, T2. rewrite S1, T1 in S2, T2. cbn in S2, T2.
    unfold updateSessionData in S3, T3. rewrite S2, T2 in S3, T3. cbn in S3, T3.
    rewrite S2 in S3. rewrite T2 in T3. cbn in S3.
    unfold session_ids. rewrite S3, T3. cbn.
    repeat split. eexists. split; reflexivity.
Qed.

(** ** Loading, forwarding, reset, snapshot *)

(** [loadData] on a slot that is missing or holds text that
    [JSON.parse] rejects. *)
Lemma loadData_default (w : World) :
  (localStorage w = None \/
   exists s e, localStorage w = Some s /\ JSON_parse s = Throw e) ->
  loadData w = (Normal (Fresh getDefaultData), w).
Proof.
  intros Hslot.
  unfold loadData, mbind, M_bind, bind, getItem. cbv beta iota.
  destruct Hslot as [->|(s & e & -> & Hparse)]; [reflexivity|].
  destruct s as [|c r]; [reflexivity|].
  unfold try_catch, lift. by rewrite Hparse.
Qed.

(** C6: when the store slot is missing, or holds text that JSON.parse
    rejects, loadData returns the default document (totalSessions 0, no
    events, the six funnel counters at zero, empty dailyStats,
    conversionRates and sessions) and ends normally, the store left as
    it was. *)
Theorem C6_load_default (w : World) :
  (localStorage w = None \/
   exists s e, localStorage w = Some s /\ JSON_parse s = Throw e) ->
  loadData w = (Normal (Fresh getDefaultData), w) /\
  totalSessions getDefaultData = 0%N /\
  events getDefaultData = [] /\
  (forall st, metric st (funnelMetrics getDefaultData) = 0%N) /\
  dailyStats getDefaultData = ∅ /\
  conversionRates getDefaultData = ∅ /\
  sessions getDefaultData = [].
Proof.
  intros Hslot. split; [by apply loadData_default|]. repeat split. by intros [].
Qed.

(** C7, as the code has it: whatever the sinks do, trackEvent leaves
    the world it leaves with no sink defined (the event appended, the
    counters, day bucket, session and rates updated, the document
    written to the store unless the store refuses it); with no sink
    defined the call ends normally; and a sink that throws makes the
    call itself end by that throw, after the recording. *)
Theorem C7_forwarding_after_recording
    (env : Env) (eventName : string) (data : json) (w : World) :
  let ev := make_event env eventName data in
  let out := trackEvent env eventName data w in
  out.2 = (trackEvent (without_sinks env) eventName data w).2 /\
  current out.2 = recorded env eventName data (current w) /\
  events (current out.2) = events (current w) ++ [ev] /\
  localStorage out.2
  = (if quota_exceeded (JSON_stringify (current out.2)) then localStorage w
     else Some (JSON_stringify (current out.2))) /\
  out.1 = forwarded env ev /\
  (gtag env = None -> fbq env = None -> out.1 = Normal tt) /\
  (forall g e, gtag env = Some g ->
     g "event" eventName
       (JObj [ ("event_category", JStr "Funnel");
               ("event_label", JStr (page_name (currentPage env)));
               ("value", data) ]) = Throw e ->
     out.1 = Throw e) /\
  (forall f e, gtag env = None -> fbq env = Some f ->
     f "trackCustom" eventName data = Throw e ->
     out.1 = Throw e).
Proof.
  intros ev out. subst out. rewrite !trackEvent_run. cbn [fst snd].
  rewrite current_persisted, current_set_current.
  split; [reflexivity|]. split; [reflexivity|]. split; [apply recorded_events|].
  split.
  { unfold persisted. rewrite current_set_current.
    by destruct (quota_exceeded _). }
  split; [reflexivity|]. unfold forwarded. subst ev. cbn [Event.event Event.data make_event].
  repeat split.
  - by intros -> ->.
  - by intros g e -> ->.
  - by intros f e -> -> ->.
Qed.

(** C8: resetAnalytics, when the confirmation is refused, returns false
    and leaves the world (document and store) as it was; when it is
    given, it returns true, the ledger is the default document, and the
    store slot holds its serialization; should the store refuse the
    write, the slot is left empty, from which loadData gives the default
    document again. *)
Theorem C8_reset (confirm : string -> bool) (w : World) :
  (confirm reset_prompt = false -> resetAnalytics confirm w = (Normal false, w)) /\
  (confirm reset_prompt = true ->
     exists w', resetAnalytics confirm w = (Normal true, w') /\
       current w' = getDefaultData /\
       localStorage w'
       = (if quota_exceeded (JSON_stringify getDefaultData) then None
          else Some (JSON_stringify getDefaultData)) /\
       (localStorage w' = None -> loadData w' = (Normal (Fresh getDefaultData), w'))).
Proof.
  rewrite resetAnalytics_run. split; intros ->; [reflexivity|].
  eexists. split; [reflexivity|].
  rewrite current_persisted, current_cleared. split; [reflexivity|]. split.
  - unfold persisted. rewrite current_cleared. by destruct (quota_exceeded _).
  - intros Hnone. apply loadData_default. by left.
Qed.

(** C9, as the code has it: getAnalytics returns the reference held in
    this.data, not a copy: what the caller writes through the returned
    reference is written to the ledger's own document. *)
Theorem C9_snapshot_is_live (w : World) (f : Ledger -> Ledger) :
  match getAnalytics w with
  | (Normal r, w') =>
      w' = w /\ r = this_data w /\ deref r w = current w /\
      current (write_at r f w) = f (current w)
  | (Throw _, _) => False
  end.
Proof.
  cbn. repeat split. apply (current_set_current (f (current w)) w).
Qed.

(** ** Day buckets keep their auxiliary fields *)

Lemma recorded_days_plain (env : Env) (eventName : string) (data : json) (d : Ledger) :
  days_plain d -> days_plain (recorded env eventName data d).
Proof.
  unfold days_plain. intros Hd day b. rewrite recorded_dailyStats, lookup_insert.
  case_decide; [|apply Hd]. intros [= <-]. cbn. unfold bucket_at.
  destruct (dailyStats d !! today env) as [b0|] eqn:Hb0; [|done].
  by apply (Hd (today env)).
Qed.

(** C10: in every state of a history that starts from the default
    document, every day bucket of dailyStats has sessions = 0 and an
    empty conversions mapping. *)
Theorem C10_day_bucket_auxiliary
    (ops : list Op) (slot : option string) (day : string) (b : DayBucket.t) :
  dailyStats (current (run ops (start slot))) !! day = Some b ->
  DayBucket.sessions b = 0%N /\ DayBucket.conversions b = ∅.
Proof.
  revert day b. fold (days_plain (current (run ops (start slot)))).
  apply (run_ind (fun w => days_plain (current w))).
  - intros slot' day b. rewrite current_start. cbn [dailyStats getDefaultData].
    by rewrite lookup_empty.
  - intros w op Hw. rewrite current_exec.
    destruct op as [env eventName data|confirm].
    + by apply recorded_days_plain.
    + destruct (confirm reset_prompt); [|done].
      intros day b. cbn [dailyStats getDefaultData]. by rewrite lookup_empty.
Qed.

(** * Proofs: histories, the page, the listeners *)

(** ** The event log *)

Lemma tracked_snoc (ops : list Op) (op : Op) :
  tracked (ops ++ [op])
  = match op with
    | Track env eventName data => tracked ops ++ [(env, eventName, data)]
    | Reset confirm => if confirm reset_prompt then [] else tracked ops
    end.
Proof. unfold tracked. by rewrite fold_left_app. Qed.

(** X1: in every state of a history that starts from the default document,
    events holds one entry for each trackEvent call made since the last
    reset that went through, in the order of the calls, each entry being
    the event object its call built: nothing is dropped, reordered or
    rewritten, whatever the store and the sinks do. *)
Theorem events_are_the_calls (ops : list Op) (slot : option string) :
  events (current (run ops (start slot))) = map event_of (tracked ops).
Proof.
  induction ops as [|op ops IH] using rev_ind; [done|].
  rewrite run_snoc, tracked_snoc, current_exec.
  destruct op as [env eventName data|confirm].
  - by rewrite recorded_events, IH, map_app.
  - by destruct (confirm reset_prompt).
Qed.

(** ** Funnel counters against the log *)

Lemma stage_of_name_Some (name : string) (st : Stage) :
  stage_of_name name = Some st -> name = stage_name st.
Proof.
  unfold stage_of_name. intros H. apply find_some in H as [_ H].
  by apply String.eqb_eq in H.
Qed.

Lemma stage_of_name_None (name : string) (st : Stage) :
  stage_of_name name = None -> String.eqb name (stage_name st) = false.
Proof.
  unfold stage_of_name. intros H.
  apply (find_none _ _ H st). destruct st; cbn; tauto.
Qed.

Lemma stage_name_inj (s st : Stage) :
  String.eqb (stage_name s) (stage_name st) = (if decide (s = st) then true else false).
Proof. by destruct s, st. Qed.

Lemma filter_snoc {A} (p : A -> bool) (l : list A) (x : A) :
  List.filter p (l ++ [x]) = List.filter p l ++ (if p x then [x] else []).
Proof. by rewrite List.filter_app. Qed.

Lemma recorded_stage_count (env : Env) (eventName : string) (data : json) (d : Ledger)
    (st : Stage) :
  metric st (funnelMetrics d) = N.of_nat (length (List.filter (named (stage_name st)) (events d))) ->
  metric st (funnelMetrics (recorded env eventName data d))
  = N.of_nat (length (List.filter (named (stage_name st))
                        (events (recorded env eventName data d)))).
Proof.
  intros Hd. rewrite recorded_events, recorded_funnelMetrics, filter_snoc, length_app.
  unfold named at 2. cbn [Event.event make_event].
  destruct (stage_of_name eventName) as [st'|] eqn:Hst.
  - apply stage_of_name_Some in Hst as ->.
    rewrite metric_bump, stage_name_inj.
    destruct (decide (st' = st)) as [->|Hne].
    + rewrite decide_True by done. cbn. lia.
    + rewrite decide_False by congruence. cbn. lia.
  - rewrite (stage_of_name_None _ st Hst). cbn. lia.
Qed.

(** X2: in every state of a history that starts from the default document,
    each funnel counter funnelMetrics[stage] is the number of entries of
    events whose name is that stage's name; events under any other name
    are in the log and in no counter. *)
Theorem funnel_counter_is_log_count (ops : list Op) (slot : option string) (st : Stage) :
  let d := current (run ops (start slot)) in
  metric st (funnelMetrics d)
  = N.of_nat (length (List.filter (named (stage_name st)) (events d))).
Proof.
  cbv zeta.
  apply (run_ind (fun w => metric st (funnelMetrics (current w))
                           = N.of_nat (length (List.filter (named (stage_name st))
                                                 (events (current w)))))).
  - intros slot'. by destruct st.
  - intros w op Hw. rewrite current_exec.
    destruct op as [env eventName data|confirm].
    + by apply recorded_stage_count.
    + destruct (confirm reset_prompt); [by destruct st|done].
Qed.

(** ** Day counters over a history *)

Lemma Put_other {V} (o : gmap string V) (k name : string) (v : V) :
  k <> name -> Put o k v !! name = o !! name.
Proof.
  intros Hk. unfold Put.
  destruct (o !! k); [|destruct (String.eqb k "__proto__")];
    by rewrite ?lookup_insert_ne.
Qed.

(** The two counter statements leave the other names alone. *)
Lemma other_counter (eventName name : string) (ev : gmap string Counter) :
  eventName <> name ->
  incr_counter eventName (init_counter eventName ev) !! name = ev !! name.
Proof.
  intros Hk. unfold incr_counter, init_counter.
  rewrite Put_other by done.
  destruct (falsy (Get ev eventName)); [by rewrite Put_other|done].
Qed.

(** The two counter statements on the name itself. *)
Lemma same_counter (name : string) (ev : gmap string Counter) (k : nat) :
  ev !! name = counter_after name k ->
  incr_counter name (init_counter name ev) !! name = counter_after name (S k).
Proof.
  unfold counter_after.
  destruct (String.eqb_spec name "__proto__") as [->|Hproto].
  - intros Hev. unfold incr_counter, init_counter, Get, Put.
    rewrite Hev. cbn. by rewrite Hev.
  - assert (Hp : String.eqb name "__proto__" = false) by by apply String.eqb_neq.
    destruct (on_Object_prototype name) eqn:Hname.
    + intros Hev. unfold incr_counter, init_counter, Get, Put.
      destruct k as [|[|k]];
        repeat first [ rewrite Hev | rewrite Hname | rewrite Hp | rewrite lookup_insert_eq
                     | rewrite insert_insert_eq | progress cbn [falsy incremented] ];
        try reflexivity.
      destruct (N.eqb_spec (N.of_nat (S k)) 0) as [|_]; [lia|].
      repeat first [ rewrite Hev | rewrite lookup_insert_eq ].
      cbn [incremented]. do 2 f_equal. lia.
    + intros Hev. rewrite counter_statements by done. rewrite lookup_insert_eq.
      unfold count_of. rewrite Hev. destruct k as [|k]; do 2 f_equal; lia.
Qed.

Lemma recorded_day_counter (env : Env) (eventName : string) (data : json) (d : Ledger)
    (day name : string) (k : nat) :
  day_counter day name d = counter_after name k ->
  day_counter day name (recorded env eventName data d)
  = counter_after name (if counts_on day name (env, eventName, data) then S k else k).
Proof.
  intros Hd. unfold day_counter in *. rewrite recorded_dailyStats.
  unfold counts_on. cbn [fst snd].
  destruct (String.eqb_spec (today env) day) as [<-|Hday]; cbn [andb].
  - rewrite lookup_insert_eq. cbn [DayBucket.events].
    assert (Hb : DayBucket.events (bucket_at (today env) d) !! name = counter_after name k).
    { unfold bucket_at. destruct (dailyStats d !! today env); [done|].
      cbn. by rewrite lookup_empty. }
    destruct (String.eqb_spec eventName name) as [->|Hname].
    + by apply same_counter.
    + by rewrite other_counter.
  - by rewrite lookup_insert_ne.
Qed.

Lemma calls_on_snoc (day name : string) (calls : list (Env * string * json))
    (call : Env * string * json) :
  calls_on day name (calls ++ [call])
  = if counts_on day name call then S (calls_on day name calls) else calls_on day name calls.
Proof.
  unfold calls_on. rewrite filter_snoc, length_app.
  destruct (counts_on day name call); cbn; lia.
Qed.

Lemma counter_after_0 (name : string) : counter_after name 0 = None.
Proof.
  unfold counter_after.
  by destruct (String.eqb name "__proto__"), (on_Object_prototype name).
Qed.

(** The counter of every name under every day, after any history. *)
Lemma run_day_counter (ops : list Op) (slot : option string) (day name : string) :
  day_counter day name (current (run ops (start slot)))
  = counter_after name (calls_on day name (tracked ops)).
Proof.
  induction ops as [|op ops IH] using rev_ind.
  - by rewrite counter_after_0.
  - rewrite run_snoc, tracked_snoc, current_exec.
    destruct op as [env eventName data|confirm].
    + rewrite calls_on_snoc. by apply recorded_day_counter.
    + destruct (confirm reset_prompt); [|done]. by rewrite counter_after_0.
Qed.

(** X3: for an event name that Object.prototype does not define, in every
    state of a history that starts from the default document,
    dailyStats[day].events[name] is absent when no call since the last
    reset counted that name under that day, and otherwise holds the
    number of such calls. *)
Theorem day_counter_counts_calls
    (ops : list Op) (slot : option string) (day name : string) :
  on_Object_prototype name = false ->
  day_counter day name (current (run ops (start slot)))
  = match calls_on day name (tracked ops) with
    | 0 => None
    | S k => Some (Count (N.of_nat (S k)))
    end.
Proof.
  intros Hname. rewrite run_day_counter. unfold counter_after. rewrite Hname.
  destruct (String.eqb_spec name "__proto__") as [->|_]; [discriminate|].
  by destruct (calls_on day name (tracked ops)).
Qed.

(** X4: for an event name that Object.prototype defines, in every state of
    a history that starts from the default document,
    dailyStats[day].events[name] is absent before the first call of that
    day, NaN after the first, and one less than the number of calls from
    the second on; under the name "__proto__" it is never there at
    all. *)
Theorem inherited_name_counter_lags
    (ops : list Op) (slot : option string) (day name : string) :
  on_Object_prototype name = true ->
  day_counter day name (current (run ops (start slot)))
  = if String.eqb name "__proto__" then None
    else match calls_on day name (tracked ops) with
         | 0 => None
         | 1 => Some NaN
         | S k => Some (Count (N.of_nat k))
         end.
Proof.
  intros Hname. rewrite run_day_counter. unfold counter_after. by rewrite Hname.
Qed.

(** ** Sessions against the log *)

Lemma mine_of_session (env : Env) (eventName : string) (data : json) (s : Session.t) :
  of_session (Session.id s) (make_event env eventName data) = mine env s.
Proof. unfold of_session, mine. cbn. apply String.eqb_sym. Qed.

Lemma session_consistent_other (env : Env) (eventName : string) (data : json)
    (d d' : Ledger) (s : Session.t) :
  events d' = events d ++ [make_event env eventName data] ->
  mine env s = false ->
  session_consistent d s -> session_consistent d' s.
Proof.
  intros Hev Hs (He & Hf & Hne & Ha). unfold session_consistent.
  rewrite Hev, filter_snoc, mine_of_session, Hs, app_nil_r. done.
Qed.

Lemma session_consistent_touch (env : Env) (eventName : string) (data : json)
    (d d' : Ledger) (s : Session.t) :
  events d' = events d ++ [make_event env eventName data] ->
  mine env s = true ->
  Session.events s = map Event.event (List.filter (of_session (Session.id s)) (events d)) ->
  (forall k, Session.funnel s !! k
             = if decide (k ∈ Session.events s /\ k <> "__proto__") then Some true else None) ->
  session_consistent d' (touch env (make_event env eventName data) s).
Proof.
  intros Hev Hs He Hf. unfold session_consistent.
  cbn [touch Session.id Session.events Session.funnel Session.lastActivity
       make_event Event.event].
  rewrite Hev, filter_snoc, mine_of_session, Hs, map_app, <- He.
  split; [done|]. split; [|split; [by destruct (Session.events s)|by eexists]].
  intros k. destruct (String.eqb_spec eventName "__proto__") as [->|Hproto].
  - unfold Put. rewrite (Hf "__proto__"), decide_False by tauto. cbn.
    rewrite Hf. apply decide_ext.
    rewrite elem_of_app, list_elem_of_singleton. tauto.
  - rewrite Put_insert by by apply String.eqb_neq.
    rewrite lookup_insert. case_decide as Hk.
    + subst k. rewrite decide_True; [done|]. split; [|done].
      apply elem_of_app. right. by apply list_elem_of_singleton.
    + rewrite Hf. apply decide_ext.
      rewrite elem_of_app, list_elem_of_singleton. split; [tauto|].
      intros [[?|?] ?]; [done|congruence].
Qed.

Lemma mutate_first_elem (env : Env) (ev : Event.t) (l : list Session.t) (s' : Session.t) :
  NoDup (map Session.id l) ->
  s' ∈ mutate_first (mine env) (touch env ev) l ->
  (exists s, s ∈ l /\ mine env s = true /\ s' = touch env ev s) \/
  (s' ∈ l /\ mine env s' = false).
Proof.
  induction l as [|x l IH]; cbn; [by intros _ ?%elem_of_nil|].
  intros Hnd%NoDup_cons Hin. destruct Hnd as [Hx Hnd].
  destruct (mine env x) eqn:Hmx.
  - apply elem_of_cons in Hin as [->|Hin].
    + left. exists x. split; [left|done].
    + right. split; [by right|].
      unfold mine in *. apply String.eqb_eq in Hmx.
      apply String.eqb_neq. intros Heq. apply Hx.
      rewrite Hmx, <- Heq. apply list_elem_of_fmap. by exists s'.
  - apply elem_of_cons in Hin as [->|Hin].
    + right. split; [left|done].
    + destruct (IH Hnd Hin) as [(s & Hs & Hm & ->)|[Hs Hm]].
      * left. exists s. split; [by right|done].
      * right. split; [by right|done].
Qed.

Lemma find_mine_none_all (env : Env) (l : list Session.t) (s : Session.t) :
  find (mine env) l = None -> s ∈ l -> mine env s = false.
Proof. intros Hfind Hs%list_elem_of_In. by apply (find_none _ _ Hfind). Qed.

Lemma recorded_log_has_sessions (env : Env) (eventName : string) (data : json) (d : Ledger) :
  log_has_sessions d -> log_has_sessions (recorded env eventName data d).
Proof.
  unfold log_has_sessions, session_ids. intros Hd ev.
  rewrite recorded_events, (proj1 (recorded_sessions env eventName data d)).
  assert (Hsub : forall sid, sid ∈ map Session.id (sessions d) ->
            sid ∈ map Session.id
                    (sessions (updateSessionData env (make_event env eventName data) d))).
  { intros sid Hsid.
    destruct (updateSessionData_cases env (make_event env eventName data) d)
      as [(s & _ & -> & _)|(_ & -> & _)].
    - by rewrite map_id_mutate_first.
    - rewrite map_app. apply elem_of_app. by left. }
  intros [Hin| ->%list_elem_of_singleton]%elem_of_app; [by apply Hsub, Hd|].
  cbn [make_event Event.sessionId].
  destruct (updateSessionData_cases env (make_event env eventName data) d)
    as [(s & Hfind & -> & _)|(_ & -> & _)].
  - rewrite map_id_mutate_first by done. by apply find_mine_Some in Hfind.
  - rewrite map_app. apply elem_of_app. right. cbn. apply list_elem_of_singleton. done.
Qed.

Lemma filter_of_session_nil (d : Ledger) (sid : string) :
  log_has_sessions d -> sid ∉ session_ids d ->
  List.filter (of_session sid) (events d) = [].
Proof.
  unfold log_has_sessions. intros Hlog Hsid.
  induction (events d) as [|ev l IH]; [done|]. cbn.
  destruct (of_session sid ev) eqn:Hev.
  - exfalso. apply Hsid. apply String.eqb_eq in Hev. rewrite <- Hev. apply Hlog. left.
  - apply IH. intros ev' Hev'. apply Hlog. by right.
Qed.

Lemma recorded_sessions_consistent (env : Env) (eventName : string) (data : json)
    (d : Ledger) :
  NoDup (session_ids d) -> log_has_sessions d ->
  Forall (session_consistent d) (sessions d) ->
  Forall (session_consistent (recorded env eventName data d))
         (sessions (recorded env eventName data d)).
Proof.
  intros Hnd Hlog Hd. rewrite Forall_forall in *. intros s' Hs'.
  rewrite (proj1 (recorded_sessions env eventName data d)) in Hs'.
  pose proof (recorded_events env eventName data d) as Hev.
  destruct (updateSessionData_cases env (make_event env eventName data) d)
    as [(s & Hfind & Hsess & _)|(Hfind & Hsess & _)]; rewrite Hsess in Hs'.
  - apply mutate_first_elem in Hs' as [(s0 & Hs0 & Hm & ->)|[Hs0 Hm]]; [| |done].
    + destruct (Hd s0 Hs0) as (He & Hf & _).
      by apply (session_consistent_touch env eventName data d).
    + apply (session_consistent_other env eventName data d); auto.
  - apply elem_of_app in Hs' as [Hs0| ->%list_elem_of_singleton].
    + apply (session_consistent_other env eventName data d); auto.
      by apply (find_mine_none_all env (sessions d)).
    + apply (session_consistent_touch env eventName data d);
        [done|apply mine_new_session|..].
      * cbn [new_session Session.events Session.id].
        rewrite filter_of_session_nil; [done|done|]. by apply find_mine_None.
      * intros k. cbn [new_session Session.funnel Session.events].
        rewrite lookup_empty, decide_False; [done|]. intros [[]%elem_of_nil _].
Qed.

Lemma run_sessions_consistent (ops : list Op) (slot : option string) :
  let d := current (run ops (start slot)) in
  log_has_sessions d /\ Forall (session_consistent d) (sessions d).
Proof.
  induction ops as [|op ops IH] using rev_ind.
  - split; [by intros ev ?%elem_of_nil|apply Forall_nil_2].
  - cbv zeta in *. destruct IH as [Hlog Hs].
    destruct (run_sessions_counted ops slot) as (_ & Hnd & _).
    rewrite run_snoc, current_exec.
    destruct op as [env eventName data|confirm].
    + split; [by apply recorded_log_has_sessions|by apply recorded_sessions_consistent].
    + destruct (confirm reset_prompt); [|done].
      split; [by intros ev ?%elem_of_nil|apply Forall_nil_2].
Qed.

(** X5: in every state of a history that starts from the default document,
    the events list of each entry of sessions is the list of the names
    of the entries of the global events log that carry this session's
    id, in the same order. *)
Theorem session_events_are_its_log_entries (ops : list Op) (slot : option string) :
  let d := current (run ops (start slot)) in
  Forall (fun s => Session.events s
                   = map Event.event (List.filter (of_session (Session.id s)) (events d)))
         (sessions d).
Proof.
  cbv zeta. destruct (run_sessions_consistent ops slot) as [_ H].
  eapply Forall_impl; [exact H|]. by intros s (He & _).
Qed.

(** X6: in every state of a history that starts from the default document,
    each entry of sessions has at least one event and a lastActivity,
    and its funnel flags are set exactly for the names in its events
    list ("__proto__" apart, which is never set), each to true. *)
Theorem session_flags_are_its_event_names (ops : list Op) (slot : option string) :
  let d := current (run ops (start slot)) in
  Forall (fun s =>
            (forall k, Session.funnel s !! k = Some true <->
                       k ∈ Session.events s /\ k <> "__proto__") /\
            (forall k, Session.funnel s !! k <> Some false) /\
            Session.events s <> [] /\
            Session.lastActivity s <> None)
         (sessions d).
Proof.
  cbv zeta. destruct (run_sessions_consistent ops slot) as [_ H].
  eapply Forall_impl; [exact H|]. intros s (_ & Hf & Hne & t & Ht).
  split; [|split; [|split; [done|by rewrite Ht]]].
  - intros k. rewrite Hf. by case_decide.
  - intros k. rewrite Hf. by case_decide.
Qed.

(** ** References handed out before a reset *)

Lemma exec_allocated (op : Op) (w : World) (r : nat) :
  allocated w -> r < this_data w ->
  allocated (exec op w) /\ r < this_data (exec op w) /\ deref r (exec op w) = deref r w.
Proof.
  unfold allocated. intros Hw Hr.
  destruct op as [env eventName data|confirm]; cbn [exec].
  - rewrite trackEvent_run. cbn [snd]. unfold persisted, set_current, write_at.
    destruct (quota_exceeded _); cbn; unfold deref; cbn;
      (split; [done|]; split; [done|]); rewrite lookup_insert_ne by lia; done.
  - rewrite resetAnalytics_run. destruct (confirm reset_prompt); cbn [snd]; [|done].
    unfold persisted, cleared.
    destruct (quota_exceeded _); cbn; unfold deref; cbn;
      (split; [lia|]; split; [lia|]); rewrite lookup_insert_ne by lia; done.
Qed.

Lemma exec_keeps_allocated (op : Op) (w : World) : allocated w -> allocated (exec op w).
Proof.
  unfold allocated. intros Hw.
  destruct op as [env eventName data|confirm]; cbn [exec].
  - rewrite trackEvent_run. cbn [snd]. unfold persisted, set_current, write_at.
    by destruct (quota_exceeded _).
  - rewrite resetAnalytics_run. destruct (confirm reset_prompt); cbn [snd]; [|done].
    unfold persisted, cleared. destruct (quota_exceeded _); cbn; lia.
Qed.

Lemma run_allocated (ops : list Op) (slot : option string) :
  allocated (run ops (start slot)).
Proof.
  apply (run_ind allocated).
  - intros slot'. unfold allocated. cbn. lia.
  - intros w op. apply exec_keeps_allocated.
Qed.

Lemma run_keeps_old (ops : list Op) (w : World) (r : nat) :
  allocated w -> r < this_data w ->
  r < this_data (run ops w) /\ deref r (run ops w) = deref r w.
Proof.
  intros Hw Hr.
  assert (allocated (run ops w) /\ r < this_data (run ops w) /\
          deref r (run ops w) = deref r w) as (_ & ? & ?); [|done].
  induction ops as [|op ops IH] using rev_ind; [done|].
  rewrite run_snoc. destruct IH as (Ha & Hlt & Hd).
  destruct (exec_allocated op (run ops w) r Ha Hlt) as (? & ? & Hd').
  by rewrite Hd' in *.
Qed.

(** X7: a reference obtained from getAnalytics before a reset that went
    through still leads to the document as it stood before the reset,
    whatever is recorded afterwards, and it is no longer the reference
    the instance holds: resetAnalytics installs a new object instead of
    emptying the old one. *)
Theorem snapshot_is_stale_after_reset
    (before after : list Op) (slot : option string) (confirm : string -> bool) :
  confirm reset_prompt = true ->
  let w1 := run before (start slot) in
  let w2 := run after (exec (Reset confirm) w1) in
  match getAnalytics w1 with
  | (Normal r, _) => deref r w2 = current w1 /\ this_data w2 <> r
  | (Throw _, _) => False
  end.
Proof.
  intros Hc w1 w2. cbn [getAnalytics].
  pose proof (run_allocated before slot) as Ha. fold w1 in Ha.
  assert (Hreset : allocated (exec (Reset confirm) w1) /\
                   this_data w1 < this_data (exec (Reset confirm) w1) /\
                   deref (this_data w1) (exec (Reset confirm) w1) = current w1).
  { unfold allocated in *. cbn [exec]. rewrite resetAnalytics_run, Hc. cbn [snd].
    unfold persisted, cleared, current.
    destruct (quota_exceeded _); cbn; unfold deref; cbn;
      (split; [lia|]; split; [lia|]); rewrite lookup_insert_ne by lia; done. }
  destruct Hreset as (Ha' & Hlt & Hd).
  destruct (run_keeps_old after _ _ Ha' Hlt) as [Hlt' Hd']. fold w2 in Hlt', Hd'.
  split; [by rewrite Hd'|lia].
Qed.

(** ** Rates that have two decimals *)

Local Open Scope Q_scope.

Lemma NQ_near_eq (n k : N) :
  Qabs (NQ n - NQ k) < 1 -> n = k.
Proof.
  unfold NQ. intros H.
  assert (E : inject_Z (Z.of_N n) - inject_Z (Z.of_N k) == inject_Z (Z.of_N n - Z.of_N k)).
  { unfold Qminus. by rewrite <- inject_Z_opp, <- inject_Z_plus. }
  rewrite E in H. apply Qabs_Qlt_condition in H as [H1 H2].
  change (- (1)) with (inject_Z (-1)) in H1. change 1 with (inject_Z 1) in H2.
  rewrite <- Zlt_Qlt in H1, H2. lia.
Qed.

Lemma percentage_exact (a b k : N) :
  (a < 2 ^ 53)%N -> (0 < b < 2 ^ 53)%N ->
  (k * b = 10000 * a)%N -> (k < 2 ^ 48)%N ->
  percentage a b = hundredths k.
Proof.
  intros Ha Hb Hk Hsmall.
  destruct (percentage_accurate a b Ha Hb) as (n & -> & Hnear). cbv zeta in Hnear.
  f_equal. apply NQ_near_eq.
  assert (HB : 0 < NQ b).
  { unfold NQ. change 0 with (inject_Z 0). rewrite <- Zlt_Qlt. lia. }
  assert (E : 10000 * NQ a / NQ b == NQ k).
  { assert (Hq : 10000 * NQ a == NQ k * NQ b).
    { unfold NQ. change 10000 with (inject_Z 10000). rewrite <- !inject_Z_mult.
      apply inject_Z_injective. lia. }
    rewrite Hq. field. lra. }
  rewrite E in Hnear.
  assert (HK : NQ k < 281474976710656).
  { unfold NQ. change 281474976710656 with (inject_Z (2 ^ 48)). rewrite <- Zlt_Qlt.
    change (2 ^ 48)%Z with (Z.of_N (2 ^ 48)). lia. }
  assert (HK0 : 0 <= NQ k).
  { unfold NQ. change 0 with (inject_Z 0). rewrite <- Zle_Qle. lia. }
  eapply Qle_lt_trans; [exact Hnear|]. lra.
Qed.

Local Close Scope Q_scope.

(** X8: when 100 * numerator / denominator has at most two decimals (k
    hundredths with k * denominator = 10000 * numerator, counts below
    2^53 and k below 2^48), the rate printed is exactly that value; in
    particular equal counts print "100.00" and a zero numerator prints
    "0.00". *)
Theorem exact_rate_prints_exactly :
  (forall a b k : N,
     (a < 2 ^ 53)%N -> (0 < b < 2 ^ 53)%N ->
     (k * b = 10000 * a)%N -> (k < 2 ^ 48)%N ->
     percentage a b = hundredths k) /\
  (forall n : N, (0 < n < 2 ^ 53)%N ->
     percentage n n = "100.00" /\ percentage 0 n = "0.00").
Proof.
  split; [exact percentage_exact|].
  intros n Hn. split.
  - rewrite (percentage_exact n n 10000); [done|lia..].
  - rewrite (percentage_exact 0 n 0); [done|lia..].
Qed.

(** ** Loading and recomputing *)

Lemma loadData_total (w : World) : exists loaded, loadData w = (Normal loaded, w).
Proof.
  unfold loadData, mbind, M_bind, bind, getItem. cbv beta iota.
  destruct (localStorage w) as [[|c r]|]; try by eexists.
  unfold try_catch, lift. destruct (JSON_parse (String c r)); by eexists.
Qed.

(** X10: loadData ends normally and leaves the store and the instance as
    they are, whatever the slot holds; an empty string in the slot is
    taken as no stored value; and a text that JSON.parse accepts is
    returned as parsed, unchecked. *)
Theorem loadData_never_throws (w : World) :
  (exists loaded, loadData w = (Normal loaded, w)) /\
  (localStorage w = Some "" -> loadData w = (Normal (Fresh getDefaultData), w)) /\
  (forall s v, localStorage w = Some s -> s <> "" -> JSON_parse s = Normal v ->
     loadData w = (Normal (Parsed v), w)).
Proof.
  split; [apply loadData_total|]. split.
  - intros Hs. unfold loadData, mbind, M_bind, bind, getItem. cbv beta iota. by rewrite Hs.
  - intros s v Hs Hne Hparse. unfold loadData, mbind, M_bind, bind, getItem.
    cbv beta iota. rewrite Hs. destruct s as [|c r]; [done|].
    unfold try_catch, lift. by rewrite Hparse.
Qed.

Lemma Ledger_eta (d : Ledger) :
  d = mkLedger (totalSessions d) (events d) (funnelMetrics d) (dailyStats d)
        (conversionRates d) (sessions d).
Proof. by destruct d. Qed.

Lemma calculateConversionRates_is (d : Ledger) :
  calculateConversionRates d
  = set_conversionRates (rates_from_scratch (funnelMetrics d) ∪ conversionRates d) d.
Proof.
  rewrite (Ledger_eta (calculateConversionRates d)).
  destruct (calculateConversionRates_frame d) as (-> & -> & -> & -> & ->).
  by rewrite calculateConversionRates_rates.
Qed.

(** X9: calculateConversionRates writes over conversionRates and deletes
    nothing: a second run changes nothing more; a key whose denominator
    is zero keeps the value it had before the call (so with all six
    counters at zero the document is left as it is); the other five
    fields of the document are untouched. *)
Theorem calculateConversionRates_overlays (d : Ledger) :
  calculateConversionRates (calculateConversionRates d) = calculateConversionRates d /\
  (forall key, rates_from_scratch (funnelMetrics d) !! key = None ->
     conversionRates (calculateConversionRates d) !! key = conversionRates d !! key) /\
  (funnelMetrics d = FunnelMetrics.mk 0 0 0 0 0 0 -> calculateConversionRates d = d) /\
  totalSessions (calculateConversionRates d) = totalSessions d /\
  events (calculateConversionRates d) = events d /\
  funnelMetrics (calculateConversionRates d) = funnelMetrics d /\
  dailyStats (calculateConversionRates d) = dailyStats d /\
  sessions (calculateConversionRates d) = sessions d.
Proof.
  split; [|split; [|split; [|apply calculateConversionRates_frame]]].
  - rewrite !calculateConversionRates_is. unfold set_conversionRates.
    cbn [totalSessions events funnelMetrics dailyStats conversionRates sessions].
    by rewrite (assoc_L (∪)), (idemp_L (∪)).
  - intros key Hkey. rewrite calculateConversionRates_rates, lookup_union, Hkey.
    by destruct (conversionRates d !! key).
  - intros Hzero. rewrite calculateConversionRates_is, Hzero.
    change (rates_from_scratch (FunnelMetrics.mk 0 0 0 0 0 0)) with (∅ : gmap string string).
    rewrite (left_id_L ∅ (∪)). by destruct d.
Qed.

(** ** The page a path names *)

Lemma String_split_cons (sep : ascii) (s : string) :
  exists piece pieces, String_split sep s = piece :: pieces.
Proof.
  induction s as [|c r (p & ps & IH)]; cbn; [by eexists _, _|].
  destruct (Ascii.eqb c sep); [by eexists _, _|]. rewrite IH. by eexists _, _.
Qed.

(** Splitting on both sides of a separator. *)
Lemma String_split_app (sep : ascii) (a b : string) :
  String_split sep (a +:+ String sep b) = String_split sep a ++ String_split sep b.
Proof.
  induction a as [|c a IH].
  - rewrite append_empty_l. cbn [String_split]. by rewrite Ascii.eqb_refl.
  - rewrite append_String_l. cbn [String_split].
    destruct (Ascii.eqb c sep); [by rewrite IH|].
    rewrite IH. by destruct (String_split_cons sep a) as (p & ps & ->).
Qed.

Lemma String_split_free (sep : ascii) (s : string) :
  free_of sep s = true -> String_split sep s = [s].
Proof.
  induction s as [|c r IH]; cbn; [done|].
  intros [Hc Hr]%andb_prop. apply negb_true_iff in Hc. by rewrite Hc, IH.
Qed.

Lemma last_String_split_app (sep : ascii) (a b : string) :
  last (String_split sep (a +:+ String sep b)) = last (String_split sep b).
Proof.
  rewrite String_split_app.
  destruct (String_split_cons sep b) as (p & ps & ->).
  apply last_app_cons.
Qed.

Lemma prefix_app (w b : string) : String.prefix w (w +:+ b) = true.
Proof.
  induction w as [|c w IH]; [by destruct b|].
  rewrite append_String_l. cbn [String.prefix].
  by destruct (ascii_dec c c).
Qed.

(** A word is included wherever it stands. *)
Lemma String_includes_app (a w b : string) :
  String_includes (a +:+ w +:+ b) w = true.
Proof.
  induction a as [|c a IH].
  - rewrite append_empty_l. destruct (w +:+ b) eqn:E; cbn [String_includes];
      rewrite <- E, prefix_app; done.
  - rewrite append_String_l. cbn [String_includes]. rewrite IH. apply orb_true_r.
Qed.

Lemma free_of_app (c : ascii) (a b : string) :
  free_of c (a +:+ b) = free_of c a && free_of c b.
Proof.
  induction a as [|c' a IH]; [done|].
  rewrite append_String_l. cbn [free_of]. by rewrite IH, andb_assoc.
Qed.

(** X12: detectCurrentPage looks at the last segment of the path only (the
    directories before it never count), and a path that ends in '/', or
    an empty path, is the quiz page (its file name is taken to be
    'index.html'). *)
Theorem detectCurrentPage_reads_the_file_name :
  (forall dir page : string,
     free_of "/" page = true ->
     detectCurrentPage (dir +:+ "/" +:+ page) = detectCurrentPage page) /\
  (forall dir : string, detectCurrentPage (dir +:+ "/") = quiz) /\
  detectCurrentPage "" = quiz.
Proof.
  split; [|split; [|done]].
  - intros dir page Hpage. unfold detectCurrentPage.
    change ("/" +:+ page) with (String "/" page).
    by rewrite last_String_split_app, String_split_free.
  - intros dir. unfold detectCurrentPage.
    change (dir +:+ "/") with (dir +:+ String "/" "").
    by rewrite last_String_split_app.
Qed.

(** X13: a file name that contains 'index' or 'quiz' anywhere is the quiz
    page whatever else it contains, and one that contains 'vendas' or
    'sales' is the sales page only if it contains neither 'index' nor
    'quiz'. *)
Theorem detectCurrentPage_word_anywhere (dir a b : string) :
  free_of "/" a = true -> free_of "/" b = true ->
  detectCurrentPage (dir +:+ "/" +:+ a +:+ "index" +:+ b) = quiz /\
  detectCurrentPage (dir +:+ "/" +:+ a +:+ "quiz" +:+ b) = quiz /\
  (forall word, word = "vendas" \/ word = "sales" ->
     String_includes (a +:+ word +:+ b) "index" = false ->
     String_includes (a +:+ word +:+ b) "quiz" = false ->
     detectCurrentPage (dir +:+ "/" +:+ a +:+ word +:+ b) = sales).
Proof.
  intros Ha Hb.
  assert (Hfile : forall w, free_of "/" w = true ->
            last (String_split "/" (dir +:+ "/" +:+ a +:+ w +:+ b)) = Some (a +:+ w +:+ b)).
  { intros w Hw. change ("/" +:+ a +:+ w +:+ b) with (String "/" (a +:+ w +:+ b)).
    rewrite last_String_split_app, String_split_free; [done|].
    by rewrite !free_of_app, Ha, Hw, Hb. }
  assert (Hne : forall c w, a +:+ String c w +:+ b <> "").
  { intros c w. by destruct a. }
  assert (Hpage : forall s : string, s <> "" ->
            match Some s with Some (String c r) => String c r | _ => "index.html" end = s).
  { intros s Hs. by destruct s. }
  split; [|split].
  - unfold detectCurrentPage. rewrite Hfile, Hpage by (done || apply Hne).
    by rewrite String_includes_app.
  - unfold detectCurrentPage. rewrite Hfile, Hpage by (done || apply Hne).
    by rewrite String_includes_app, orb_true_r.
  - intros word Hword Hindex Hquiz. unfold detectCurrentPage.
    rewrite Hfile, Hpage by (destruct Hword as [->| ->]; done || apply Hne).
    rewrite Hindex, Hquiz. cbn [orb].
    destruct Hword as [->| ->]; by rewrite String_includes_app, ?orb_true_r.
Qed.

(** ** Session ids *)

Lemma all_digits_free (c : ascii) (s : string) :
  is_digit c = false -> all_digits s = true -> free_of c s = true.
Proof.
  intros Hc. induction s as [|c' r IH]; cbn [all_digits free_of]; [done|].
  intros [Hc' Hr]%andb_prop. rewrite IH by done.
  by rewrite (is_digit_neq c' c Hc' Hc).
Qed.

Lemma decimal_digits (n : N) : all_digits (decimal n) = true.
Proof.
  unfold decimal.
  by destruct (decimal_aux_digits (N.to_nat (N.size n)) n "" eq_refl) as (c & r & -> & Hcr).
Qed.

Lemma decimal_inj (n n' : N) : decimal n = decimal n' -> n = n'.
Proof. intros H. by rewrite <- (decimal_value n), H, decimal_value. Qed.

Lemma decimal_first_digit (n : N) : exists c r, decimal n = String c r /\ is_digit c = true.
Proof.
  unfold decimal.
  destruct (decimal_aux_digits (N.to_nat (N.size n)) n "" eq_refl) as (c & r & -> & Hcr).
  cbn in Hcr. apply andb_prop in Hcr as [Hc _]. by eexists _, _.
Qed.

Lemma integer_string_inj (z z' : Z) : integer_string z = integer_string z' -> z = z'.
Proof.
  unfold integer_string.
  destruct (decimal_first_digit (Z.abs_N z)) as (c1 & r1 & E1 & H1).
  destruct (decimal_first_digit (Z.to_N z)) as (c2 & r2 & E2 & H2).
  destruct (decimal_first_digit (Z.abs_N z')) as (c3 & r3 & E3 & H3).
  destruct (decimal_first_digit (Z.to_N z')) as (c4 & r4 & E4 & H4).
  destruct (Z.ltb_spec z 0) as [Hz|Hz], (Z.ltb_spec z' 0) as [Hz'|Hz'];
    cbn [String.append]; intros H.
  - injection H as H. apply decimal_inj in H. lia.
  - rewrite E4 in H. injection H as <- _. by vm_compute in H4.
  - rewrite E2 in H. injection H as -> _. by vm_compute in H2.
  - apply decimal_inj in H. lia.
Qed.

Lemma integer_string_free (z : Z) : free_of "_" (integer_string z) = true.
Proof.
  unfold integer_string. destruct (z <? 0)%Z.
  - change ("-" +:+ ?s) with (String "-" s). cbn [free_of].
    by rewrite (all_digits_free "_" _ eq_refl (decimal_digits _)).
  - apply (all_digits_free "_" _ eq_refl (decimal_digits _)).
Qed.

(** Two texts cut at their first [c] have the same head. *)
Lemma cut_at_first (c : ascii) (a a' b b' : string) :
  free_of c a = true -> free_of c a' = true ->
  a +:+ String c b = a' +:+ String c b' -> a = a'.
Proof.
  revert a'. induction a as [|x a IH]; intros [|x' a'];
    rewrite ?append_String_l, ?append_empty_l; cbn [free_of]; intros Ha Ha' H.
  - done.
  - injection H as <- _. by rewrite Ascii.eqb_refl in Ha'.
  - injection H as -> _. by rewrite Ascii.eqb_refl in Ha.
  - injection H as -> H. apply andb_prop in Ha as [_ Ha]. apply andb_prop in Ha' as [_ Ha'].
    f_equal. by apply IH.
Qed.

Lemma append_cancel_l (s x y : string) : s +:+ x = s +:+ y -> x = y.
Proof.
  induction s as [|c s IH]; [done|].
  rewrite !append_String_l. intros [= H]. by apply IH.
Qed.

(** X14: two session ids generated at different readings of Date.now() are
    different, whatever Math.random gives. *)
Theorem generateSessionId_differs_with_the_clock (now now' : Z) (random36 random36' : string) :
  now <> now' -> generateSessionId now random36 <> generateSessionId now' random36'.
Proof.
  unfold generateSessionId. intros Hnow H%append_cancel_l. apply Hnow.
  apply integer_string_inj.
  by eapply (cut_at_first "_"); [apply integer_string_free..|exact H].
Qed.

(** Reading a field of a tab that was just written. *)
Ltac tab_fields :=
  unfold set_world, set_sessionStorage, set_listeners, set_observing,
    set_scrollTracked, set_maxScroll in *;
  cbn [world sessionStorage listeners observing scrollTracked maxScroll fst snd] in *.

(** ** One call, seen from the document *)

Lemma current_trackEvent (env : Env) (eventName : string) (data : json) (w : World) :
  current (trackEvent env eventName data w).2 = recorded env eventName data (current w).
Proof. rewrite trackEvent_run. cbn [snd]. by rewrite current_persisted, current_set_current. Qed.


Lemma trackEvent_length (env : Env) (eventName : string) (data : json) (w : World) :
  length (events (current (trackEvent env eventName data w).2))
  = S (length (events (current w))).
Proof. rewrite current_trackEvent, recorded_events, length_app. cbn. lia. Qed.


(** ** Events that are no funnel stage *)

(** X11: in a history that starts from the default document, a trackEvent
    under a name that is none of the six stage names (as
    'utm_parameters', 'quiz_cta_clicked', 'video_played' or 'page_exit')
    appends its event and leaves funnelMetrics and conversionRates
    exactly as they were. *)
Theorem other_events_leave_the_funnel
    (ops : list Op) (slot : option string) (env : Env) (eventName : string) (data : json) :
  stage_of_name eventName = None ->
  let w := run ops (start slot) in
  let w' := (trackEvent env eventName data w).2 in
  funnelMetrics (current w') = funnelMetrics (current w) /\
  conversionRates (current w') = conversionRates (current w) /\
  events (current w') = events (current w) ++ [make_event env eventName data].
Proof.
  intros Hname w w'. subst w'. rewrite current_trackEvent.
  assert (Hm : funnelMetrics (recorded env eventName data (current w))
               = funnelMetrics (current w)).
  { by rewrite recorded_funnelMetrics, Hname. }
  split; [exact Hm|]. split; [|apply recorded_events].
  pose proof (run_rates_current ops slot) as Hw. fold w in Hw.
  pose proof (recorded_rates_current env eventName data _ Hw) as Hw'.
  unfold rates_current in *. by rewrite Hw', Hm, Hw.
Qed.

(** ** The session id of a tab *)

Lemma generateSessionId_not_empty (now : Z) (random36 : string) :
  exists c r, generateSessionId now random36 = String c r.
Proof. unfold generateSessionId. rewrite append_String_l. by eexists _, _. Qed.

(** A session id returned is the one the slot holds from then on, and
    it is not empty. *)
Lemma getOrCreateSession_stored (now : Z) (random36 : string) (t t' : Tab) (sid : string) :
  getOrCreateSession now random36 t = (Normal sid, t') ->
  sessionStorage t' = Some sid /\ sid <> "".
Proof.
  unfold getOrCreateSession.
  destruct (generateSessionId_not_empty now random36) as (c0 & r0 & Hgen).
  destruct (sessionStorage t) as [[|c r]|] eqn:Hs.
  - destruct (session_quota_exceeded _); [discriminate|].
    intros [= <- <-]. by rewrite Hgen.
  - by intros [= <- <-].
  - destruct (session_quota_exceeded _); [discriminate|].
    intros [= <- <-]. by rewrite Hgen.
Qed.

(** X15: once getOrCreateSession has returned a session id, that id is not
    empty, the session store holds it, and every later call in the same
    tab returns the same id and leaves the store as it is, whatever the
    clock and Math.random give. *)
Theorem getOrCreateSession_keeps_the_session
    (now now' : Z) (random36 random36' : string) (t t' : Tab) (sid : string) :
  getOrCreateSession now random36 t = (Normal sid, t') ->
  sessionStorage t' = Some sid /\ sid <> "" /\
  getOrCreateSession now' random36' t' = (Normal sid, t').
Proof.
  intros Hfirst.
  destruct (getOrCreateSession_stored _ _ _ _ _ Hfirst) as [Hstore Hne].
  split; [done|]. split; [done|].
  unfold getOrCreateSession. rewrite Hstore. by destruct sid.
Qed.

(** ** UTM parameters *)

Lemma utm_keys_sublist (params : list (string * string)) (names : list string) :
  (omap (utm_entry params) names).*1 `sublist_of` names.
Proof.
  induction names as [|name names IH]; [done|].
  change (omap (utm_entry params) (name :: names))
    with (match utm_entry params name with
          | Some entry => entry :: omap (utm_entry params) names
          | None => omap (utm_entry params) names
          end).
  unfold utm_entry at 1.
  destruct (URLSearchParams_get params name) as [[|c r]|]; cbn [fmap list_fmap fst];
    first [by apply sublist_skip | by apply sublist_cons].
Qed.

(** X16: trackUTMParams keeps, of the five utm names and in their fixed
    order, those whose first value in the query is not empty, each with
    that value; no other query parameter enters the payload; with none
    kept nothing is recorded, otherwise one 'utm_parameters' event with
    that payload is appended; the funnel counters are untouched either
    way. *)
Theorem utm_parameters_by_first_value
    (this : Instance) (params : list (string * string)) (env : Env) (w : World) :
  let out := trackUTMParams this params env w in
  (utmData params).*1 `sublist_of` utm_names /\
  (forall name value,
     (name, value) ∈ utmData params <->
     name ∈ utm_names /\
     exists c r, URLSearchParams_get params name = Some (String c r) /\
                 value = JStr (String c r)) /\
  (utmData params = [] -> out = (Normal tt, w)) /\
  (utmData params <> [] ->
     events (current out.2)
     = events (current w)
       ++ [make_event (bound this env) "utm_parameters" (JObj (utmData params))]) /\
  funnelMetrics (current out.2) = funnelMetrics (current w).
Proof.
  intros out. split; [apply utm_keys_sublist|]. split; [|split; [|split]].
  - intros name value. unfold utmData. rewrite list_elem_of_omap. split.
    + intros (x & Hx & Hentry). unfold utm_entry in Hentry.
      destruct (URLSearchParams_get params x) as [[|c r]|] eqn:Hget; try discriminate.
      injection Hentry as <- <-. split; [done|]. by exists c, r.
    + intros (Hname & c & r & Hget & ->). exists name. split; [done|].
      unfold utm_entry. by rewrite Hget.
  - subst out. unfold trackUTMParams. by intros ->.
  - subst out. unfold trackUTMParams. destruct (utmData params) as [|e es]; [done|].
    intros _. by rewrite current_trackEvent, recorded_events.
  - subst out. unfold trackUTMParams. destruct (utmData params) as [|e es]; [done|].
    by rewrite current_trackEvent, recorded_funnelMetrics.
Qed.

(** ** Listeners that count a stage *)




Lemma or_string_empty (s : string) : or_string (Some s) "" = s.
Proof. by destruct s. Qed.


Lemma P_bind_run {A B} (m : P A) (k : A -> P B) (t : Tab) :
  (m ≫= k) t = match m t with
               | (Normal a, t') => k a t'
               | (Throw e, t') => (Throw e, t')
               end.
Proof. reflexivity. Qed.



(** ** What [init] does *)

Lemma add_video_listeners (videos : list nat) (t : Tab) :
  foldr (fun video rest => addEventListener (video_play video);; rest) (mret tt) videos t
  = (Normal tt, set_listeners (listeners t ++ map video_play videos) t).
Proof.
  revert t. induction videos as [|video videos IH]; intros t; cbn [foldr map].
  - destruct t. unfold set_listeners. cbn. by rewrite app_nil_r.
  - rewrite P_bind_run. unfold addEventListener at 1, modify. rewrite IH.
    destruct t. tab_fields. by rewrite <- app_assoc.
Qed.

(** [init]: it stops where [trackPageLoad] throws; otherwise it
    registers the listeners of the page and ends as [trackUTMParams]
    does. *)
Lemma init_run (this : Instance) (pl : PageLoad) (t : Tab) :
  init this pl t
  = match trackPageLoad this (load_env pl) (world t) with
    | (Throw e, w1) => (Throw e, set_world w1 t)
    | (Normal _, w1) =>
        let out := trackUTMParams this (search_params pl) (utm_env pl) w1 in
        (out.1,
         set_world out.2
           (set_listeners (listeners t ++ registered pl (this_currentPage this))
              (page_flags pl (this_currentPage this) t)))
    end.
Proof.
  unfold init. rewrite P_bind_run. unfold in_world at 1.
  destruct (trackPageLoad this (load_env pl) (world t)) as [[[]|e] w1]; [|done].
  cbv zeta.
  remember (trackTimeOnPage;;
            in_world (trackUTMParams this (search_params pl) (utm_env pl))) as rest
    eqn:Hrest.
  rewrite P_bind_run.
  assert (Hlast : forall t1 : Tab,
            rest t1
            = ((trackUTMParams this (search_params pl) (utm_env pl) (world t1)).1,
               set_world (trackUTMParams this (search_params pl) (utm_env pl) (world t1)).2
                 (set_listeners (listeners t1 ++ [before_unload]) t1))).
  { intros t1. rewrite Hrest, P_bind_run. unfold trackTimeOnPage, addEventListener, modify, in_world.
    tab_fields. by destruct (trackUTMParams _ _ _ (world t1)). }
  clear Hrest. unfold registered, page_flags.
  destruct t as [w ss ls ob tracked mx]. tab_fields.
  destruct (this_currentPage this).
  - unfold initQuizTracking.
    destruct (has_start_button pl), (has_result_screen pl);
      cbv [mbind P_bind mret P_ret addEventListener modify]; tab_fields;
      rewrite Hlast; tab_fields; by rewrite <- ?app_assoc.
  - unfold initSalesPageTracking.
    pose proof (add_video_listeners (seq 0 (video_count pl))) as Hvideos.
    remember (foldr _ _ (seq 0 (video_count pl))) as videos eqn:Hv. clear Hv.
    cbv [mbind P_bind mret P_ret addEventListener modify]. tab_fields.
    rewrite Hvideos. tab_fields. rewrite Hlast. tab_fields. by rewrite <- ?app_assoc.
  - unfold mret at 1, P_ret. rewrite Hlast. by tab_fields.
  - unfold mret at 1, P_ret. rewrite Hlast. by tab_fields.
Qed.


Lemma trackPageLoad_other (this : Instance) (env : Env) (w : World) :
  this_currentPage this = dashboard \/ this_currentPage this = unknown ->
  trackPageLoad this env w = (Normal tt, w).
Proof. unfold trackPageLoad. by intros [-> | ->]. Qed.

(** X17: when trackPageLoad ends by a throw (a sink that throws), init ends
    by the same throw before any listener is registered and before the
    UTM parameters are looked at, the page-load event being in the log
    all the same; this happens on the quiz and sales pages only. *)
Theorem init_stops_where_the_page_load_throws
    (this : Instance) (pl : PageLoad) (t : Tab) (e : exn) :
  (trackPageLoad this (load_env pl) (world t)).1 = Throw e ->
  let out := init this pl t in
  out.1 = Throw e /\
  listeners out.2 = listeners t /\
  observing out.2 = observing t /\
  world out.2 = (trackPageLoad this (load_env pl) (world t)).2 /\
  length (events (ledger out.2)) = S (length (events (ledger t))) /\
  (this_currentPage this = quiz \/ this_currentPage this = sales).
Proof.
  intros Hthrow out. subst out. rewrite init_run.
  destruct (trackPageLoad this (load_env pl) (world t)) as [[[]|e'] w1] eqn:Hload;
    cbn [fst snd] in *; [discriminate|]. injection Hthrow as ->.
  tab_fields. repeat split; try done.
  - unfold ledger. tab_fields. unfold trackPageLoad in Hload.
    destruct (this_currentPage this); try discriminate;
      replace w1 with (w1, w1).2 by done;
      match type of Hload with ?x = _ =>
        replace w1 with x.2 by (by rewrite Hload) end; apply trackEvent_length.
  - unfold trackPageLoad in Hload.
    destruct (this_currentPage this); try discriminate; auto.
Qed.

(** X18: on a dashboard or unknown page whose query gives no UTM value, init
    ends normally, records nothing, writes nothing to the store and
    calls no sink: all it does is register the beforeunload
    listener. *)
Theorem init_records_nothing_elsewhere (this : Instance) (pl : PageLoad) (t : Tab) :
  this_currentPage this = dashboard \/ this_currentPage this = unknown ->
  utmData (search_params pl) = [] ->
  init this pl t = (Normal tt, set_listeners (listeners t ++ [before_unload]) t).
Proof.
  intros Hpage Hutm. rewrite init_run, trackPageLoad_other by done. cbv zeta.
  unfold trackUTMParams. rewrite Hutm. unfold registered, page_flags.
  destruct t. by destruct Hpage as [-> | ->].
Qed.

(** ** The constructor *)







(** ** Sessions across calls and page loads *)






(** ** Clicks on the quiz page *)

(** X23: on the quiz page a click on a link with a non-empty href is judged
    by the href alone: if it contains none of 'vendas', 'sales',
    'goToOffer', 'checkout', nothing is recorded whatever the onclick
    attribute says; an element without href whose onclick contains
    'goToOffer' records one 'quiz_cta_clicked' event with that text as
    destination and moves no funnel counter; a click outside any link or
    button records nothing. *)
Theorem quiz_click_is_judged_by_href
    (this : Instance) (target : ClickTarget) (env : Env) (w : World) :
  (forall h, href target = Some h -> h <> "" -> leads_to_offer h = false ->
     on_quiz_click this (Some target) env w = (Normal tt, w)) /\
  (forall a b,
     href target = None \/ href target = Some "" ->
     onclick target = Some (a +:+ "goToOffer" +:+ b) ->
     let w' := (on_quiz_click this (Some target) env w).2 in
     events (current w')
     = events (current w)
       ++ [make_event (bound this env) "quiz_cta_clicked"
             (JObj [ ("buttonText", JStr (String_trim (textContent target)));
                     ("destination", JStr (a +:+ "goToOffer" +:+ b)) ])] /\
     funnelMetrics (current w') = funnelMetrics (current w)) /\
  on_quiz_click this None env w = (Normal tt, w).
Proof.
  split; [|split; [|done]].
  - intros h Hh Hne Hoffer. unfold on_quiz_click, destination. cbv zeta.
    rewrite Hh. destruct h as [|c r]; [done|]. cbn [or_string]. by rewrite Hoffer.
  - intros a b Hhref Honclick. cbv zeta.
    assert (Hdest : destination target = a +:+ "goToOffer" +:+ b).
    { unfold destination. rewrite Honclick, or_string_empty.
      by destruct Hhref as [-> | ->]. }
    unfold on_quiz_click. cbv zeta. rewrite Hdest.
    unfold leads_to_offer. rewrite (String_includes_app a "goToOffer" b).
    rewrite orb_true_r. cbn [orb].
    rewrite current_trackEvent. split; [apply recorded_events|].
    by rewrite recorded_funnelMetrics.
Qed.

(** ** The deepest scroll *)

Lemma SFcompare_None (x y : Number) :
  SFcompare x y = None <-> x = S754_nan \/ y = S754_nan.
Proof.
  destruct x as [sx|sx| |sx mx ex], y as [sy|sy| |sy my ey]; cbn;
    split; try done; try (by intros [|]); auto.
Qed.

Lemma Math_max_NaN (x y : Number) :
  Math_max x y = S754_nan <-> x = S754_nan \/ y = S754_nan.
Proof.
  unfold Math_max. destruct (SFcompare x y) as [[]|] eqn:Hc.
  - assert (Hn : ~ (x = S754_nan \/ y = S754_nan)).
    { intros H%SFcompare_None. congruence. }
    split; [|tauto]. destruct x as [[]| | |], y as [[]| | |]; try done; tauto.
  - assert (Hn : ~ (x = S754_nan \/ y = S754_nan)).
    { intros H%SFcompare_None. congruence. }
    split; [|tauto]. intros ->. tauto.
  - assert (Hn : ~ (x = S754_nan \/ y = S754_nan)).
    { intros H%SFcompare_None. congruence. }
    split; [|tauto]. intros ->. tauto.
  - apply SFcompare_None in Hc. tauto.
Qed.

Lemma on_scroll_maxScroll (this : Instance) (r : ScrollReading) (t : Tab) :
  maxScroll (after_scroll this t r) = Math_max (maxScroll t) (scroll_percentage r).
Proof.
  unfold after_scroll, on_scroll. cbv zeta. destruct t as [w ss ls ob tracked mx].
  tab_fields.
  destruct (negb tracked && js_gt (scroll_percentage r) (Number_of_N 70)); [|done].
  unfold in_world. tab_fields. by destruct (trackEvent _ _ _ w).
Qed.

(** X25: the deepest scroll kept for the checkout payload is NaN after a
    sequence of scroll events exactly when it was NaN before or one of
    the events had a NaN scroll percentage: once NaN, it never
    recovers. *)
Theorem maxScroll_stays_NaN (this : Instance) (rs : list ScrollReading) (t : Tab) :
  maxScroll (fold_left (after_scroll this) rs t) = S754_nan <->
  maxScroll t = S754_nan \/ Exists (fun r => scroll_percentage r = S754_nan) rs.
Proof.
  revert t. induction rs as [|r rs IH]; intros t; cbn [fold_left].
  - rewrite Exists_nil. tauto.
  - rewrite IH, on_scroll_maxScroll, Math_max_NaN, Exists_cons. tauto.
Qed.

(** ** The start button *)




(** ** What the store holds *)



End Analytics.

(** * Concrete runs *)


(** C6 on a concrete store: the slot holds text the parser rejects. *)
Lemma C6_witness :
  let w := start (Some "{totalSessions:") in
  (localStorage w = None \/
   exists s e, localStorage w = Some s /\ sample_parse s = Throw e) /\
  loadData Ledger sample_parse w = (Normal (Fresh Ledger getDefaultData), w).
Proof.
  assert (H : localStorage (start (Some "{totalSessions:")) = None \/
              exists s e, localStorage (start (Some "{totalSessions:")) = Some s /\
                          sample_parse s = Throw e).
  { right. exists "{totalSessions:", SyntaxError. split; reflexivity. }
  split; [exact H|].
  exact (proj1 (C6_load_default Ledger sample_parse (start (Some "{totalSessions:")) H)).
Defined.

(** C10 on a concrete run: the bucket of 2024-03-09 after one
    "quiz_loaded". *)
Lemma C10_witness :
  let d := current (run sample_Number_toString sample_stringify sample_quota
                      [Track sample_env "quiz_loaded" (JObj [])] (start None)) in
  let b := DayBucket.mk 0 {[ "quiz_loaded" := Count 1 ]} ∅ in
  dailyStats d !! "2024-03-09" = Some b /\
  DayBucket.sessions b = 0%N /\ DayBucket.conversions b = ∅.
Proof.
  assert (H : dailyStats
                (current (run sample_Number_toString sample_stringify sample_quota
                            [Track sample_env "quiz_loaded" (JObj [])] (start None)))
                !! "2024-03-09"
              = Some (DayBucket.mk 0 {[ "quiz_loaded" := Count 1 ]} ∅)).
  { vm_compute. reflexivity. }
  split; [exact H|].
  exact (C10_day_bucket_auxiliary sample_Number_toString sample_stringify sample_quota
           [Track sample_env "quiz_loaded" (JObj [])] None "2024-03-09" _ H).
Defined.

(** C7 as stated fails: with a [gtag] that throws, trackEvent ends by
    that throw (the event being recorded all the same). *)
Lemma C7_throwing_sink_propagates :
  let out := trackEvent sample_Number_toString sample_stringify sample_quota
               broken_gtag_env "quiz_loaded" (JObj []) (start None) in
  out.1 = Throw (Error "gtag failed") /\
  length (events (current out.2)) = 1%nat.
Proof. vm_compute. split; reflexivity. Qed.

(** C9 as stated fails: a write through the reference getAnalytics
    returns shows in the ledger's own document. *)
Lemma C9_caller_mutation_shows :
  match getAnalytics (start None) with
  | (Normal r, w) =>
      totalSessions (current w) = 0%N /\
      totalSessions (current (write_at r (set_totalSessions 99) w)) = 99%N
  | (Throw _, _) => False
  end.
Proof. vm_compute. split; reflexivity. Qed.

(** X3 on a concrete run: one "quiz_loaded" on 2024-03-09. *)
Lemma X3_witness :
  on_Object_prototype "quiz_loaded" = false /\
  day_counter "2024-03-09" "quiz_loaded"
    (current (run sample_Number_toString sample_stringify sample_quota
                [Track sample_env "quiz_loaded" (JObj [])] (start None)))
  = match calls_on "2024-03-09" "quiz_loaded"
            (tracked [Track sample_env "quiz_loaded" (JObj [])]) with
    | 0 => None
    | S k => Some (Count (N.of_nat (S k)))
    end.
Proof.
  split; [reflexivity|].
  exact (day_counter_counts_calls sample_Number_toString sample_stringify sample_quota
           [Track sample_env "quiz_loaded" (JObj [])] None "2024-03-09" "quiz_loaded"
           eq_refl).
Defined.

(** X4 on a concrete run: "toString" recorded three times in a day. *)
Lemma X4_witness :
  let ops := [ Track sample_env "toString" (JObj []);
               Track sample_env "toString" (JObj []);
               Track sample_env "toString" (JObj []) ] in
  on_Object_prototype "toString" = true /\
  day_counter "2024-03-09" "toString"
    (current (run sample_Number_toString sample_stringify sample_quota ops (start None)))
  = if String.eqb "toString" "__proto__" then None
    else match calls_on "2024-03-09" "toString" (tracked ops) with
         | 0 => None
         | 1 => Some NaN
         | S k => Some (Count (N.of_nat k))
         end.
Proof.
  intros ops. split; [reflexivity|].
  exact (inherited_name_counter_lags sample_Number_toString sample_stringify sample_quota
           ops None "2024-03-09" "toString" eq_refl).
Defined.

(** X7 on a concrete run: a reference taken after one event, a reset,
    then another event. *)
Lemma X7_witness :
  let confirm := fun _ : string => true in
  let before := [Track sample_env "quiz_loaded" (JObj [])] in
  let after := [Track sample_env "quiz_started" (JObj [])] in
  confirm reset_prompt = true /\
  let w1 := run sample_Number_toString sample_stringify sample_quota before (start None) in
  let w2 := run sample_Number_toString sample_stringify sample_quota after
              (exec sample_Number_toString sample_stringify sample_quota (Reset confirm) w1) in
  match getAnalytics w1 with
  | (Normal r, _) => deref r w2 = current w1 /\ this_data w2 <> r
  | (Throw _, _) => False
  end.
Proof.
  intros confirm before after. split; [reflexivity|].
  exact (snapshot_is_stale_after_reset sample_Number_toString sample_stringify sample_quota
           before after None confirm eq_refl).
Defined.

(** X11 on a concrete call: a "page_exit" on a new instance. *)
Lemma X11_witness :
  stage_of_name "page_exit" = None /\
  let w := run sample_Number_toString sample_stringify sample_quota [] (start None) in
  let w' := (trackEvent sample_Number_toString sample_stringify sample_quota
               sample_env "page_exit" (JObj []) w).2 in
  funnelMetrics (current w') = funnelMetrics (current w) /\
  conversionRates (current w') = conversionRates (current w) /\
  events (current w') = events (current w) ++ [make_event sample_env "page_exit" (JObj [])].
Proof.
  split; [reflexivity|].
  exact (other_events_leave_the_funnel sample_Number_toString sample_stringify sample_quota
           [] None sample_env "page_exit" (JObj []) eq_refl).
Defined.

(** X13 on concrete file names: "my-index.html", "my-quiz.html" under
    "/site". *)
Lemma X13_witness :
  free_of "/" "my-" = true /\ free_of "/" ".html" = true /\
  detectCurrentPage ("/site" +:+ "/" +:+ "my-" +:+ "index" +:+ ".html") = quiz /\
  detectCurrentPage ("/site" +:+ "/" +:+ "my-" +:+ "quiz" +:+ ".html") = quiz.
Proof.
  split; [reflexivity|]. split; [reflexivity|].
  pose proof (detectCurrentPage_word_anywhere "/site" "my-" ".html" eq_refl eq_refl)
    as (Hindex & Hquiz & _).
  split; [exact Hindex | exact Hquiz].
Defined.

(** X14 at two readings of the clock one millisecond apart. *)
Lemma X14_witness :
  (1709967959042 <> 1709967959043)%Z /\
  generateSessionId 1709967959042 "0.k3j9x2m1qabcdef"
  <> generateSessionId 1709967959043 "0.k3j9x2m1qabcdef".
Proof.
  assert (H : (1709967959042 <> 1709967959043)%Z) by discriminate.
  split; [exact H|].
  exact (generateSessionId_differs_with_the_clock _ _ _ _ H).
Defined.

(** X15 in a new tab: the id generated first is the one a later call
    returns. *)
Lemma X15_witness :
  let sid := generateSessionId 1709967959042 "0.k3j9x2m1qabcdef" in
  let t := new_tab None None in
  let t' := set_sessionStorage (Some sid) t in
  getOrCreateSession sample_session_quota 1709967959042 "0.k3j9x2m1qabcdef" t
  = (Normal sid, t') /\
  getOrCreateSession sample_session_quota 1709968000000 "0.zzzzzzzzzzz" t' = (Normal sid, t').
Proof.
  intros sid t t'.
  assert (H : getOrCreateSession sample_session_quota 1709967959042 "0.k3j9x2m1qabcdef" t
              = (Normal sid, t')) by reflexivity.
  split; [exact H|].
  exact (proj2 (proj2 (getOrCreateSession_keeps_the_session sample_session_quota
                         1709967959042 1709968000000 "0.k3j9x2m1qabcdef" "0.zzzzzzzzzzz"
                         t t' sid H))).
Defined.

(** X17 on the quiz page under a [gtag] that throws. *)
Lemma X17_witness :
  let this := mkInstance "session_1709967959042_k3j9x2m1q" 1709967959040 quiz in
  let t := mkTab (start None) None [] false false (S754_zero false) in
  (trackPageLoad sample_Number_toString sample_stringify sample_quota this
     (load_env broken_quiz_load) (world t)).1 = Throw (Error "gtag failed") /\
  let out := init sample_Number_toString sample_stringify sample_quota this
               broken_quiz_load t in
  out.1 = Throw (Error "gtag failed") /\ listeners out.2 = listeners t.
Proof.
  intros this t.
  assert (H : (trackPageLoad sample_Number_toString sample_stringify sample_quota this
                 (load_env broken_quiz_load) (world t)).1 = Throw (Error "gtag failed")).
  { vm_compute. reflexivity. }
  split; [exact H|].
  pose proof (init_stops_where_the_page_load_throws sample_Number_toString sample_stringify
                sample_quota this broken_quiz_load t (Error "gtag failed") H) as Hinit.
  cbv zeta in Hinit |- *. destruct Hinit as (Hthrow & Hlisteners & _).
  split; [exact Hthrow | exact Hlisteners].
Defined.

(** X18 on the dashboard, nothing in the query. *)
Lemma X18_witness :
  let this := mkInstance "session_1709967959042_k3j9x2m1q" 1709967959040 dashboard in
  let t := mkTab (start None) None [] false false (S754_zero false) in
  (this_currentPage this = dashboard \/ this_currentPage this = unknown) /\
  utmData (search_params sample_dashboard_load) = [] /\
  init sample_Number_toString sample_stringify sample_quota this sample_dashboard_load t
  = (Normal tt, set_listeners (listeners t ++ [before_unload]) t).
Proof.
  intros this t.
  assert (Hpage : this_currentPage this = dashboard \/ this_currentPage this = unknown)
    by (left; reflexivity).
  assert (Hutm : utmData (search_params sample_dashboard_load) = []) by reflexivity.
  split; [exact Hpage|]. split; [exact Hutm|].
  exact (init_records_nothing_elsewhere sample_Number_toString sample_stringify sample_quota
           this sample_dashboard_load t Hpage Hutm).
Defined.



